(** * PhIP-Seq tile visualizer: the client-side search subsystem

    A shallow embedding of [src/utils/api.ts] (the memoising JSON
    accessor [fetchJson]) and of the [Search] component (light virus
    search, debounced deep protein search, keyboard navigation), with
    the properties of the design specification stated over it. *)

From Stdlib Require Import QArith Sorted.
From stdpp Require Import gmap strings list.

Set Warnings "-register-all".

Local Open Scope Z_scope.
Local Open Scope nat_scope.
Local Open Scope string_scope.

(** ** JSON values and JavaScript truthiness *)

Inductive JSON : Type :=
| JNull
| JBool (b : bool)
| JNumber (q : Q)
| JString (s : string)
| JArray (elems : list JSON)
| JObject (members : list (string * JSON)).

(** [if (v)] in JavaScript, restricted to the values [response.json()]
    can produce: [null], [false], zero and the empty string are falsy,
    every array and every object (also an empty one) is truthy. *)
Definition truthy (v : JSON) : bool :=
  match v with
  | JNull => false
  | JBool b => b
  | JNumber q => negb (Qnum q =? 0)%Z
  | JString s => negb (String.eqb s "")
  | JArray _ => true
  | JObject _ => true
  end.

(** How a promise settles. *)
Inductive Settled (A : Type) : Type :=
| Resolved (value : A)
| Rejected (reason : string).
Arguments Resolved {A} value.
Arguments Rejected {A} reason.

(** ** [src/utils/api.ts] *)

Module Api.

(** What [fetch] hands back once the transport succeeded.  [body] is
    [None] when [response.json()] rejects (the body is not JSON). *)
Record Response : Type := mkResponse {
  ok : bool;
  statusText : string;
  body : option JSON
}.

(** The module-level [cache] object together with the log of the
    requests that went out through [fetch]. *)
Record World : Type := mkWorld {
  cache : gmap string JSON;
  requests : list string
}.

Definition initial : World := mkWorld ∅ [].

(** [cache[path]] read in a boolean context: an absent key reads as
    [undefined], which is falsy.  (No caller passes a path that names
    an inherited property of [Object.prototype]: every path ends in
    [.json].) *)
Definition cached (path : string) (w : World) : option JSON :=
  match cache w !! path with
  | Some v => if truthy v then Some v else None
  | None => None
  end.

(** [fetchJson(path)] up to its first [await] (api.ts:9-13): a truthy
    cache entry is returned at once ([Some v]); otherwise the request
    goes out and the call is suspended ([None]). *)
Definition fetchJson_begin (path : string) (w : World) : World * option JSON :=
  match cached path w with
  | Some v => (w, Some v)
  | None => (mkWorld (cache w) (requests w ++ [path]), None)
  end.

(** [fetchJson(path)] from the moment the network has answered
    (api.ts:13-20), in the world as it is by then.  [reply] is [None]
    when [fetch] itself rejects. *)
Definition fetchJson_resume (path : string) (reply : option Response)
  (w : World) : World * Settled JSON :=
  match reply with
  | None => (w, Rejected "TypeError: Failed to fetch")
  | Some response =>
      if negb (ok response)
      then (w, Rejected ("Failed to fetch " ++ path ++ ": " ++ statusText response))
      else match body response with
           | None => (w, Rejected "SyntaxError")
           | Some data =>
               (mkWorld (<[path := data]> (cache w)) (requests w), Resolved data)
           end
  end.

(** One call of [fetchJson(path)] taken alone: nothing else runs
    between its cache check and its settlement.  Calls that overlap are
    described by [Session] below. *)
Definition fetchJson (path : string) (reply : option Response) (w : World)
  : World * Settled JSON :=
  match fetchJson_begin path w with
  | (w0, Some v) => (w0, Resolved v)
  | (w1, None) => fetchJson_resume path reply w1
  end.

Definition fetchViruses : option Response -> World -> World * Settled JSON :=
  fetchJson "viruses.json".

Definition fetchVirusProteins (virusId : string)
  : option Response -> World -> World * Settled JSON :=
  fetchJson ("proteins/" ++ virusId ++ ".json").

Definition fetchProteinIndex : option Response -> World -> World * Settled JSON :=
  fetchJson "proteins/index.json".

Definition fetchSharedTiles : option Response -> World -> World * Settled JSON :=
  fetchJson "tiles/shared.json".

Definition fetchSearchIndex : option Response -> World -> World * Settled JSON :=
  fetchJson "search-index.json".

Definition fetchStatistics : option Response -> World -> World * Settled JSON :=
  fetchJson "statistics.json".

(** Calls of [fetchJson] that overlap.  Besides the world, a session
    has the calls suspended at [await fetch(...)], each with its path,
    in the order they were made.  (A call awaits twice, the response and
    then its body; it touches nothing in between, so the two are taken
    together.) *)
Record Session : Type := mkSession {
  world : World;
  awaiting : list string
}.

(** What can happen next: some caller calls [fetchJson(path)], or the
    network answers the suspended call at position [k], in any order. *)
Inductive Act : Type :=
| Call (path : string)
| Answer (k : nat) (reply : option Response).

Definition act (a : Act) (ss : Session) : Session :=
  match a with
  | Call path =>
      match fetchJson_begin path (world ss) with
      | (w, Some _) => mkSession w (awaiting ss)
      | (w, None) => mkSession w (awaiting ss ++ [path])
      end
  | Answer k reply =>
      match awaiting ss !! k with
      | Some path =>
          mkSession (fst (fetchJson_resume path reply (world ss)))
                    (delete k (awaiting ss))
      | None => ss
      end
  end.

Definition acts (l : list Act) (ss : Session) : Session :=
  fold_left (fun acc a => act a acc) l ss.

(** How often [path] was requested. *)
Definition requestsFor (path : string) (w : World) : nat :=
  length (List.filter (String.eqb path) (requests w)).

(** The own property [key] of a parsed JSON object; of members with the
    same key [JSON.parse] keeps the last. *)
Fixpoint own (members : list (string * JSON)) (key : string) : option JSON :=
  match members with
  | [] => None
  | (k, v) :: rest =>
      match own rest key with
      | Some later => Some later
      | None => if String.eqb k key then Some v else None
      end
  end.

(** The names every object inherits from [Object.prototype]. *)
Definition inherited (key : string) : bool :=
  existsb (String.eqb key)
    [ "constructor"; "__proto__"; "hasOwnProperty"; "isPrototypeOf";
      "propertyIsEnumerable"; "toLocaleString"; "toString"; "valueOf";
      "__defineGetter__"; "__defineSetter__"; "__lookupGetter__";
      "__lookupSetter__" ].

(** What reading a property gives: parsed data, something inherited (a
    function or the prototype object: truthy, with no data property of
    its own), or [undefined]. *)
Inductive Value : Type :=
| Data (v : JSON)
| Builtin
| Undefined.

Definition truthyValue (x : Value) : bool :=
  match x with
  | Data v => truthy v
  | Builtin => true
  | Undefined => false
  end.

(** [index[key]] on a parsed JSON object. *)
Definition readKey (members : list (string * JSON)) (key : string) : Value :=
  match own members key with
  | Some v => Data v
  | None => if inherited key then Builtin else Undefined
  end.

(** [proteinInfo.virusId]; neither [Object.prototype] nor the
    prototypes of arrays, strings, numbers and booleans have a member of
    that name.  [None] is [undefined]. *)
Definition readVirusId (proteinInfo : Value) : option JSON :=
  match proteinInfo with
  | Data (JObject members) => own members "virusId"
  | _ => None
  end.

(** The text a template literal puts for a value.  Numbers, arrays and
    objects are left out ([None]): [ProteinIndex.virusId] is declared a
    string. *)
Definition templateText (x : option JSON) : option string :=
  match x with
  | None => Some "undefined"
  | Some (JString text) => Some text
  | Some JNull => Some "null"
  | Some (JBool true) => Some "true"
  | Some (JBool false) => Some "false"
  | Some (JNumber _) => None
  | Some (JArray _) => None
  | Some (JObject _) => None
  end.

(** [p.id === proteinId] for an element of the parsed array; [None]
    when reading [p.id] throws, which it does on [null]. *)
Definition hasId (proteinId : string) (p : JSON) : option bool :=
  match p with
  | JNull => None
  | JObject members =>
      match own members "id" with
      | Some (JString text) => Some (String.eqb text proteinId)
      | _ => Some false
      end
  | _ => Some false
  end.

(** How a call ends: it returns, it throws, or the data is outside the
    declared types in a way that is not modelled. *)
Inductive Run (A : Type) : Type :=
| Returns (a : A)
| Throws (reason : string)
| Untyped.
Arguments Returns {A} a.
Arguments Throws {A} reason.
Arguments Untyped {A}.

(** [proteins.find(p => p.id === proteinId)] on the elements of an
    array. *)
Fixpoint findById (proteinId : string) (elems : list JSON)
  : Run (option JSON) :=
  match elems with
  | [] => Returns None
  | p :: rest =>
      match hasId proteinId p with
      | None => Throws "TypeError: Cannot read properties of null"
      | Some true => Returns (Some p)
      | Some false => findById proteinId rest
      end
  end.

Record Found : Type := mkFound {
  protein : JSON;
  virusId : option JSON
}.

(** [findProteinById(proteinId)], with the answers the network has
    ready for its two fetches.  An index that is [null] makes
    [index[proteinId]] throw; an index that is neither [null] nor an
    object is outside [Record<string, ProteinIndex>].  A value without
    [find] (anything but an array) makes [proteins.find] throw. *)
Definition findProteinById (proteinId : string)
  (reply1 reply2 : option Response) (w : World)
  : World * Run (option Found) :=
  match fetchProteinIndex reply1 w with
  | (w1, Rejected reason) => (w1, Throws reason)
  | (w1, Resolved JNull) =>
      (w1, Throws "TypeError: Cannot read properties of null")
  | (w1, Resolved (JObject members)) =>
      let proteinInfo := readKey members proteinId in
      if negb (truthyValue proteinInfo) then (w1, Returns None)
      else
        match templateText (readVirusId proteinInfo) with
        | None => (w1, Untyped)
        | Some text =>
            match fetchVirusProteins text reply2 w1 with
            | (w2, Rejected reason) => (w2, Throws reason)
            | (w2, Resolved (JArray elems)) =>
                match findById proteinId elems with
                | Returns (Some p) =>
                    (w2, Returns (Some (mkFound p (readVirusId proteinInfo))))
                | Returns None => (w2, Returns None)
                | Throws reason => (w2, Throws reason)
                | Untyped => (w2, Untyped)
                end
            | (w2, Resolved _) =>
                (w2, Throws "TypeError: proteins.find is not a function")
            end
        end
  | (w1, Resolved _) => (w1, Untyped)
  end.

(** [findProteinById(proteinId)] one [await] at a time, for a call that
    overlaps with others.  The call is suspended at a fetch that is in
    flight ([AwaitIndex], [AwaitProteins]) or at an [await] whose value
    is there already and resumes with the next turn of the job queue
    ([HaveIndex], [HaveProteins]), or it has ended. *)
Inductive Phase : Type :=
| AwaitIndex
| HaveIndex (index : JSON)
| AwaitProteins (proteinInfo : Value) (text : string)
| HaveProteins (proteinInfo : Value) (proteins : JSON)
| Ended (outcome : Run (option Found)).

(** Lines 62-63: the answer of [findProteinById] once [proteins] is
    there. *)
Definition conclude (proteinId : string) (proteinInfo : Value)
  (proteins : JSON) : Run (option Found) :=
  match proteins with
  | JArray elems =>
      match findById proteinId elems with
      | Returns (Some p) => Returns (Some (mkFound p (readVirusId proteinInfo)))
      | Returns None => Returns None
      | Throws reason => Throws reason
      | Untyped => Untyped
      end
  | _ => Throws "TypeError: proteins.find is not a function"
  end.

(** The call itself: it runs into [fetchProteinIndex()], whose cache
    check (and request, on a miss) happens at once. *)
Definition lookup_begin (w : World) : World * Phase :=
  match fetchJson_begin "proteins/index.json" w with
  | (w0, Some index) => (w0, HaveIndex index)
  | (w1, None) => (w1, AwaitIndex)
  end.

(** The call resumes, in the world as it is by then, and runs to its
    next [await] or to its end.  [reply] is the answer of the network
    and is looked at only when a fetch was in flight. *)
Definition lookup_resume (proteinId : string) (reply : option Response)
  (phase : Phase) (w : World) : World * Phase :=
  match phase with
  | AwaitIndex =>
      match fetchJson_resume "proteins/index.json" reply w with
      | (w1, Resolved index) => (w1, HaveIndex index)
      | (w1, Rejected reason) => (w1, Ended (Throws reason))
      end
  | HaveIndex JNull =>
      (w, Ended (Throws "TypeError: Cannot read properties of null"))
  | HaveIndex (JObject members) =>
      let proteinInfo := readKey members proteinId in
      if negb (truthyValue proteinInfo) then (w, Ended (Returns None))
      else
        match templateText (readVirusId proteinInfo) with
        | None => (w, Ended Untyped)
        | Some text =>
            match fetchJson_begin ("proteins/" ++ text ++ ".json") w with
            | (w0, Some proteins) => (w0, HaveProteins proteinInfo proteins)
            | (w1, None) => (w1, AwaitProteins proteinInfo text)
            end
        end
  | HaveIndex _ => (w, Ended Untyped)
  | AwaitProteins proteinInfo text =>
      match fetchJson_resume ("proteins/" ++ text ++ ".json") reply w with
      | (w1, Resolved proteins) => (w1, HaveProteins proteinInfo proteins)
      | (w1, Rejected reason) => (w1, Ended (Throws reason))
      end
  | HaveProteins proteinInfo proteins =>
      (w, Ended (conclude proteinId proteinInfo proteins))
  | Ended outcome => (w, Ended outcome)
  end.

(** A lookup among other callers: in each turn either the lookup
    resumes or another caller acts. *)
Inductive Turn : Type :=
| Mine (reply : option Response)
| Theirs (a : Act).

Definition turn (proteinId : string) (t : Turn) (st : Session * Phase)
  : Session * Phase :=
  match t with
  | Mine reply =>
      match lookup_resume proteinId reply (snd st) (world (fst st)) with
      | (w, phase) => (mkSession w (awaiting (fst st)), phase)
      end
  | Theirs a => (act a (fst st), snd st)
  end.

Definition lookup (proteinId : string) (turns : list Turn) (ss : Session)
  : Session * Phase :=
  fold_left (fun st t => turn proteinId t st) turns
    (match lookup_begin (world ss) with
     | (w, phase) => (mkSession w (awaiting ss), phase)
     end).


End Api.

(** ** The [Search] component: data *)

Module VirusIndex.
Record t : Type := mk { id : string; name : string }.
End VirusIndex.

Module ProteinSearchItem.
Record t : Type := mk {
  id : string;
  name : string;
  virusId : string;
  virusName : string
}.
End ProteinSearchItem.

Inductive ResultType : Type := virus | protein.

Definition ResultType_eqb (a b : ResultType) : bool :=
  match a, b with
  | virus, virus | protein, protein => true
  | _, _ => false
  end.

Module SearchResult.
Record t : Type := mk {
  type : ResultType;
  id : string;
  name : string;
  virusId : option string;
  virusName : option string
}.
End SearchResult.

(** A timer registered with [setTimeout]: its handle, the time it is
    due, and the [query] its callback closed over. *)
Record Timer : Type := mkTimer {
  handle : nat;
  due : nat;
  captured : string
}.

(** A [fetch] of the deep index that has not settled yet, with the
    [searchQuery] its [deepSearch] call was given. *)
Record Request : Type := mkRequest {
  ticket : nat;
  searchQuery : string
}.

(** The component's React state and ref ([virusIndex] to
    [deepSearchRef]), whether the last run of the query effect returned
    a cleanup function, and the part of the browser the component
    touches: the clock, the timer table, the fetches in flight, and
    logs of the requests, navigations and errors. *)
Record State : Type := mkState {
  virusIndex : list VirusIndex.t;
  loading : bool;
  query : string;
  results : list SearchResult.t;
  isOpen : bool;
  selectedIndex : Z;
  isDeepSearching : bool;
  deepSearchRef : option nat;
  effectCleanup : bool;
  clock : nat;
  timers : list Timer;
  nextTimer : nat;
  inflight : list Request;
  nextRequest : nat;
  fetched : list string;
  navigated : list string;
  consoleErrors : list string;
  uncaught : list string
}.

Definition set_virusIndex (x : list VirusIndex.t) (s : State) : State :=
  mkState
    x (loading s) (query s) (results s) (isOpen s) (selectedIndex s)
    (isDeepSearching s) (deepSearchRef s) (effectCleanup s) (clock s)
    (timers s) (nextTimer s) (inflight s) (nextRequest s) (fetched s)
    (navigated s) (consoleErrors s) (uncaught s).

Definition set_loading (x : bool) (s : State) : State :=
  mkState
    (virusIndex s) x (query s) (results s) (isOpen s) (selectedIndex s)
    (isDeepSearching s) (deepSearchRef s) (effectCleanup s) (clock s)
    (timers s) (nextTimer s) (inflight s) (nextRequest s) (fetched s)
    (navigated s) (consoleErrors s) (uncaught s).

Definition set_query (x : string) (s : State) : State :=
  mkState
    (virusIndex s) (loading s) x (results s) (isOpen s) (selectedIndex s)
    (isDeepSearching s) (deepSearchRef s) (effectCleanup s) (clock s)
    (timers s) (nextTimer s) (inflight s) (nextRequest s) (fetched s)
    (navigated s) (consoleErrors s) (uncaught s).

Definition set_results (x : list SearchResult.t) (s : State) : State :=
  mkState
    (virusIndex s) (loading s) (query s) x (isOpen s) (selectedIndex s)
    (isDeepSearching s) (deepSearchRef s) (effectCleanup s) (clock s)
    (timers s) (nextTimer s) (inflight s) (nextRequest s) (fetched s)
    (navigated s) (consoleErrors s) (uncaught s).

Definition set_isOpen (x : bool) (s : State) : State :=
  mkState
    (virusIndex s) (loading s) (query s) (results s) x (selectedIndex s)
    (isDeepSearching s) (deepSearchRef s) (effectCleanup s) (clock s)
    (timers s) (nextTimer s) (inflight s) (nextRequest s) (fetched s)
    (navigated s) (consoleErrors s) (uncaught s).

Definition set_selectedIndex (x : Z) (s : State) : State :=
  mkState
    (virusIndex s) (loading s) (query s) (results s) (isOpen s) x
    (isDeepSearching s) (deepSearchRef s) (effectCleanup s) (clock s)
    (timers s) (nextTimer s) (inflight s) (nextRequest s) (fetched s)
    (navigated s) (consoleErrors s) (uncaught s).

Definition set_isDeepSearching (x : bool) (s : State) : State :=
  mkState
    (virusIndex s) (loading s) (query s) (results s) (isOpen s)
    (selectedIndex s) x (deepSearchRef s) (effectCleanup s) (clock s)
    (timers s) (nextTimer s) (inflight s) (nextRequest s) (fetched s)
    (navigated s) (consoleErrors s) (uncaught s).

Definition set_deepSearchRef (x : option nat) (s : State) : State :=
  mkState
    (virusIndex s) (loading s) (query s) (results s) (isOpen s)
    (selectedIndex s) (isDeepSearching s) x (effectCleanup s) (clock s)
    (timers s) (nextTimer s) (inflight s) (nextRequest s) (fetched s)
    (navigated s) (consoleErrors s) (uncaught s).

Definition set_effectCleanup (x : bool) (s : State) : State :=
  mkState
    (virusIndex s) (loading s) (query s) (results s) (isOpen s)
    (selectedIndex s) (isDeepSearching s) (deepSearchRef s) x (clock s)
    (timers s) (nextTimer s) (inflight s) (nextRequest s) (fetched s)
    (navigated s) (consoleErrors s) (uncaught s).

Definition set_clock (x : nat) (s : State) : State :=
  mkState
    (virusIndex s) (loading s) (query s) (results s) (isOpen s)
    (selectedIndex s) (isDeepSearching s) (deepSearchRef s)
    (effectCleanup s) x (timers s) (nextTimer s) (inflight s)
    (nextRequest s) (fetched s) (navigated s) (consoleErrors s) (uncaught s).

Definition set_timers (x : list Timer) (s : State) : State :=
  mkState
    (virusIndex s) (loading s) (query s) (results s) (isOpen s)
    (selectedIndex s) (isDeepSearching s) (deepSearchRef s)
    (effectCleanup s) (clock s) x (nextTimer s) (inflight s) (nextRequest s)
    (fetched s) (navigated s) (consoleErrors s) (uncaught s).

Definition set_nextTimer (x : nat) (s : State) : State :=
  mkState
    (virusIndex s) (loading s) (query s) (results s) (isOpen s)
    (selectedIndex s) (isDeepSearching s) (deepSearchRef s)
    (effectCleanup s) (clock s) (timers s) x (inflight s) (nextRequest s)
    (fetched s) (navigated s) (consoleErrors s) (uncaught s).

Definition set_inflight (x : list Request) (s : State) : State :=
  mkState
    (virusIndex s) (loading s) (query s) (results s) (isOpen s)
    (selectedIndex s) (isDeepSearching s) (deepSearchRef s)
    (effectCleanup s) (clock s) (timers s) (nextTimer s) x (nextRequest s)
    (fetched s) (navigated s) (consoleErrors s) (uncaught s).

Definition set_nextRequest (x : nat) (s : State) : State :=
  mkState
    (virusIndex s) (loading s) (query s) (results s) (isOpen s)
    (selectedIndex s) (isDeepSearching s) (deepSearchRef s)
    (effectCleanup s) (clock s) (timers s) (nextTimer s) (inflight s) x
    (fetched s) (navigated s) (consoleErrors s) (uncaught s).

Definition set_fetched (x : list string) (s : State) : State :=
  mkState
    (virusIndex s) (loading s) (query s) (results s) (isOpen s)
    (selectedIndex s) (isDeepSearching s) (deepSearchRef s)
    (effectCleanup s) (clock s) (timers s) (nextTimer s) (inflight s)
    (nextRequest s) x (navigated s) (consoleErrors s) (uncaught s).

Definition set_navigated (x : list string) (s : State) : State :=
  mkState
    (virusIndex s) (loading s) (query s) (results s) (isOpen s)
    (selectedIndex s) (isDeepSearching s) (deepSearchRef s)
    (effectCleanup s) (clock s) (timers s) (nextTimer s) (inflight s)
    (nextRequest s) (fetched s) x (consoleErrors s) (uncaught s).

Definition set_consoleErrors (x : list string) (s : State) : State :=
  mkState
    (virusIndex s) (loading s) (query s) (results s) (isOpen s)
    (selectedIndex s) (isDeepSearching s) (deepSearchRef s)
    (effectCleanup s) (clock s) (timers s) (nextTimer s) (inflight s)
    (nextRequest s) (fetched s) (navigated s) x (uncaught s).

Definition set_uncaught (x : list string) (s : State) : State :=
  mkState
    (virusIndex s) (loading s) (query s) (results s) (isOpen s)
    (selectedIndex s) (isDeepSearching s) (deepSearchRef s)
    (effectCleanup s) (clock s) (timers s) (nextTimer s) (inflight s)
    (nextRequest s) (fetched s) (navigated s) (consoleErrors s) x.

(** ** Fuse.js *)

(** One entry of what [Fuse.search] returns with [includeScore]. *)
Record FuseResult (A : Type) : Type := mkFuseResult {
  item : A;
  refIndex : nat;
  score : Q
}.
Arguments mkFuseResult {A} item refIndex score.
Arguments item {A} f.
Arguments refIndex {A} f.
Arguments score {A} f.

Section Fuse.

Context {A : Type}.

(** Fuse's scoring of a record against a pattern under the options the
    component passes ([keys], [threshold: 0.3], [includeScore]):
    [Some sc] when the record passes the threshold with score [sc],
    [None] when it does not.  Fuse.js is a third-party package whose
    source is not part of the repository; the scoring stays a
    parameter. *)
Variable relevance : string -> A -> option Q.

(** Modelled from the spec: the scan of [Fuse.search] over the index,
    which is not in the repository.  Section 4.4: the matcher returns
    the subset of records whose score falls under the threshold; each
    one is kept with its place in the index. *)
Fixpoint fuse_scan (pattern : string) (i : nat) (docs : list A)
  : list (FuseResult A) :=
  match docs with
  | [] => []
  | doc :: rest =>
      match relevance pattern doc with
      | Some sc => mkFuseResult doc i sc :: fuse_scan pattern (S i) rest
      | None => fuse_scan pattern (S i) rest
      end
  end.

(** Modelled from the spec: the ranking of [Fuse.search], which is not
    in the repository.  Section 4.4: ranked ascending by score, best
    match first; when scores are equal, input order is preserved. *)
Fixpoint rank_insert (r : FuseResult A) (ranked : list (FuseResult A))
  : list (FuseResult A) :=
  match ranked with
  | [] => [r]
  | r' :: rest =>
      if Qle_bool (score r) (score r') then r :: ranked
      else r' :: rank_insert r rest
  end.

Definition rank (found : list (FuseResult A)) : list (FuseResult A) :=
  fold_right rank_insert [] found.

(** Modelled from the spec: [new Fuse(docs, options).search(pattern,
    { limit })], which is not in the repository.  Section 4.4: the
    ranked matches, truncated to the maximum result count. *)
Definition fuse_search (docs : list A) (pattern : string) (limit : nat)
  : list (FuseResult A) :=
  take limit (rank (fuse_scan pattern 0 docs)).

End Fuse.

(** ** The [Search] component: behaviour

    [String.length] counts bytes, which is what [.length] counts on
    ASCII input.  Times are in milliseconds. *)

Inductive Key : Type := ArrowDown | ArrowUp | Enter | Escape | OtherKey.

(** How the [fetch] of the deep index ends: [fetch] rejects,
    [response.json()] rejects, or the parsed index arrives. *)
Inductive Outcome : Type :=
| FetchRejected
| JsonRejected
| Index (proteins : list ProteinSearchItem.t).

Inductive Event : Type :=
| LightIndexSettled (loaded : option (list VirusIndex.t))
| Change (value : string)
| Focus
| KeyDown (key : Key)
| Click (position : nat)
| MouseDownOutside
| Elapse (ms : nat)
| DeepIndexSettled (rid : nat) (outcome : Outcome).

(** A block of statements either runs to its end or throws. *)
Inductive Completion : Type :=
| Normal (s : State)
| Throw (s : State) (error : string).

Definition catch (c : Completion) (handler : string -> State -> Completion)
  : Completion :=
  match c with
  | Normal s => Normal s
  | Throw s e => handler e s
  end.

Definition finally (c : Completion) (f : State -> State) : Completion :=
  match c with
  | Normal s => Normal (f s)
  | Throw s e => Throw (f s) e
  end.

(** Both resources are fetched below [BASE_URL], a constant of the
    deployment; the log keeps the part after it. *)
Definition lightIndexPath : string := "/search-viruses.json".
Definition deepIndexPath : string := "/search-index.json".

Definition isDeepIndex (url : string) : bool := String.eqb url deepIndexPath.

(** The number of requests for the deep index that went out. *)
Definition deepFetches (s : State) : nat :=
  length (List.filter isDeepIndex (fetched s)).

Definition isVirus (r : SearchResult.t) : bool :=
  ResultType_eqb (SearchResult.type r) virus.

Definition isProtein (r : SearchResult.t) : bool :=
  ResultType_eqb (SearchResult.type r) protein.

Definition virusResult (r : FuseResult VirusIndex.t) : SearchResult.t :=
  SearchResult.mk virus (VirusIndex.id (item r)) (VirusIndex.name (item r))
    None None.

Definition proteinResult (r : FuseResult ProteinSearchItem.t) : SearchResult.t :=
  SearchResult.mk protein
    (ProteinSearchItem.id (item r)) (ProteinSearchItem.name (item r))
    (Some (ProteinSearchItem.virusId (item r)))
    (Some (ProteinSearchItem.virusName (item r))).

(** [array[i]] for a JavaScript number [i]: [undefined] out of range. *)
Definition at_index {A : Type} (l : list A) (i : Z) : option A :=
  if (i <? 0)%Z then None else l !! Z.to_nat i.

(** [useMemo]: no matcher while [virusIndex] is empty. *)
Definition virusFuse (s : State) : option (list VirusIndex.t) :=
  match virusIndex s with
  | [] => None
  | docs => Some docs
  end.

Definition clearTimeout (h : nat) (s : State) : State :=
  set_timers (List.filter (fun t => negb (handle t =? h)%nat) (timers s)) s.

Definition setTimeout (callbackQuery : string) (delay : nat) (s : State)
  : nat * State :=
  let h := nextTimer s in
  (h, set_nextTimer (S h)
        (set_timers (timers s ++ [mkTimer h (clock s + delay) callbackQuery]) s)).

(** [if (deepSearchRef.current) clearTimeout(deepSearchRef.current)];
    a handle is a number, and [0] would be falsy. *)
Definition clearPending (s : State) : State :=
  match deepSearchRef s with
  | Some h => if (h =? 0)%nat then s else clearTimeout h s
  | None => s
  end.

Definition route (r : SearchResult.t) : string :=
  match SearchResult.type r with
  | virus => "/virus/" ++ SearchResult.id r
  | protein => "/protein/" ++ SearchResult.id r
  end.

(** The merge inside [setResults(prev => ...)]. *)
Definition mergeResults (proteinResults : list (FuseResult ProteinSearchItem.t))
  (prev : list SearchResult.t) : list SearchResult.t :=
  let virusResults := List.filter isVirus prev in
  let newProteinResults := map proteinResult proteinResults in
  take 4 virusResults ++ newProteinResults.

(** [deepSearch] up to its first [await]. *)
Definition deepSearch_start (searchQuery : string) (s : State) : State :=
  if (String.length searchQuery <? 3)%nat then s
  else
    let s1 := set_isDeepSearching true s in
    let s2 := set_fetched (fetched s1 ++ [deepIndexPath]) s1 in
    let s3 := set_inflight (inflight s2 ++ [mkRequest (nextRequest s2) searchQuery]) s2 in
    set_nextRequest (S (nextRequest s3)) s3.

Section Search.

Variable virusRelevance : string -> VirusIndex.t -> option Q.
Variable proteinRelevance : string -> ProteinSearchItem.t -> option Q.

(** The [try] block of [deepSearch], from the settlement of [fetch]. *)
Definition deepSearch_try (searchQuery : string) (outcome : Outcome) (s : State)
  : Completion :=
  match outcome with
  | FetchRejected => Throw s "TypeError: Failed to fetch"
  | JsonRejected => Throw s "SyntaxError"
  | Index proteins =>
      let proteinResults := fuse_search proteinRelevance proteins searchQuery 8 in
      Normal (set_results (mergeResults proteinResults (results s)) s)
  end.

(** [try { ... } catch (error) { console.error(...) } finally { ... }]. *)
Definition deepSearch_resume (searchQuery : string) (outcome : Outcome)
  (s : State) : Completion :=
  finally
    (catch (deepSearch_try searchQuery outcome s)
       (fun error s' =>
          Normal (set_consoleErrors
                    (consoleErrors s' ++ ["Deep search failed: " ++ error]) s')))
    (set_isDeepSearching false).

(** An error nobody catches ends up with the browser. *)
Definition absorb (c : Completion) : State :=
  match c with
  | Normal s => s
  | Throw s e => set_uncaught (uncaught s ++ [e]) s
  end.

(** The effect on [query] and [virusFuse]: the cleanup the previous
    run returned, if it returned one, then the body. *)
Definition queryEffect (s : State) : State :=
  let s0 := if effectCleanup s then clearPending s else s in
  match virusFuse s0 with
  | None => set_effectCleanup false (set_results [] s0)
  | Some docs =>
      if (String.length (query s0) <? 2)%nat
      then set_effectCleanup false (set_results [] s0)
      else
        let s1 := clearPending s0 in
        let virusResults := fuse_search virusRelevance docs (query s1) 5 in
        let s2 := set_selectedIndex 0%Z
                    (set_results (map virusResult virusResults) s1) in
        let s3 :=
          if (3 <=? String.length (query s2))%nat
          then let hs := setTimeout (query s2) 300 s2 in
               set_deepSearchRef (Some (fst hs)) (snd hs)
          else s2 in
        set_effectCleanup true s3
  end.

(** The render after an event that leaves [virusFuse] alone: the
    effect runs again exactly when [query] changed. *)
Definition rerender (before after : State) : State :=
  if String.eqb (query before) (query after) then after
  else queryEffect after.

(** [selectResult(result)]; [None] is [undefined], on which
    [result.type] throws after the two setters were called. *)
Definition selectResult (result : option SearchResult.t) (s : State) : State :=
  let s1 := set_isOpen false (set_query "" s) in
  match result with
  | Some r => set_navigated (navigated s1 ++ [route r]) s1
  | None =>
      set_uncaught
        (uncaught s1 ++ ["TypeError: Cannot read properties of undefined"]) s1
  end.

Definition handleKeyDown (key : Key) (s : State) : State :=
  if negb (isOpen s) || (length (results s) =? 0)%nat then s
  else
    match key with
    | ArrowDown =>
        set_selectedIndex
          (Z.min (selectedIndex s + 1) (Z.of_nat (length (results s)) - 1)) s
    | ArrowUp => set_selectedIndex (Z.max (selectedIndex s - 1) 0) s
    | Enter => selectResult (at_index (results s) (selectedIndex s)) s
    | Escape => set_isOpen false s
    | OtherKey => s
    end.

(** The mount fetch of the light index settles:
    [.then(setVirusIndex).catch(console.error).finally(...)].  The
    matcher is rebuilt, and the query effect runs again, when the
    loaded index is not empty. *)
Definition lightIndexSettled (loaded : option (list VirusIndex.t)) (s : State)
  : State :=
  match loaded with
  | Some docs =>
      let s1 := set_loading false (set_virusIndex docs s) in
      match docs with
      | [] => s1
      | _ => queryEffect s1
      end
  | None =>
      set_loading false
        (set_consoleErrors (consoleErrors s ++ ["light index"]) s)
  end.

Definition isDue (now : nat) (t : Timer) : bool := (due t <=? now)%nat.

(** The timers that are due run their callback [deepSearch(query)]. *)
Definition runTimers (s : State) : State :=
  let ready := List.filter (isDue (clock s)) (timers s) in
  let waiting := List.filter (fun t => negb (isDue (clock s) t)) (timers s) in
  fold_left (fun acc t => deepSearch_start (captured t) acc) ready
    (set_timers waiting s).

Definition elapse (ms : nat) (s : State) : State :=
  runTimers (set_clock (clock s + ms) s).

Definition deepIndexSettled (rid : nat) (outcome : Outcome) (s : State)
  : State :=
  match List.find (fun r => (ticket r =? rid)%nat) (inflight s) with
  | None => s
  | Some r =>
      let s1 := set_inflight
                  (List.filter (fun r' => negb (ticket r' =? rid)%nat) (inflight s)) s in
      absorb (deepSearch_resume (searchQuery r) outcome s1)
  end.

(** One turn of the event loop.  The input is [disabled] while
    [loading], so it receives no input, focus or key event then; a
    result button exists only while the dropdown is rendered. *)
Definition step (e : Event) (s : State) : State :=
  match e with
  | LightIndexSettled loaded =>
      if loading s then lightIndexSettled loaded s else s
  | Change value =>
      if loading s then s
      else rerender s (set_isOpen true (set_query value s))
  | Focus => if loading s then s else set_isOpen true s
  | KeyDown key =>
      if loading s then s else rerender s (handleKeyDown key s)
  | Click position =>
      if isOpen s
      then match results s !! position with
           | Some r => rerender s (selectResult (Some r) s)
           | None => s
           end
      else s
  | MouseDownOutside => set_isOpen false s
  | Elapse ms => elapse ms s
  | DeepIndexSettled rid outcome => deepIndexSettled rid outcome s
  end.

(** The component right after it mounted: the fetch of the light index
    is out, and the first run of the query effect found no matcher. *)
Definition mounted : State :=
  mkState [] true "" [] false 0%Z false None false
    0 [] 1 [] 0 [lightIndexPath] [] [] [].

Definition run (events : list Event) (s : State) : State :=
  fold_left (fun acc e => step e acc) events s.

Definition reachable (s : State) : Prop :=
  exists events, run events mounted = s.

End Search.

(** ** Tiles: the [TileTrack] component and the [ProteinDetail] page

    [start], [end] and [length] are JavaScript numbers that hold
    residue positions; they are integers here. *)

Module TilePosition.
Record t : Type := mk {
  id : string;
  start : Z;
  end_ : Z;
  isShared : bool;
  seq : string
}.
End TilePosition.

Module TileTrack.

Import TilePosition.

(** [[...tiles].sort((a, b) => a.start - b.start)]: by [start], tiles
    of equal [start] in the order they came. *)
Fixpoint insertByStart (tile : t) (sorted : list t) : list t :=
  match sorted with
  | [] => [tile]
  | other :: rest =>
      if (start tile <=? start other)%Z then tile :: sorted
      else other :: insertByStart tile rest
  end.

Definition sortByStart (tiles : list t) : list t :=
  fold_right insertByStart [] tiles.

(** What the inner loop over [rows] does with a tile: it pushes it on
    the first row whose last tile ends before the tile starts, or finds
    no such row; reading [lastTile.end] of an empty row would throw. *)
Inductive Placed : Type :=
| Pushed (rows : list (list t))
| NotPlaced
| Threw.

Fixpoint place (tile : t) (rows : list (list t)) : Placed :=
  match rows with
  | [] => NotPlaced
  | row :: rest =>
      match last row with
      | None => Threw
      | Some lastTile =>
          if (end_ lastTile <? start tile)%Z
          then Pushed ((row ++ [tile])%list :: rest)
          else match place tile rest with
               | Pushed rest' => Pushed (row :: rest')
               | NotPlaced => NotPlaced
               | Threw => Threw
               end
      end
  end.

(** One round of the outer loop; [None] once something threw. *)
Definition addTile (acc : option (list (list t))) (tile : t)
  : option (list (list t)) :=
  match acc with
  | None => None
  | Some rows =>
      match place tile rows with
      | Pushed rows' => Some rows'
      | NotPlaced => Some (rows ++ [[tile]])%list
      | Threw => None
      end
  end.

Definition tileRows (tiles : list t) : option (list (list t)) :=
  fold_left addTile (sortByStart tiles) (Some []).

(** [Math.min(16, Math.floor((height - 20) / Math.max(rows, 1)))]. *)
Definition rowHeight (height : Z) (rows : nat) : Z :=
  Z.min 16 ((height - 20) / Z.max (Z.of_nat rows) 1).

Definition trackHeight (height : Z) (rows : nat) : Z :=
  Z.of_nat rows * rowHeight height rows + 20.

(** Vocabulary for the rows: [a] ends before [b] starts; a tile does
    not end before it starts; a tile lies over position [x]. *)
Definition separated (a b : t) : Prop := (end_ a < start b)%Z.

Definition wellFormed (tile : t) : Prop := (start tile <= end_ tile)%Z.

Definition covers (x : Z) (tile : t) : Prop :=
  (start tile <= x <= end_ tile)%Z.

(** What the outer loop keeps true of the rows built from the tiles
    [done] so far. *)
Definition packed (rows : list (list t)) (done : list t) : Prop :=
  Forall (fun row => row <> []) rows
  /\ concat rows ≡ₚ done
  /\ Forall (Sorted separated) rows
  /\ (Forall wellFormed done ->
      Forall (StronglySorted separated) rows
      /\ exists x clique,
          length clique = length rows
          /\ clique ⊆+ done
          /\ Forall (covers x) clique).

End TileTrack.

Module ProteinDetail.

Import TilePosition.

Inductive Filter : Type := all | shared | unique.

(** [filteredTiles], for a protein that is loaded. *)
Definition filteredTiles (filterShared : Filter) (tiles : list t) : list t :=
  match filterShared with
  | all => tiles
  | shared => List.filter isShared tiles
  | unique => List.filter (fun tile => negb (isShared tile)) tiles
  end.

Definition sharedCount (tiles : list t) : nat :=
  length (List.filter isShared tiles).

Definition uniqueCount (tiles : list t) : nat :=
  length (List.filter (fun tile => negb (isShared tile)) tiles).

(** [rounds] rounds of the inner loop from position [i]: [depth[i]++].
    At a negative [i] the increment lands on a property that is not an
    element of the array, and no element changes. *)
Fixpoint bump (rounds : nat) (i : Z) (depth : list Z) : list Z :=
  match rounds with
  | O => depth
  | S rounds' =>
      bump rounds' (i + 1)
        (if (i <? 0)%Z then depth else alter Z.succ (Z.to_nat i) depth)
  end.

(** [for (let i = tile.start; i < tile.end && i < length; i++)
    depth[i]++]: the loop runs [min(end, length) - start] times, or
    not at all. *)
Definition cover (len : Z) (depth : list Z) (tile : t) : list Z :=
  bump (Z.to_nat (Z.min (end_ tile) len - start tile)) (start tile) depth.

(** [coverageDepth], for a protein that is loaded; [new
    Array(length)] throws a [RangeError] on a negative length
    ([None]). *)
Definition coverageDepth (len : Z) (tiles : list t) : option (list Z) :=
  if (len <? 0)%Z then None
  else Some (fold_left (cover len) tiles (replicate (Z.to_nat len) 0%Z)).

(** [Math.max(...coverageDepth, 1)]. *)
Definition maxDepth (depth : list Z) : Z := fold_right Z.max 1%Z depth.

(** How many tiles cover position [i]. *)
Definition covering (i : Z) (tiles : list t) : Z :=
  Z.of_nat (length (List.filter
                      (fun tile => (start tile <=? i)%Z && (i <? end_ tile)%Z)
                      tiles)).

End ProteinDetail.

(** ** The [useProtein] hook *)

Module UseProtein.

(** The four pieces of state the hook returns.  In [virusId], [None] is
    the initial [null] and [Some None] is [undefined]. *)
Record Hook : Type := mkHook {
  protein : option JSON;
  virusId : option (option JSON);
  loading : bool;
  error : option string
}.

Definition initial : Hook := mkHook None None true None.

Inductive Event : Type :=
| Render (proteinId : option string)
| Settle (result : Settled (option Api.Found)).

(** [!proteinId]: [undefined] and the empty string are falsy. *)
Definition missing (proteinId : option string) : bool :=
  match proteinId with
  | None => true
  | Some text => String.eqb text ""
  end.

(** The effect on [proteinId], up to the call of [findProteinById], and
    the [then]/[catch]/[finally] chain once that call settles. *)
Definition step (e : Event) (h : Hook) : Hook :=
  match e with
  | Render proteinId =>
      if missing proteinId
      then mkHook (protein h) (virusId h) false (error h)
      else mkHook (protein h) (virusId h) true (error h)
  | Settle (Resolved (Some found)) =>
      mkHook (Some (Api.protein found)) (Some (Api.virusId found)) false
        (error h)
  | Settle (Resolved None) =>
      mkHook (protein h) (virusId h) false (error h)
  | Settle (Rejected reason) =>
      mkHook (protein h) (virusId h) false (Some reason)
  end.

Definition run (events : list Event) (h : Hook) : Hook :=
  fold_left (fun acc e => step e acc) events h.

End UseProtein.

(** ** A small deployment for the examples

    Scores by prefix: a record matches when its name starts with the
    pattern, the better the fewer characters are left over. *)

Module Demo.

Definition prefixScore (pattern text : string) : option Q :=
  if String.prefix pattern text
  then Some (Z.of_nat (String.length text - String.length pattern) # 100)
  else None.

Definition virusRelevance (pattern : string) (v : VirusIndex.t) : option Q :=
  prefixScore pattern (VirusIndex.name v).

Definition proteinRelevance (pattern : string) (p : ProteinSearchItem.t)
  : option Q :=
  prefixScore pattern (ProteinSearchItem.name p).

Definition viruses : list VirusIndex.t :=
  [ VirusIndex.mk "v1" "spike virus A";
    VirusIndex.mk "v2" "spike virus";
    VirusIndex.mk "v3" "spikevirus C";
    VirusIndex.mk "v4" "spike virus D";
    VirusIndex.mk "v5" "spiky";
    VirusIndex.mk "v6" "spike 6";
    VirusIndex.mk "v7" "Mumps" ].

Definition proteins : list ProteinSearchItem.t :=
  [ ProteinSearchItem.mk "p1" "spike glycoprotein" "v1" "spike virus A";
    ProteinSearchItem.mk "p2" "nucleoprotein" "v7" "Mumps";
    ProteinSearchItem.mk "p3" "spike S2" "v2" "spike virus" ].

Definition play (events : list Event) : State :=
  run virusRelevance proteinRelevance events mounted.

(** A protein index with one entry, and the protein file of its
    virus. *)
Definition index : JSON :=
  JObject [("YP_1", JObject [("id", JString "YP_1");
                             ("virusId", JString "v1")])].

Definition proteinFile : JSON :=
  JArray [ JObject [("id", JString "YP_0"); ("virusId", JString "v1")];
           JObject [("id", JString "YP_1"); ("virusId", JString "v1")] ].

Definition answer (data : JSON) : option Api.Response :=
  Some (Api.mkResponse true "OK" (Some data)).

(** A lookup of ["YP_1"] among a component that loads the virus list
    and the statistics, and the same lookup once more. *)
Definition firstLookup : list Api.Turn :=
  [ Api.Theirs (Api.Call "viruses.json");
    Api.Mine (answer index);
    Api.Theirs (Api.Call "statistics.json");
    Api.Mine None;
    Api.Mine (answer proteinFile);
    Api.Theirs (Api.Answer 0 (answer (JArray [])));
    Api.Mine None ].


Definition found : Api.Found :=
  Api.mkFound (JObject [("id", JString "YP_1"); ("virusId", JString "v1")])
    (Some (JString "v1")).

(** Three tiles, the first two overlapping. *)
Definition tiles : list TilePosition.t :=
  [ TilePosition.mk "t1" 0 56 false "";
    TilePosition.mk "t2" 28 84 true "";
    TilePosition.mk "t3" 57 100 false "" ].

End Demo.

(** ** Vocabulary of the properties *)

(** [a] is listed before [b]: a lower score, or the same score and an
    earlier place in the index. *)
Definition precedes {A : Type} (a b : FuseResult A) : Prop :=
  (score a < score b)%Q \/ ((score a == score b)%Q /\ refIndex a < refIndex b).

Definition ranked {A : Type} (l : list (FuseResult A)) : Prop :=
  StronglySorted precedes l.

Definition ascending {A : Type} (l : list (FuseResult A)) : Prop :=
  StronglySorted (fun a b => refIndex a < refIndex b) l.

(** The result list is in two tiers: the first [k] light matches of
    the current query, then the deep matches of some pattern over some
    protein index. *)
Definition tiered
  (virusRelevance : string -> VirusIndex.t -> option Q)
  (proteinRelevance : string -> ProteinSearchItem.t -> option Q)
  (s : State) : Prop :=
  exists k proteins pattern,
    results s
    = (map virusResult
         (take k (fuse_search virusRelevance (virusIndex s) (query s) 5))
       ++ map proteinResult (fuse_search proteinRelevance proteins pattern 8))%list.

(** At most one timer is pending, and it is the one [deepSearchRef]
    names and the registered cleanup will clear. *)
Definition one_timer (s : State) : Prop :=
  timers s = [] \/
  exists t, timers s = [t] /\ deepSearchRef s = Some (handle t)
            /\ handle t <> 0 /\ effectCleanup s = true.

(** The pending timer, if any, carries the current query, which is long
    enough for a deep search. *)
Definition debounced (s : State) : Prop :=
  nextTimer s <> 0
  /\ one_timer s
  /\ forall t, In t (timers s) ->
       captured t = query s /\ 3 <= String.length (captured t).

(** Without a matcher, or under a query of fewer than two characters,
    the result list holds no virus entry. *)
Definition no_virus_when_idle (s : State) : Prop :=
  virusIndex s = [] \/ String.length (query s) < 2 ->
  List.filter isVirus (results s) = [].

Definition invariant
  (virusRelevance : string -> VirusIndex.t -> option Q)
  (proteinRelevance : string -> ProteinSearchItem.t -> option Q)
  (s : State) : Prop :=
  debounced s
  /\ tiered virusRelevance proteinRelevance s
  /\ no_virus_when_idle s
  /\ (loading s = true -> virusIndex s = []).

(** The search is blocked: no light index, nothing shown, nothing
    pending, and only the request for the light index ever sent. *)
Definition blocked (s : State) : Prop :=
  virusIndex s = [] /\ loading s = false /\ results s = []
  /\ timers s = [] /\ inflight s = [] /\ fetched s = [lightIndexPath].

(** The result list and the selection stay small. *)
Definition sized (s : State) : Prop :=
  length (results s) <= 12 /\ (0 <= selectedIndex s <= 11)%Z.

(** A pending timer is due in the future, at most 300 ms from now. *)
Definition timer_window (s : State) : Prop :=
  forall t, In t (timers s) -> clock s < due t <= clock s + 300.

(** A file under [proteins/]: the index and the per-virus files, the
    only ones [findProteinById] asks for. *)
Definition isProteinPath (path : string) : bool :=
  String.prefix "proteins/" path.

(** A turn in which no other caller asks for a file under
    [proteins/]. *)
Definition offProteins (t : Api.Turn) : Prop :=
  match t with
  | Api.Theirs (Api.Call path) => isProteinPath path = false
  | _ => True
  end.

(** The other callers of a session keep off the files under
    [proteins/]: none of their calls for such a file is in flight, and
    they make none. *)
Definition apart (ss : Api.Session) (turns : list Api.Turn) : Prop :=
  Forall (fun path => isProteinPath path = false) (Api.awaiting ss)
  /\ Forall offProteins turns.

(** The requests for files under [proteins/]. *)
Definition proteinRequests (w : Api.World) : list string :=
  List.filter isProteinPath (Api.requests w).

(** At most two requests, each for a file [proteins/....json], and of
    two the first for the index. *)
Definition thrifty (extra : list string) : Prop :=
  length extra <= 2
  /\ (forall p, In p extra -> exists text, p = "proteins/" ++ text ++ ".json")
  /\ (length extra = 2 -> extra !! 0 = Some "proteins/index.json").




(** The requests a lookup has added to those of [w0], and the entries
    of [w0] it has kept, by the phase it is in. *)
Definition frugal (w0 : Api.World) (phase : Api.Phase) (w : Api.World) : Prop :=
  (forall p v, isProteinPath p = true -> Api.cache w0 !! p = Some v ->
               truthy v = true -> Api.cache w !! p = Some v)
  /\ exists extra,
      proteinRequests w = (proteinRequests w0 ++ extra)%list
      /\ match phase with
         | Api.AwaitIndex =>
             extra = ["proteins/index.json"]
             /\ Api.cached "proteins/index.json" w0 = None
         | Api.HaveIndex _ => extra = [] \/ extra = ["proteins/index.json"]
         | Api.AwaitProteins _ text =>
             (extra = ["proteins/" ++ text ++ ".json"]
              \/ extra = ["proteins/index.json"; "proteins/" ++ text ++ ".json"])
             /\ Api.cached ("proteins/" ++ text ++ ".json") w0 = None
         | _ => thrifty extra
         end.

(** While the light index is loading the component is as it mounted,
    but for the clock. *)
Definition dormant (s : State) : Prop :=
  loading s = true -> s = set_clock (clock s) mounted.

(** ** Properties of [fetchJson] *)

Lemma falsy_values (v : JSON) :
  truthy v = false <->
  v = JNull \/ v = JBool false \/ (exists q, v = JNumber q /\ (q == 0)%Q)
  \/ v = JString "".
Proof.
  split.
  - destruct v as [|b|q|s| |]; simpl; intros H; try discriminate.
    + now left.
    + right; left. now destruct b.
    + right; right; left. exists q. split; [reflexivity|].
      apply negb_false_iff, Z.eqb_eq in H.
      unfold Qeq. simpl. rewrite H. reflexivity.
    + right; right; right. apply negb_false_iff, String.eqb_eq in H.
      now subst.
  - intros [-> | [-> | [(q & -> & Hq) | ->]]]; simpl; try reflexivity.
    apply negb_false_iff, Z.eqb_eq.
    unfold Qeq in Hq. simpl in Hq. lia.
Qed.

(** [fetchJson] taken alone, written out. *)
Lemma fetchJson_alone path reply w :
  Api.fetchJson path reply w =
  match Api.cached path w with
  | Some v => (w, Resolved v)
  | None =>
      let w1 := Api.mkWorld (Api.cache w) (Api.requests w ++ [path]) in
      match reply with
      | None => (w1, Rejected "TypeError: Failed to fetch")
      | Some response =>
          if negb (Api.ok response)
          then (w1, Rejected ("Failed to fetch " ++ path ++ ": "
                              ++ Api.statusText response))
          else match Api.body response with
               | None => (w1, Rejected "SyntaxError")
               | Some data =>
                   (Api.mkWorld (<[path := data]> (Api.cache w1))
                      (Api.requests w1), Resolved data)
               end
      end
  end.
Proof.
  unfold Api.fetchJson, Api.fetchJson_begin, Api.fetchJson_resume.
  destruct (Api.cached path w); reflexivity.
Qed.

Ltac unfold_fetchJson := rewrite ?fetchJson_alone.

Lemma fetchJson_resolved_cached path reply w w1 v :
  Api.fetchJson path reply w = (w1, Resolved v) ->
  Api.cache w1 !! path = Some v.
Proof.
  unfold_fetchJson; unfold Api.cached.
  destruct (Api.cache w !! path) as [c|] eqn:Hc.
  - destruct (truthy c) eqn:Ht.
    + intros [= <- <-]. exact Hc.
    + destruct reply as [r|]; [|discriminate].
      destruct (negb (Api.ok r)); [discriminate|].
      destruct (Api.body r); [|discriminate].
      intros [= <- <-]. simpl. apply lookup_insert_eq.
  - destruct reply as [r|]; [|discriminate].
    destruct (negb (Api.ok r)); [discriminate|].
    destruct (Api.body r); [|discriminate].
    intros [= <- <-]. simpl. apply lookup_insert_eq.
Qed.

(** C10: a repeated [fetchJson] call is served from the cache only when
    the value fetched before is truthy; after a successful fetch of a
    falsy value ([null], [false], [0], the empty string) the next call
    for the same path sends the request again. *)
Theorem fetchJson_cache_hit_iff_truthy path reply1 w w1 v :
  Api.fetchJson path reply1 w = (w1, Resolved v) ->
  (truthy v = true ->
   forall reply2, Api.fetchJson path reply2 w1 = (w1, Resolved v))
  /\ (truthy v = false ->
      forall reply2,
        Api.requests (fst (Api.fetchJson path reply2 w1))
        = (Api.requests w1 ++ [path])%list)
  /\ (truthy v = false <->
      v = JNull \/ v = JBool false
      \/ (exists q, v = JNumber q /\ (q == 0)%Q) \/ v = JString "").
Proof.
  intros H. apply fetchJson_resolved_cached in H.
  split; [|split].
  - intros Ht reply2. unfold_fetchJson; unfold Api.cached.
    rewrite H, Ht. reflexivity.
  - intros Ht reply2. unfold_fetchJson; unfold Api.cached.
    rewrite H, Ht.
    destruct reply2 as [r|]; [|reflexivity].
    destruct (negb (Api.ok r)); [reflexivity|].
    destruct (Api.body r); reflexivity.
  - apply falsy_values.
Qed.


(** ** Properties of the [Search] component *)

Arguments fuse_search : simpl never.
#[local] Arguments Nat.leb : simpl never.
#[local] Arguments Nat.ltb : simpl never.
#[local] Arguments String.length : simpl never.

Ltac open_state s :=
  destruct s as [vi ld qu rs op si ds dr ec ck tm nt inf nr ft nv ce uc];
  simpl in *.

Ltac unfold_queryEffect := unfold queryEffect.
Ltac unfold_rerender := unfold rerender.
Ltac unfold_deepIndexSettled := unfold deepIndexSettled.
Ltac unfold_lightIndexSettled := unfold lightIndexSettled.
Ltac unfold_run := unfold run.
Ltac unfold_invariant := unfold invariant.

(** *** Ranking *)

Section Ranking.

Context {A : Type}.
Variable relevance : string -> A -> option Q.

Lemma fuse_scan_from pattern docs : forall i r,
  In r (fuse_scan relevance pattern i docs) -> i <= refIndex r.
Proof.
  induction docs as [|doc rest IH]; intros i r; simpl; [tauto|].
  destruct (relevance pattern doc) as [sc|].
  - intros [<- | Hin]; simpl; [lia|]. apply IH in Hin. lia.
  - intros Hin. apply IH in Hin. lia.
Qed.

Lemma fuse_scan_ascending pattern docs : forall i,
  ascending (fuse_scan relevance pattern i docs).
Proof.
  induction docs as [|doc rest IH]; intros i; simpl; [constructor|].
  destruct (relevance pattern doc) as [sc|]; [|apply IH].
  constructor; [apply IH|].
  apply Forall_forall. intros r Hin%list_elem_of_In%fuse_scan_from.
  simpl. lia.
Qed.

Lemma rank_insert_In (r x : FuseResult A) l :
  In x (rank_insert r l) <-> x = r \/ In x l.
Proof.
  induction l as [|r' rest IH]; simpl.
  - intuition.
  - destruct (Qle_bool (score r) (score r')); simpl; rewrite ?IH; intuition.
Qed.

Lemma rank_In (x : FuseResult A) l : In x (rank l) <-> In x l.
Proof.
  induction l as [|a l IH]; simpl; [tauto|].
  rewrite rank_insert_In, IH. intuition.
Qed.

Lemma rank_insert_ranked (r : FuseResult A) l :
  ranked l ->
  (forall x, In x l -> refIndex r < refIndex x) ->
  ranked (rank_insert r l).
Proof.
  induction 1 as [|r' rest Hrest IH Hall]; intros Hidx; simpl.
  - repeat constructor.
  - destruct (Qle_bool (score r) (score r')) eqn:Hle.
    + apply Qle_bool_iff in Hle.
      assert (Hscore : forall x, In x (r' :: rest) -> (score r <= score x)%Q).
      { intros x [<- | Hin]; [exact Hle|].
        rewrite Forall_forall in Hall.
        destruct (Hall x (proj2 (list_elem_of_In _ _) Hin)) as [Hlt | [Heq _]].
        - apply Qlt_le_weak. eapply Qle_lt_trans; eauto.
        - rewrite <- Heq. exact Hle. }
      constructor; [constructor; assumption|].
      apply Forall_forall. intros x Hin%list_elem_of_In.
      destruct (Qlt_le_dec (score r) (score x)) as [Hlt | Hge].
      * left. exact Hlt.
      * right. split; [apply Qle_antisym; auto | auto].
    + assert (Hgt : (score r' < score r)%Q).
      { apply Qnot_le_lt. intros Hc. apply Qle_bool_iff in Hc. congruence. }
      constructor.
      * apply IH. intros x Hin. apply Hidx. now right.
      * apply Forall_forall. intros x Hin%list_elem_of_In%rank_insert_In.
        destruct Hin as [-> | Hin]; [now left|].
        rewrite Forall_forall in Hall. apply Hall, list_elem_of_In, Hin.
Qed.

Lemma rank_ranked (l : list (FuseResult A)) : ascending l -> ranked (rank l).
Proof.
  induction 1 as [|a l Hl IH Hall]; simpl; [constructor|].
  apply rank_insert_ranked; [exact IH|].
  intros x Hin. apply (proj1 (rank_In x l)) in Hin.
  rewrite Forall_forall in Hall. apply Hall, list_elem_of_In, Hin.
Qed.

Lemma ranked_take (l : list (FuseResult A)) n : ranked l -> ranked (take n l).
Proof.
  intros H. revert n. induction H as [|a l Hl IH Hall]; intros [|n]; simpl;
    try constructor; [apply IH|].
  apply Forall_forall. intros x Hin.
  rewrite Forall_forall in Hall. apply Hall.
  apply elem_of_take in Hin as (i & Hi & _).
  eapply list_elem_of_lookup_2, Hi.
Qed.

Lemma fuse_search_ranked docs pattern limit :
  ranked (fuse_search relevance docs pattern limit).
Proof. apply ranked_take, rank_ranked, fuse_scan_ascending. Qed.

Lemma fuse_search_length docs pattern limit :
  length (fuse_search relevance docs pattern limit) <= limit.
Proof. unfold fuse_search. rewrite length_take. lia. Qed.

Lemma fuse_search_nil pattern limit :
  fuse_search relevance [] pattern limit = [].
Proof. unfold fuse_search. simpl. apply take_nil. Qed.

Lemma fuse_scan_sound pattern docs : forall i r,
  In r (fuse_scan relevance pattern i docs) ->
  exists j, refIndex r = i + j /\ docs !! j = Some (item r)
            /\ relevance pattern (item r) = Some (score r).
Proof.
  induction docs as [|doc rest IH]; intros i r; simpl; [tauto|].
  destruct (relevance pattern doc) as [sc|] eqn:Hrel.
  - intros [<- | Hin]; simpl.
    + exists 0. repeat split; [lia | exact Hrel].
    + destruct (IH _ _ Hin) as (j & Hj & Hdoc & Hsc).
      exists (S j). repeat split; [lia | exact Hdoc | exact Hsc].
  - intros Hin. destruct (IH _ _ Hin) as (j & Hj & Hdoc & Hsc).
    exists (S j). repeat split; [lia | exact Hdoc | exact Hsc].
Qed.

(** Every entry returned is a record of the index at the place it
    names, with the score the matcher gives it for the pattern. *)
Lemma fuse_search_sound docs pattern limit r :
  In r (fuse_search relevance docs pattern limit) ->
  docs !! refIndex r = Some (item r)
  /\ relevance pattern (item r) = Some (score r).
Proof.
  unfold fuse_search. intros Hin%list_elem_of_In.
  apply elem_of_take in Hin as (i & Hi & _).
  apply list_elem_of_lookup_2, list_elem_of_In in Hi.
  apply (proj1 (rank_In _ _)) in Hi.
  destruct (fuse_scan_sound _ _ _ _ Hi) as (j & Hj & Hdoc & Hsc).
  simpl in Hj. subst j. auto.
Qed.

End Ranking.


Section Properties.

Variable virusRelevance : string -> VirusIndex.t -> option Q.
Variable proteinRelevance : string -> ProteinSearchItem.t -> option Q.

Local Abbreviation step := (step virusRelevance proteinRelevance).
Local Abbreviation run := (run virusRelevance proteinRelevance).
Local Abbreviation reachable := (reachable virusRelevance proteinRelevance).
Local Abbreviation queryEffect := (queryEffect virusRelevance).
Local Abbreviation rerender := (rerender virusRelevance).
Local Abbreviation lightIndexSettled := (lightIndexSettled virusRelevance).
Local Abbreviation deepSearch_try := (deepSearch_try proteinRelevance).
Local Abbreviation deepSearch_resume := (deepSearch_resume proteinRelevance).
Local Abbreviation deepIndexSettled := (deepIndexSettled proteinRelevance).
Local Abbreviation tiered := (tiered virusRelevance proteinRelevance).
Local Abbreviation invariant := (invariant virusRelevance proteinRelevance).

(** *** Failure of the deep fetch *)

(** C8, as the code has it: when the fetch of the deep index fails,
    [deepSearch] does not throw: it completes normally, the result list
    (so its virus entries, and its protein entries) is what it was, the
    failure is logged, and [isDeepSearching] is [false].  No protein
    entry is added and none is removed: the deep tier is empty
    afterwards exactly when it was empty before. *)
Theorem failed_deep_search_is_contained (s : State) (rid : nat)
  (r : Request) (outcome : Outcome) :
  outcome = FetchRejected \/ outcome = JsonRejected ->
  List.find (fun r' => (ticket r' =? rid)%nat) (inflight s) = Some r ->
  let s' := step (DeepIndexSettled rid outcome) s in
  (forall s0, exists s1,
      deepSearch_resume (searchQuery r) outcome s0 = Normal s1
      /\ results s1 = results s0 /\ isDeepSearching s1 = false)
  /\ results s' = results s
  /\ List.filter isVirus (results s') = List.filter isVirus (results s)
  /\ List.filter isProtein (results s') = List.filter isProtein (results s)
  /\ isDeepSearching s' = false
  /\ uncaught s' = uncaught s
  /\ length (consoleErrors s') = S (length (consoleErrors s))
  /\ (List.filter isProtein (results s') = []
      <-> List.filter isProtein (results s) = []).
Proof.
  intros Hfail Hfind s'.
  split.
  - intros s0. destruct Hfail as [-> | ->]; eexists; simpl;
      (split; [reflexivity | split; reflexivity]).
  - subst s'. simpl. unfold_deepIndexSettled. rewrite Hfind.
    destruct Hfail as [-> | ->]; simpl;
      rewrite length_app; simpl;
      (split; [reflexivity | split; [reflexivity | split; [reflexivity|]]]);
      (split; [reflexivity | split; [reflexivity | split; [lia|]]]);
      reflexivity.
Qed.

(** *** What the operations leave alone *)

Lemma queryEffect_frame (s : State) :
  let s' := queryEffect s in
  virusIndex s' = virusIndex s /\ loading s' = loading s
  /\ query s' = query s /\ isOpen s' = isOpen s
  /\ clock s' = clock s /\ inflight s' = inflight s
  /\ nextRequest s' = nextRequest s /\ fetched s' = fetched s
  /\ uncaught s' = uncaught s.
Proof.
  unfold_queryEffect; unfold clearPending, clearTimeout, setTimeout, virusFuse.
  open_state s.
  repeat (case_match; simpl in *; subst); repeat split.
Qed.

Lemma deepSearch_start_frame (q : string) (s : State) :
  let s' := deepSearch_start q s in
  virusIndex s' = virusIndex s /\ loading s' = loading s
  /\ query s' = query s /\ results s' = results s
  /\ selectedIndex s' = selectedIndex s /\ deepSearchRef s' = deepSearchRef s
  /\ effectCleanup s' = effectCleanup s /\ clock s' = clock s
  /\ timers s' = timers s /\ nextTimer s' = nextTimer s.
Proof.
  unfold deepSearch_start. open_state s.
  destruct (String.length q <? 3)%nat; simpl; repeat split.
Qed.

Lemma runTimers_frame (s : State) :
  let s' := runTimers s in
  virusIndex s' = virusIndex s /\ loading s' = loading s
  /\ query s' = query s /\ results s' = results s
  /\ selectedIndex s' = selectedIndex s /\ deepSearchRef s' = deepSearchRef s
  /\ effectCleanup s' = effectCleanup s /\ clock s' = clock s
  /\ nextTimer s' = nextTimer s
  /\ timers s' = List.filter (fun t => negb (isDue (clock s) t)) (timers s).
Proof.
  unfold runTimers.
  generalize (List.filter (isDue (clock s)) (timers s)) as ready.
  generalize (List.filter (fun t => negb (isDue (clock s) t)) (timers s))
    as waiting.
  intros waiting ready.
  assert (H : forall s0,
             let s' := fold_left (fun acc t => deepSearch_start (captured t) acc)
                         ready s0 in
             virusIndex s' = virusIndex s0 /\ loading s' = loading s0
             /\ query s' = query s0 /\ results s' = results s0
             /\ selectedIndex s' = selectedIndex s0
             /\ deepSearchRef s' = deepSearchRef s0
             /\ effectCleanup s' = effectCleanup s0 /\ clock s' = clock s0
             /\ nextTimer s' = nextTimer s0 /\ timers s' = timers s0).
  { induction ready as [|t ready IH]; intros s0; simpl; [repeat split|].
    specialize (IH (deepSearch_start (captured t) s0)). simpl in IH.
    pose proof (deepSearch_start_frame (captured t) s0) as F. simpl in F.
    intuition congruence. }
  specialize (H (set_timers waiting s)). simpl in H.
  open_state s. exact H.
Qed.

(** *** The two tiers *)

Lemma filter_isVirus_proteins (P : list (FuseResult ProteinSearchItem.t)) :
  List.filter isVirus (map proteinResult P) = [].
Proof. induction P as [|p P IH]; simpl; [reflexivity | exact IH]. Qed.

Lemma filter_isVirus_tiers (V : list (FuseResult VirusIndex.t))
  (P : list (FuseResult ProteinSearchItem.t)) :
  List.filter isVirus (map virusResult V ++ map proteinResult P)
  = map virusResult V.
Proof.
  induction V as [|v V IH]; simpl; [apply filter_isVirus_proteins|].
  now rewrite IH.
Qed.

Lemma tiered_empty (s : State) : results s = [] -> tiered s.
Proof.
  intros H. exists 0, [], "". rewrite H, take_0, fuse_search_nil. reflexivity.
Qed.

Lemma tiered_light (s : State) :
  results s
  = map virusResult (fuse_search virusRelevance (virusIndex s) (query s) 5) ->
  tiered s.
Proof.
  intros H. exists 5, [], "".
  rewrite H, fuse_search_nil, take_ge by apply fuse_search_length.
  simpl. now rewrite app_nil_r.
Qed.

Lemma tiered_merge (s s' : State) (proteins : list ProteinSearchItem.t)
  (q : string) :
  tiered s ->
  virusIndex s' = virusIndex s -> query s' = query s ->
  results s'
  = mergeResults (fuse_search proteinRelevance proteins q 8) (results s) ->
  tiered s'.
Proof.
  intros (k & P0 & q0 & Hrs) Hvi Hq H. unfold mergeResults in H.
  rewrite Hrs, filter_isVirus_tiers in H.
  exists (min 4 k), proteins, q.
  rewrite H, Hvi, Hq, <- fmap_take, take_take. reflexivity.
Qed.

Lemma tiered_same (s s' : State) :
  tiered s ->
  virusIndex s' = virusIndex s -> query s' = query s ->
  results s' = results s ->
  tiered s'.
Proof.
  intros (k & P & q & Hrs) Hvi Hq H. exists k, P, q.
  now rewrite H, Hvi, Hq.
Qed.

Lemma merge_without_virus (P : list (FuseResult ProteinSearchItem.t))
  (prev : list SearchResult.t) :
  List.filter isVirus prev = [] ->
  mergeResults P prev = map proteinResult P.
Proof. intros H. unfold mergeResults. now rewrite H. Qed.

(** *** The query effect *)

Lemma queryEffect_idle (s : State) :
  virusIndex s = [] \/ String.length (query s) < 2 ->
  results (queryEffect s) = [] /\ effectCleanup (queryEffect s) = false.
Proof.
  unfold_queryEffect; unfold clearPending, clearTimeout, virusFuse.
  open_state s. intros [-> | Hlen].
  - repeat (case_match; simpl in *; subst); split; congruence.
  - assert (Hb : (String.length qu <? 2)%nat = true) by (apply Nat.ltb_lt; lia).
    repeat (case_match; simpl in *; subst); try rewrite Hb in *;
      split; congruence.
Qed.

Lemma queryEffect_light (s : State) :
  virusIndex s <> [] -> 2 <= String.length (query s) ->
  results (queryEffect s)
  = map virusResult (fuse_search virusRelevance (virusIndex s) (query s) 5)
  /\ selectedIndex (queryEffect s) = 0%Z.
Proof.
  unfold_queryEffect; unfold clearPending, clearTimeout, setTimeout, virusFuse.
  open_state s. intros Hvi Hlen.
  assert (Hb : (String.length qu <? 2)%nat = false) by (apply Nat.ltb_ge; lia).
  repeat (case_match; simpl in *; subst); try rewrite Hb in *;
    try congruence; split; congruence.
Qed.

Lemma queryEffect_tiered (s : State) : tiered (queryEffect s).
Proof.
  destruct (queryEffect_frame s) as (Fvi & _ & Fq & _).
  destruct (list_eq_nil_dec (virusIndex s)) as [Hvi | Hvi].
  - apply tiered_empty, queryEffect_idle. now left.
  - destruct (le_lt_dec 2 (String.length (query s))) as [Hlen | Hlen].
    + apply tiered_light. rewrite Fvi, Fq.
      apply (queryEffect_light s Hvi Hlen).
    + apply tiered_empty, queryEffect_idle. now right.
Qed.

Lemma queryEffect_no_virus_when_idle (s : State) :
  no_virus_when_idle (queryEffect s).
Proof.
  intros H. destruct (queryEffect_frame s) as (Hvi & _ & Hq & _).
  rewrite Hvi, Hq in H.
  destruct (queryEffect_idle s H) as [-> _]. reflexivity.
Qed.

Lemma cleanup_clears (s : State) :
  one_timer s ->
  (if effectCleanup s then clearPending s else s) = set_timers [] s.
Proof.
  unfold one_timer, clearPending, clearTimeout. open_state s.
  intros [-> | (t & -> & -> & Hh & ->)].
  - destruct ec, dr as [h|]; try destruct (h =? 0)%nat; reflexivity.
  - apply Nat.eqb_neq in Hh. rewrite Hh. simpl. now rewrite Nat.eqb_refl.
Qed.

Lemma clearPending_idle (s : State) :
  clearPending (set_timers [] s) = set_timers [] s.
Proof.
  unfold clearPending, clearTimeout. open_state s.
  destruct dr as [h|]; try destruct (h =? 0)%nat; reflexivity.
Qed.

Lemma queryEffect_timers (s : State) :
  nextTimer s <> 0 -> one_timer s ->
  timers (queryEffect s)
  = match virusIndex s with
    | [] => []
    | _ => if (3 <=? String.length (query s))%nat
           then [mkTimer (nextTimer s) (clock s + 300) (query s)]
           else []
    end
  /\ debounced (queryEffect s).
Proof.
  intros Hnt Hone. unfold_queryEffect.
  rewrite (cleanup_clears s Hone), clearPending_idle.
  unfold virusFuse, setTimeout, debounced, one_timer.
  destruct (3 <=? String.length (query s))%nat eqn:H3.
  - assert (H2 : (String.length (query s) <? 2)%nat = false).
    { apply Nat.leb_le in H3. apply Nat.ltb_ge. lia. }
    apply Nat.leb_le in H3.
    pose proof (proj2 (Nat.leb_le _ _) H3) as H3'.
    open_state s. rewrite H2. destruct vi as [|v vs]; simpl.
    + split; [reflexivity | split; [assumption | split; [now left | intros ? []]]].
    + rewrite H3'. simpl.
      split; [reflexivity | split; [lia | split]].
      * right. eexists. repeat split; simpl; lia.
      * intros t [<- | []]. simpl. split; [reflexivity | lia].
  - open_state s. destruct vi as [|v vs]; simpl.
    + split; [reflexivity | split; [assumption | split; [now left | intros ? []]]].
    + destruct (String.length qu <? 2)%nat; simpl; try rewrite H3; simpl;
        (split; [reflexivity | split; [assumption | split; [now left | intros ? []]]]).
Qed.

(** *** The invariant holds in every reachable state *)

Lemma invariant_transfer (s s' : State) :
  invariant s ->
  virusIndex s' = virusIndex s -> query s' = query s ->
  deepSearchRef s' = deepSearchRef s -> effectCleanup s' = effectCleanup s ->
  timers s' = timers s \/ timers s' = [] ->
  nextTimer s' = nextTimer s ->
  (loading s' = true -> loading s = true) ->
  tiered s' ->
  (List.filter isVirus (results s) = [] ->
   List.filter isVirus (results s') = []) ->
  invariant s'.
Proof.
  unfold_invariant; unfold debounced, one_timer, no_virus_when_idle.
  intros ((Hnt & Hone & Hcap) & _ & Hidle & Hload) Hvi Hq Hr Hc Ht Hn Hl Htier Hres.
  rewrite Hvi, Hq, Hr, Hc, Hn.
  split; [split; [exact Hnt | split] | split; [exact Htier | split]].
  - destruct Ht as [-> | ->]; [exact Hone | now left].
  - intros t Hin. apply Hcap.
    destruct Ht as [Ht | Ht]; rewrite Ht in Hin; [exact Hin | destruct Hin].
  - intros H. apply Hres, Hidle, H.
  - intros H. apply Hload, Hl, H.
Qed.

Lemma invariant_ext (s s' : State) :
  invariant s ->
  virusIndex s' = virusIndex s -> query s' = query s ->
  results s' = results s ->
  deepSearchRef s' = deepSearchRef s -> effectCleanup s' = effectCleanup s ->
  timers s' = timers s -> nextTimer s' = nextTimer s ->
  (loading s' = true -> loading s = true) ->
  invariant s'.
Proof.
  intros Hinv Hvi Hq Hrs Hr Hc Ht Hn Hl.
  apply (invariant_transfer s s'); auto.
  - apply (tiered_same s); auto. apply Hinv.
  - now rewrite Hrs.
Qed.

Lemma queryEffect_invariant (s : State) :
  nextTimer s <> 0 -> one_timer s ->
  (loading s = true -> virusIndex s = []) ->
  invariant (queryEffect s).
Proof.
  intros Hnt Hone Hload.
  destruct (queryEffect_timers s Hnt Hone) as [_ Hd].
  split; [exact Hd|].
  split; [apply queryEffect_tiered|].
  split; [apply queryEffect_no_virus_when_idle|].
  destruct (queryEffect_frame s) as (-> & -> & _). exact Hload.
Qed.

Lemma rerender_invariant (before after : State) :
  invariant before ->
  virusIndex after = virusIndex before -> results after = results before ->
  deepSearchRef after = deepSearchRef before ->
  effectCleanup after = effectCleanup before ->
  timers after = timers before -> nextTimer after = nextTimer before ->
  loading after = loading before ->
  invariant (rerender before after).
Proof.
  intros Hinv Hvi Hrs Hr Hc Ht Hn Hl. unfold_rerender.
  destruct (String.eqb (query before) (query after)) eqn:E.
  - apply String.eqb_eq in E. apply (invariant_ext before); auto; congruence.
  - destruct Hinv as ((Hnt & Hone & _) & _ & _ & Hload).
    apply queryEffect_invariant.
    + congruence.
    + unfold one_timer in *. rewrite Ht, Hr, Hc. exact Hone.
    + rewrite Hl, Hvi. exact Hload.
Qed.

Lemma handleKeyDown_frame (key : Key) (s : State) :
  let s' := handleKeyDown key s in
  virusIndex s' = virusIndex s /\ results s' = results s
  /\ deepSearchRef s' = deepSearchRef s /\ effectCleanup s' = effectCleanup s
  /\ timers s' = timers s /\ nextTimer s' = nextTimer s
  /\ loading s' = loading s /\ inflight s' = inflight s
  /\ fetched s' = fetched s /\ clock s' = clock s.
Proof.
  unfold handleKeyDown, selectResult. open_state s.
  destruct (negb op || (length rs =? 0)%nat); simpl; [repeat split|].
  destruct key; simpl; try (repeat split; fail).
  destruct (at_index rs si); simpl; repeat split.
Qed.

Lemma mounted_invariant : invariant mounted.
Proof.
  split; [|split; [now apply tiered_empty
                  | split; [intros _; reflexivity | intros _; reflexivity]]].
  split; [simpl; lia | split; [now left | intros t []]].
Qed.

Lemma elapse_invariant (ms : nat) (s : State) :
  invariant s -> invariant (elapse ms s).
Proof.
  intros Hinv. unfold elapse.
  pose proof (runTimers_frame (set_clock (clock s + ms) s)) as F. simpl in F.
  destruct F as (Fvi & Fl & Fq & Frs & _ & Fr & Fc & _ & Fn & Ft).
  apply (invariant_transfer s).
  - exact Hinv.
  - rewrite Fvi. now destruct s.
  - rewrite Fq. now destruct s.
  - rewrite Fr. now destruct s.
  - rewrite Fc. now destruct s.
  - rewrite Ft.
    replace (timers (set_clock (clock s + ms) s)) with (timers s)
      by (now destruct s).
    destruct Hinv as ((_ & [-> | (t & -> & _)] & _) & _); [now right|].
    simpl. destruct (negb _); [now left | now right].
  - rewrite Fn. now destruct s.
  - rewrite Fl. now destruct s.
  - apply (tiered_same s); [apply Hinv | | |].
    + rewrite Fvi. now destruct s.
    + rewrite Fq. now destruct s.
    + rewrite Frs. now destruct s.
  - rewrite Frs. now destruct s.
Qed.

Lemma deepIndexSettled_invariant (rid : nat) (outcome : Outcome) (s : State) :
  invariant s -> invariant (deepIndexSettled rid outcome s).
Proof.
  intros Hinv. unfold_deepIndexSettled.
  destruct (List.find _ (inflight s)) as [r|]; [|exact Hinv].
  destruct outcome as [| |proteins]; simpl.
  - apply (invariant_ext s); auto; now destruct s.
  - apply (invariant_ext s); auto; now destruct s.
  - apply (invariant_transfer s); try (now destruct s).
    + left. now destruct s.
    + apply (tiered_merge s _ proteins (searchQuery r));
        [apply Hinv | now destruct s ..].
    + intros H. destruct s; simpl in *.
      rewrite (merge_without_virus _ _ H). apply filter_isVirus_proteins.
Qed.

Lemma lightIndexSettled_invariant (loaded : option (list VirusIndex.t))
  (s : State) :
  invariant s -> loading s = true -> invariant (lightIndexSettled loaded s).
Proof.
  intros Hinv Hl. unfold_lightIndexSettled.
  pose proof Hinv as ((Hnt & Hone & _) & _ & _ & Hload).
  destruct loaded as [[|v vs]|].
  - apply (invariant_ext s); try (now destruct s); auto.
    rewrite (Hload Hl). now destruct s.
  - apply queryEffect_invariant; [now destruct s | now destruct s |].
    destruct s; simpl. discriminate.
  - apply (invariant_ext s); try (now destruct s); auto.
Qed.

Lemma step_invariant (e : Event) (s : State) :
  invariant s -> invariant (step e s).
Proof.
  intros Hinv. destruct e as [loaded|value| |key|position| |ms|rid outcome]; simpl.
  - destruct (loading s) eqn:Hl; [|exact Hinv].
    now apply lightIndexSettled_invariant.
  - destruct (loading s); [exact Hinv|].
    apply rerender_invariant; auto; now destruct s.
  - destruct (loading s); [exact Hinv|].
    apply (invariant_ext s); auto; now destruct s.
  - destruct (loading s); [exact Hinv|].
    pose proof (handleKeyDown_frame key s) as F. simpl in F.
    apply rerender_invariant; auto; apply F.
  - destruct (isOpen s); [|exact Hinv].
    destruct (results s !! position) as [r|]; [|exact Hinv].
    apply rerender_invariant; auto; now destruct s.
  - apply (invariant_ext s); auto; now destruct s.
  - now apply elapse_invariant.
  - now apply deepIndexSettled_invariant.
Qed.

Lemma run_invariant (events : list Event) (s : State) :
  invariant s -> invariant (run events s).
Proof.
  revert s. induction events as [|e events IH]; intros s Hinv; simpl;
    [exact Hinv|].
  apply IH, step_invariant, Hinv.
Qed.

Lemma reachable_invariant (s : State) : reachable s -> invariant s.
Proof. intros [events <-]. apply run_invariant, mounted_invariant. Qed.

Lemma reachable_step (e : Event) (s : State) :
  reachable s -> reachable (step e s).
Proof.
  intros [events <-]. exists (events ++ [e])%list.
  unfold_run. now rewrite fold_left_app.
Qed.

(** *** Debounce *)

Lemma runTimers_none (s : State) :
  timers s = [] -> runTimers s = s.
Proof. unfold runTimers. open_state s. now intros ->. Qed.

Lemma runTimers_single (s : State) (t : Timer) :
  timers s = [t] ->
  runTimers s
  = if isDue (clock s) t
    then deepSearch_start (captured t) (set_timers [] s)
    else s.
Proof.
  unfold runTimers. open_state s. intros ->. simpl.
  destruct (isDue ck t); reflexivity.
Qed.

Lemma deepFetches_start (q : string) (s : State) :
  3 <= String.length q ->
  deepFetches (deepSearch_start q s) = S (deepFetches s)
  /\ fetched (deepSearch_start q s) = (fetched s ++ [deepIndexPath])%list
  /\ inflight (deepSearch_start q s)
     = (inflight s ++ [mkRequest (nextRequest s) q])%list.
Proof.
  intros Hlen. unfold deepSearch_start, deepFetches.
  assert (Hb : (String.length q <? 3)%nat = false) by (apply Nat.ltb_ge; lia).
  rewrite Hb. open_state s. rewrite List.filter_app, length_app. simpl.
  repeat split. lia.
Qed.

Lemma change_effect (s : State) (q : string) :
  invariant s -> loading s = false -> q <> query s ->
  let s1 := step (Change q) s in
  timers s1
  = match virusIndex s with
    | [] => []
    | _ => if (3 <=? String.length q)%nat
           then [mkTimer (nextTimer s) (clock s + 300) q]
           else []
    end
  /\ fetched s1 = fetched s /\ inflight s1 = inflight s
  /\ nextRequest s1 = nextRequest s /\ clock s1 = clock s
  /\ virusIndex s1 = virusIndex s /\ loading s1 = false /\ query s1 = q
  /\ (virusIndex s = [] \/ String.length q < 2 -> results s1 = []).
Proof.
  intros ((Hnt & Hone & _) & _) Hl Hq. simpl. rewrite Hl.
  unfold_rerender.
  assert (E : String.eqb (query s) (query (set_isOpen true (set_query q s)))
              = false).
  { apply String.eqb_neq. destruct s; simpl in *. congruence. }
  rewrite E. set (s0 := set_isOpen true (set_query q s)).
  assert (Hnt0 : nextTimer s0 <> 0) by (now destruct s).
  assert (Hone0 : one_timer s0) by (now destruct s).
  destruct (queryEffect_timers s0 Hnt0 Hone0) as [Ht _].
  destruct (queryEffect_frame s0) as (Fvi & Fl & Fq & _ & Fck & Finf & Fnr & Fft & _).
  rewrite Ht, Fvi, Fl, Fq, Fck, Finf, Fnr, Fft.
  repeat split; try (now destruct s).
  intros Hidle. apply queryEffect_idle. now destruct s.
Qed.

(** C5, as the code has it: once the light index is loaded and not
    empty, a keystroke that sets a query of three or more characters
    leaves exactly one timer pending, due 300 ms later and carrying that
    query, and sends nothing; nothing is sent before the 300 ms are over;
    when they are over, exactly one deep search goes out, with that
    query; a further keystroke inside the window replaces the pending
    timer by one for the new query (or by none, if that is shorter than
    three characters), so only the last query is searched. *)
Theorem debounce_last_keystroke_wins (s : State) (q : string) :
  reachable s -> loading s = false -> virusIndex s <> [] ->
  3 <= String.length q -> q <> query s ->
  let s1 := step (Change q) s in
  timers s1 = [mkTimer (nextTimer s) (clock s + 300) q]
  /\ fetched s1 = fetched s
  /\ (forall ms, ms < 300 ->
        timers (step (Elapse ms) s1) = timers s1
        /\ fetched (step (Elapse ms) s1) = fetched s)
  /\ (forall ms, 300 <= ms ->
        timers (step (Elapse ms) s1) = []
        /\ fetched (step (Elapse ms) s1) = (fetched s ++ [deepIndexPath])%list
        /\ inflight (step (Elapse ms) s1)
           = (inflight s ++ [mkRequest (nextRequest s) q])%list)
  /\ (forall ms q', ms < 300 -> q' <> q ->
        let s2 := step (Change q') (step (Elapse ms) s1) in
        fetched s2 = fetched s
        /\ timers s2
           = if (3 <=? String.length q')%nat
             then [mkTimer (nextTimer s1) (clock s + ms + 300) q']
             else []).
Proof.
  intros Hreach Hl Hvi Hlen Hq s1.
  pose proof (reachable_invariant s Hreach) as Hinv.
  destruct (change_effect s q Hinv Hl Hq)
    as (Ht & Hft & Hinf & Hnr & Hck & Hvi1 & Hl1 & Hq1 & _).
  fold s1 in Ht, Hft, Hinf, Hnr, Hck, Hvi1, Hl1, Hq1.
  assert (Ht1 : timers s1 = [mkTimer (nextTimer s) (clock s + 300) q]).
  { rewrite Ht. destruct (virusIndex s); [congruence|].
    now rewrite (proj2 (Nat.leb_le _ _) Hlen). }
  assert (Hwait : forall ms, ms < 300 ->
            step (Elapse ms) s1 = set_clock (clock s + ms) s1).
  { intros ms Hms. simpl. unfold elapse. rewrite Hck.
    rewrite (runTimers_single _ (mkTimer (nextTimer s) (clock s + 300) q))
      by (destruct s1; exact Ht1).
    replace (isDue _ _) with false; [reflexivity|].
    symmetry. unfold isDue. destruct s1; simpl. apply Nat.leb_gt. lia. }
  split; [exact Ht1|]. split; [exact Hft|]. split; [|split].
  - intros ms Hms. rewrite (Hwait ms Hms). destruct s1; simpl in *. auto.
  - intros ms Hms. simpl. unfold elapse. rewrite Hck.
    rewrite (runTimers_single _ (mkTimer (nextTimer s) (clock s + 300) q))
      by (destruct s1; exact Ht1).
    replace (isDue _ _) with true
      by (symmetry; unfold isDue; destruct s1; simpl; apply Nat.leb_le; lia).
    simpl.
    pose proof (deepSearch_start_frame q
                  (set_timers [] (set_clock (clock s + ms) s1))) as F.
    simpl in F. destruct F as (_ & _ & _ & _ & _ & _ & _ & _ & Ftm & _).
    destruct (deepFetches_start q
                (set_timers [] (set_clock (clock s + ms) s1)) Hlen)
      as (_ & Ff & Fi).
    rewrite Ftm, Ff, Fi. destruct s1; simpl in *. subst. auto.
  - intros ms q' Hms Hq' s2. subst s2. rewrite (Hwait ms Hms).
    assert (Hinv1 : invariant (set_clock (clock s + ms) s1)).
    { rewrite <- (Hwait ms Hms).
      apply step_invariant, step_invariant, Hinv. }
    destruct (change_effect (set_clock (clock s + ms) s1) q' Hinv1)
      as (Ht2 & Hft2 & _).
    + destruct s1; exact Hl1.
    + destruct s1; simpl in *; congruence.
    + rewrite Hft2, Ht2. split; [destruct s1; exact Hft|].
      replace (virusIndex (set_clock (clock s + ms) s1)) with (virusIndex s)
        by (destruct s1; simpl in *; congruence).
      destruct (virusIndex s); [congruence|].
      destruct s1; reflexivity.
Qed.

(** C7, as the code has it: a keystroke that sets a query of fewer
    than two characters empties [results], leaves no timer pending and
    sends no request, and the passing of time afterwards sends none
    either.  ([results] stays empty until a deep fetch that was sent for
    an earlier query settles.) *)
Theorem short_query_clears_without_fetch (s : State) (q : string) :
  reachable s -> loading s = false ->
  String.length q < 2 -> q <> query s ->
  let s1 := step (Change q) s in
  results s1 = [] /\ timers s1 = [] /\ fetched s1 = fetched s
  /\ forall ms,
       results (step (Elapse ms) s1) = []
       /\ timers (step (Elapse ms) s1) = []
       /\ fetched (step (Elapse ms) s1) = fetched s.
Proof.
  intros Hreach Hl Hlen Hq s1.
  pose proof (reachable_invariant s Hreach) as Hinv.
  destruct (change_effect s q Hinv Hl Hq)
    as (Ht & Hft & _ & _ & _ & _ & _ & _ & Hrs).
  fold s1 in Ht, Hft, Hrs.
  assert (Ht1 : timers s1 = []).
  { rewrite Ht. destruct (virusIndex s); [reflexivity|].
    replace (3 <=? String.length q)%nat with false; [reflexivity|].
    symmetry. apply Nat.leb_gt. lia. }
  assert (Hrs1 : results s1 = []) by (apply Hrs; now right).
  repeat split; auto; simpl; unfold elapse;
    rewrite runTimers_none by (destruct s1; exact Ht1);
    destruct s1; simpl in *; auto.
Qed.

(** *** Deep results that arrive late *)

(** C1, as the code has it: [deepSearch] makes no staleness check.
    When a deep fetch settles with an index while the query is empty,
    the protein matches for the query the fetch was sent for become the
    result list. *)
Theorem late_deep_results_are_applied (s : State) (rid : nat) (r : Request)
  (proteins : list ProteinSearchItem.t) :
  reachable s -> query s = "" ->
  List.find (fun r' => (ticket r' =? rid)%nat) (inflight s) = Some r ->
  results (step (DeepIndexSettled rid (Index proteins)) s)
  = map proteinResult
      (fuse_search proteinRelevance proteins (searchQuery r) 8).
Proof.
  intros Hreach Hq Hfind.
  destruct (reachable_invariant s Hreach) as (_ & _ & Hidle & _).
  assert (Hnone : List.filter isVirus (results s) = []).
  { apply Hidle. right. rewrite Hq. unfold String.length. lia. }
  simpl. unfold_deepIndexSettled. rewrite Hfind.
  destruct s; simpl in *. apply merge_without_virus, Hnone.
Qed.

(** *** Every deep search fetches *)

(** C2, as the code has it: [deepSearch] calls [fetch] itself and
    keeps nothing; every call with a query of three or more characters
    sends one more request for the deep index, and so does every
    debounce timer that fires, whatever was fetched before. *)
Theorem every_deep_search_fetches (s : State) (t : Timer) (ms : nat) :
  reachable s -> timers s = [t] -> due t <= clock s + ms ->
  let s' := step (Elapse ms) s in
  deepFetches s' = S (deepFetches s)
  /\ inflight s' = (inflight s ++ [mkRequest (nextRequest s) (query s)])%list
  /\ (forall s0 q, 3 <= String.length q ->
        deepFetches (deepSearch_start q s0) = S (deepFetches s0)).
Proof.
  intros Hreach Ht Hdue s'.
  destruct (reachable_invariant s Hreach) as ((_ & _ & Hcap) & _).
  destruct (Hcap t) as [Hq Hlen]; [rewrite Ht; now left|].
  split; [|split].
  - subst s'. simpl. unfold elapse.
    rewrite (runTimers_single _ t) by (destruct s; exact Ht).
    replace (isDue _ t) with true
      by (symmetry; unfold isDue; destruct s; simpl; apply Nat.leb_le; exact Hdue).
    destruct (deepFetches_start (captured t)
                (set_timers [] (set_clock (clock s + ms) s)) Hlen) as (-> & _).
    now destruct s.
  - subst s'. simpl. unfold elapse.
    rewrite (runTimers_single _ t) by (destruct s; exact Ht).
    replace (isDue _ t) with true
      by (symmetry; unfold isDue; destruct s; simpl; apply Nat.leb_le; exact Hdue).
    destruct (deepFetches_start (captured t)
                (set_timers [] (set_clock (clock s + ms) s)) Hlen) as (_ & _ & ->).
    rewrite Hq. now destruct s.
  - intros s0 q Hq0. apply (deepFetches_start q s0 Hq0).
Qed.

(** *** Failure of the light index *)

Lemma queryEffect_blocked (s : State) : blocked s -> blocked (queryEffect s).
Proof.
  unfold_queryEffect; unfold blocked, clearPending, clearTimeout, virusFuse.
  open_state s. intros (-> & -> & -> & -> & -> & ->).
  destruct ec, dr as [h|]; try destruct (h =? 0)%nat; simpl; repeat split.
Qed.

Lemma rerender_blocked (before after : State) :
  blocked after -> blocked (rerender before after).
Proof.
  intros H. unfold_rerender.
  destruct (String.eqb _ _); [exact H | apply queryEffect_blocked, H].
Qed.

Lemma step_blocked (e : Event) (s : State) : blocked s -> blocked (step e s).
Proof.
  intros Hb. pose proof Hb as (Hvi & Hl & Hrs & Ht & Hinf & Hft).
  destruct e as [loaded|value| |key|position| |ms|rid outcome]; simpl.
  - now rewrite Hl.
  - rewrite Hl. apply rerender_blocked. now destruct s.
  - rewrite Hl. now destruct s.
  - rewrite Hl. apply rerender_blocked. unfold handleKeyDown.
    rewrite Hrs. simpl. now rewrite orb_true_r.
  - rewrite Hrs. simpl. now destruct (isOpen s).
  - now destruct s.
  - unfold elapse. rewrite runTimers_none; now destruct s.
  - unfold_deepIndexSettled. now rewrite Hinf.
Qed.

(** C4, as the code has it: when the load of the light index fails
    there is no matcher, and the query effect returns before it reaches
    either tier.  From then on, whatever happens, the result list is
    empty, no debounce timer is pending, no deep fetch is in flight and
    none was ever sent. *)
Theorem light_index_failure_blocks_search (events : list Event) :
  let s := run events (step (LightIndexSettled None) mounted) in
  virusIndex s = [] /\ results s = [] /\ timers s = []
  /\ inflight s = [] /\ deepFetches s = 0.
Proof.
  assert (H : forall s0, blocked s0 -> blocked (run events s0)).
  { induction events as [|e events IH]; intros s0 Hb; simpl; [exact Hb|].
    apply IH, step_blocked, Hb. }
  intros s. destruct (H (step (LightIndexSettled None) mounted))
    as (Hvi & _ & Hrs & Ht & Hinf & Hft).
  { repeat split. }
  fold s in Hvi, Hrs, Ht, Hinf, Hft.
  unfold deepFetches. rewrite Hft. repeat split; assumption.
Qed.

(** *** Selecting, closing and reopening *)

Lemma isVirus_not_isProtein (r : SearchResult.t) :
  isVirus r = true -> isProtein r = false.
Proof. unfold isVirus, isProtein. now destruct (SearchResult.type r). Qed.

Lemma filter_isVirus_fixed (l : list SearchResult.t) (n : nat) :
  List.filter isVirus (take n (List.filter isVirus l))
  = take n (List.filter isVirus l)
  /\ List.filter isProtein (take n (List.filter isVirus l)) = [].
Proof.
  revert n. induction l as [|r l IH]; intros n; simpl.
  - now rewrite take_nil.
  - destruct (isVirus r) eqn:Hr; [|apply IH].
    destruct n as [|n]; simpl; [auto|].
    rewrite Hr, (isVirus_not_isProtein r Hr).
    destruct (IH n) as [-> ->]. auto.
Qed.

Lemma filter_isProtein_proteins (P : list (FuseResult ProteinSearchItem.t)) :
  List.filter isProtein (map proteinResult P) = map proteinResult P.
Proof. induction P as [|p P IH]; simpl; [reflexivity | now rewrite IH]. Qed.

Lemma filter_isProtein_viruses (V : list (FuseResult VirusIndex.t)) :
  List.filter isProtein (map virusResult V) = [].
Proof. induction V as [|v V IH]; simpl; [reflexivity | exact IH]. Qed.

(** X6: a deep result replaces the deep tier and never grows the light
    tier.  Merging a second set of protein matches over a merged list
    gives what merging it over the original list gives; after a merge
    at most four virus entries are left, and the protein entries are
    exactly the new matches. *)
Theorem merge_replaces_deep_tier
  (P1 P2 : list (FuseResult ProteinSearchItem.t)) (prev : list SearchResult.t) :
  mergeResults P2 (mergeResults P1 prev) = mergeResults P2 prev
  /\ length (List.filter isVirus (mergeResults P1 prev)) <= 4
  /\ List.filter isVirus (mergeResults P1 prev)
     = take 4 (List.filter isVirus prev)
  /\ List.filter isProtein (mergeResults P1 prev) = map proteinResult P1.
Proof.
  assert (Hv : List.filter isVirus (mergeResults P1 prev)
               = take 4 (List.filter isVirus prev)).
  { unfold mergeResults. rewrite List.filter_app, filter_isVirus_proteins.
    rewrite app_nil_r. apply filter_isVirus_fixed. }
  split; [|split; [|split]].
  - unfold mergeResults at 1 3. fold (mergeResults P1 prev).
    rewrite Hv, take_take. reflexivity.
  - rewrite Hv, length_take. lia.
  - exact Hv.
  - unfold mergeResults. rewrite List.filter_app, filter_isProtein_proteins.
    now rewrite (proj2 (filter_isVirus_fixed prev 4)).
Qed.

(** X7: Enter selects what a click on the highlighted entry selects:
    with the dropdown open and [selectedIndex] inside the list, the two
    events lead to the same state. *)
Theorem enter_is_click_on_selected (s : State) :
  loading s = false -> isOpen s = true ->
  (0 <= selectedIndex s < Z.of_nat (length (results s)))%Z ->
  step (KeyDown Enter) s = step (Click (Z.to_nat (selectedIndex s))) s.
Proof.
  intros Hl Hopen Hsel. simpl. rewrite Hl, Hopen.
  unfold handleKeyDown, at_index. rewrite Hopen.
  assert (Hlen : (length (results s) =? 0)%nat = false)
    by (apply Nat.eqb_neq; lia).
  rewrite Hlen. simpl.
  replace (selectedIndex s <? 0)%Z with false by (symmetry; apply Z.ltb_ge; lia).
  destruct (results s !! Z.to_nat (selectedIndex s)) as [r|] eqn:Hr;
    [reflexivity|].
  apply lookup_ge_None in Hr. lia.
Qed.

(** X8: closing the dropdown loses nothing.  With the dropdown open,
    an outside click followed by a focus, or Escape followed by a focus
    when results are shown, gives back the very same state: query,
    results, selection and pending timer are untouched and nothing is
    fetched.  With no results no key does anything: Escape does not
    close the dropdown then. *)
Theorem closing_and_reopening_restores (s : State) :
  loading s = false -> isOpen s = true ->
  step Focus (step MouseDownOutside s) = s
  /\ (results s <> [] -> step Focus (step (KeyDown Escape) s) = s)
  /\ (results s = [] -> forall key, step (KeyDown key) s = s).
Proof.
  intros Hl Hopen. split; [|split].
  - destruct s; simpl in *. subst. reflexivity.
  - intros Hres. simpl. rewrite Hl. unfold handleKeyDown. rewrite Hopen.
    assert (Hlen : (length (results s) =? 0)%nat = false).
    { apply Nat.eqb_neq. destruct (results s); [congruence | simpl; lia]. }
    rewrite Hlen. simpl. unfold_rerender.
    replace (query (set_isOpen false s)) with (query s) by (now destruct s).
    rewrite String.eqb_refl.
    destruct s; simpl in *. subst. reflexivity.
  - intros Hres key. simpl. rewrite Hl. unfold handleKeyDown.
    rewrite Hres. simpl. rewrite orb_true_r. unfold_rerender.
    now rewrite String.eqb_refl.
Qed.

Lemma queryEffect_cases (s : State) :
  navigated (queryEffect s) = navigated s
  /\ isDeepSearching (queryEffect s) = isDeepSearching s
  /\ ((results (queryEffect s) = []
       /\ selectedIndex (queryEffect s) = selectedIndex s)
      \/ (results (queryEffect s)
          = map virusResult
              (fuse_search virusRelevance (virusIndex s) (query s) 5)
          /\ selectedIndex (queryEffect s) = 0%Z)).
Proof.
  unfold_queryEffect; unfold clearPending, clearTimeout, setTimeout, virusFuse.
  open_state s.
  destruct ec, dr as [h|]; try destruct (h =? 0)%nat; simpl;
    destruct vi as [|v vs]; simpl; auto;
    destruct (String.length qu <? 2)%nat; simpl; auto;
    try destruct (h =? 0)%nat; simpl;
    destruct (3 <=? String.length qu)%nat; simpl; auto.
Qed.

(** *** Result ordering *)

Lemma rerender_results (before after : State) :
  results (rerender before after) = results after
  \/ List.filter isProtein (results (rerender before after)) = [].
Proof.
  unfold_rerender. destruct (String.eqb _ _); [now left|].
  destruct (queryEffect_cases after) as (_ & _ & [[-> _] | [-> _]]);
    right; [reflexivity | apply filter_isProtein_viruses].
Qed.

(** Only a deep settlement that is applied puts protein entries into
    the list: every other event leaves the list as it is or leaves no
    protein entry in it. *)
Lemma step_deep_tier (e : Event) (s : State) :
  match e with
  | DeepIndexSettled rid (Index _) =>
      List.find (fun r' => (ticket r' =? rid)%nat) (inflight s) = None
  | _ => True
  end ->
  results (step e s) = results s
  \/ List.filter isProtein (results (step e s)) = [].
Proof.
  destruct e as [loaded|value| |key|position| |ms|rid outcome]; simpl.
  - intros _. destruct (loading s); [|now left].
    unfold_lightIndexSettled. destruct loaded as [[|d docs]|]; simpl;
      [now left | | now left].
    destruct (queryEffect_cases
                (set_loading false (set_virusIndex (d :: docs) s)))
      as (_ & _ & [[-> _] | [-> _]]);
      right; [reflexivity | apply filter_isProtein_viruses].
  - intros _. destruct (loading s); [now left|].
    destruct (rerender_results s (set_isOpen true (set_query value s)))
      as [-> | H]; [left; now destruct s | now right].
  - intros _. destruct (loading s); left; [reflexivity | now destruct s].
  - intros _. destruct (loading s); [now left|].
    destruct (rerender_results s (handleKeyDown key s)) as [-> | H];
      [left | now right].
    now destruct (handleKeyDown_frame key s) as (_ & Hres & _).
  - intros _. destruct (isOpen s); [|now left].
    destruct (results s !! position) as [r|]; [|now left].
    destruct (rerender_results s (selectResult (Some r) s)) as [H | H];
      [left | now right].
    etransitivity; [exact H | now destruct s].
  - intros _. left. now destruct s.
  - intros _. left. unfold elapse.
    destruct (runTimers_frame (set_clock (clock s + ms) s))
      as (_ & _ & _ & -> & _). now destruct s.
  - unfold_deepIndexSettled.
    destruct outcome as [| |deep].
    + intros _. left.
      destruct (List.find _ (inflight s)); [|reflexivity]. now destruct s.
    + intros _. left.
      destruct (List.find _ (inflight s)); [|reflexivity]. now destruct s.
    + intros ->. now left.
Qed.

Lemma run_snoc (events : list Event) (e : Event) (s : State) :
  run (events ++ [e])%list s = step e (run events s).
Proof. unfold_run. now rewrite fold_left_app. Qed.

Lemma merge_deep_tier (s : State) (P' : list (FuseResult ProteinSearchItem.t)) :
  tiered s ->
  List.filter isProtein (mergeResults P' (results s)) = map proteinResult P'.
Proof.
  intros (k & proteins & pattern & Hrs). unfold mergeResults.
  rewrite Hrs, filter_isVirus_tiers, firstn_map, List.filter_app,
    filter_isProtein_viruses, filter_isProtein_proteins.
  reflexivity.
Qed.

(** The protein entries a reachable state shows are those of one deep
    settlement of its history: the ranked matches of the query of that
    request over the index that was delivered for it. *)
Lemma deep_tier_traced (events : list Event) :
  List.filter isProtein (results (run events mounted)) = []
  \/ exists before after rid r deep,
      events = (before ++ DeepIndexSettled rid (Index deep) :: after)%list
      /\ List.find (fun r' => (ticket r' =? rid)%nat)
           (inflight (run before mounted)) = Some r
      /\ List.filter isProtein (results (run events mounted))
         = map proteinResult
             (fuse_search proteinRelevance deep (searchQuery r) 8).
Proof.
  induction events as [|e events IH] using rev_ind; [now left|].
  rewrite run_snoc.
  assert (Hkeep : results (step e (run events mounted))
                  = results (run events mounted)
                  \/ List.filter isProtein
                       (results (step e (run events mounted))) = [] ->
                  List.filter isProtein
                    (results (step e (run events mounted))) = []
                  \/ exists before after rid r deep,
                      (events ++ [e])%list
                      = (before ++ DeepIndexSettled rid (Index deep) :: after)%list
                      /\ List.find (fun r' => (ticket r' =? rid)%nat)
                           (inflight (run before mounted)) = Some r
                      /\ List.filter isProtein
                           (results (step e (run events mounted)))
                         = map proteinResult
                             (fuse_search proteinRelevance deep
                                (searchQuery r) 8)).
  { intros [Hsame | Hnone]; [|now left]. rewrite Hsame.
    destruct IH as [IH | (before & after & rid & r & deep & -> & Hfind & IH)];
      [now left | right].
    exists before, (after ++ [e])%list, rid, r, deep.
    split; [now rewrite <- app_assoc | auto]. }
  destruct e as [loaded|value| |key|position| |ms|rid [| |deep]];
    try (apply Hkeep, step_deep_tier; exact I).
  destruct (List.find (fun r' => (ticket r' =? rid)%nat)
              (inflight (run events mounted))) as [r|] eqn:Hfind;
    [|apply Hkeep, step_deep_tier; exact Hfind].
  right. exists events, [], rid, r, deep.
  split; [reflexivity | split; [exact Hfind|]].
  simpl. unfold_deepIndexSettled. rewrite Hfind. simpl.
  apply merge_deep_tier.
  assert (Hinv : invariant (run events mounted))
    by (apply reachable_invariant; now exists events).
  destruct Hinv as (_ & (k & proteins & pattern & Hrs) & _).
  exists k, proteins, pattern. exact Hrs.
Qed.

(** C6: in every reachable state the result list is a run of virus
    entries followed by a run of protein entries, so every virus entry
    stands before every protein entry.  The virus run is the first [k]
    light matches of the current query over the light index.  The
    protein run is empty or it is exactly what one deep settlement of
    the history gave: the ranked matches of the query of its request
    over the index delivered for it.  Each run is in ascending score
    order, entries of equal score in index order, and each entry is a
    record of its index with the score the matcher gives it.  A deep
    fetch that settles with an index [deep] for a request with query
    [searchQuery r] makes the list the first four virus entries
    followed by the ranked matches of [searchQuery r] over [deep];
    every other event leaves the protein run as it is or leaves no
    protein entry. *)
Theorem merged_results_ordered (events : list Event) :
  let s := run events mounted in
  exists (k : nat) (P : list (FuseResult ProteinSearchItem.t)),
    let V := take k (fuse_search virusRelevance (virusIndex s) (query s) 5) in
    results s = (map virusResult V ++ map proteinResult P)%list
    /\ StronglySorted precedes V
    /\ StronglySorted precedes P
    /\ (forall r, In r V ->
          virusIndex s !! refIndex r = Some (item r)
          /\ virusRelevance (query s) (item r) = Some (score r))
    /\ (P = []
        \/ exists before after rid r deep,
            events = (before ++ DeepIndexSettled rid (Index deep) :: after)%list
            /\ List.find (fun r' => (ticket r' =? rid)%nat)
                 (inflight (run before mounted)) = Some r
            /\ P = fuse_search proteinRelevance deep (searchQuery r) 8
            /\ (forall r', In r' P ->
                  deep !! refIndex r' = Some (item r')
                  /\ proteinRelevance (searchQuery r) (item r')
                     = Some (score r')))
    /\ (forall i j ri rj,
          results s !! i = Some ri -> results s !! j = Some rj ->
          SearchResult.type ri = virus -> SearchResult.type rj = protein ->
          i < j)
    /\ (forall rid r deep,
          List.find (fun r' => (ticket r' =? rid)%nat) (inflight s) = Some r ->
          let P' := fuse_search proteinRelevance deep (searchQuery r) 8 in
          results (step (DeepIndexSettled rid (Index deep)) s)
          = (map virusResult (take 4 V) ++ map proteinResult P')%list
          /\ StronglySorted precedes (take 4 V)
          /\ StronglySorted precedes P'
          /\ (forall r', In r' P' ->
                deep !! refIndex r' = Some (item r')
                /\ proteinRelevance (searchQuery r) (item r')
                   = Some (score r')))
    /\ (forall e,
          match e with
          | DeepIndexSettled rid (Index _) =>
              List.find (fun r' => (ticket r' =? rid)%nat) (inflight s) = None
          | _ => True
          end ->
          List.filter isProtein (results (step e s)) = map proteinResult P
          \/ List.filter isProtein (results (step e s)) = []).
Proof.
  intros s.
  assert (Hreach : reachable s) by now exists events.
  destruct (reachable_invariant s Hreach)
    as (_ & (k & proteins & pattern & Hrs0) & _).
  assert (Htier : exists P,
             results s
             = (map virusResult
                  (take k (fuse_search virusRelevance (virusIndex s)
                             (query s) 5))
                ++ map proteinResult P)%list
             /\ (P = []
                 \/ exists before after rid r deep,
                     events
                     = (before ++ DeepIndexSettled rid (Index deep) :: after)%list
                     /\ List.find (fun r' => (ticket r' =? rid)%nat)
                          (inflight (run before mounted)) = Some r
                     /\ P = fuse_search proteinRelevance deep (searchQuery r) 8)).
  { assert (Hp : List.filter isProtein (results s)
                 = map proteinResult
                     (fuse_search proteinRelevance proteins pattern 8)).
    { rewrite Hrs0, List.filter_app, filter_isProtein_viruses,
        filter_isProtein_proteins. reflexivity. }
    destruct (deep_tier_traced events)
      as [Hnone | (before & after & rid & r & deep & Hev & Hfind & Hsome)];
      fold s in Hnone || fold s in Hsome.
    - exists []. split; [|now left].
      rewrite Hrs0. rewrite <- Hp, Hnone. reflexivity.
    - exists (fuse_search proteinRelevance deep (searchQuery r) 8).
      split; [|right; exists before, after, rid, r, deep; auto].
      rewrite Hrs0. rewrite <- Hp, Hsome. reflexivity. }
  destruct Htier as (P & Hrs & Htie).
  exists k, P. intros V. fold V in Hrs.
  assert (Hsorted : StronglySorted precedes P).
  { destruct Htie as [-> | (_ & _ & _ & r & deep & _ & _ & ->)];
      [constructor | apply fuse_search_ranked]. }
  split; [exact Hrs|].
  split; [apply ranked_take, fuse_search_ranked|].
  split; [exact Hsorted|].
  split; [|split; [|split; [|split]]].
  - intros r Hin. apply (fuse_search_sound virusRelevance _ _ 5).
    apply list_elem_of_In, elem_of_take in Hin as (i & Hi & _).
    eapply list_elem_of_In, list_elem_of_lookup_2, Hi.
  - destruct Htie as [-> | (before & after & rid & r & deep & Hev & Hfind & ->)];
      [now left | right].
    exists before, after, rid, r, deep.
    split; [exact Hev | split; [exact Hfind | split; [reflexivity|]]].
    intros r' Hin. apply (fuse_search_sound proteinRelevance _ _ 8), Hin.
  - intros i j ri rj Hi Hj Hti Htj. rewrite Hrs in Hi, Hj.
    assert (Hlt : i < length (map virusResult V)).
    { destruct (le_lt_dec (length (map virusResult V)) i) as [Hge|];
        [|assumption].
      rewrite lookup_app_r in Hi by exact Hge.
      apply list_elem_of_lookup_2, list_elem_of_In, in_map_iff in Hi.
      destruct Hi as (p & <- & _). discriminate. }
    assert (Hge : length (map virusResult V) <= j).
    { destruct (le_lt_dec (length (map virusResult V)) j) as [|Hlt'];
        [assumption|].
      rewrite lookup_app_l in Hj by exact Hlt'.
      apply list_elem_of_lookup_2, list_elem_of_In, in_map_iff in Hj.
      destruct Hj as (v & <- & _). discriminate. }
    lia.
  - intros rid r deep Hfind P'.
    split; [|split; [|split]].
    + simpl. unfold_deepIndexSettled. rewrite Hfind. simpl.
      unfold mergeResults. rewrite Hrs, filter_isVirus_tiers.
      now rewrite firstn_map.
    + apply ranked_take, ranked_take, fuse_search_ranked.
    + apply fuse_search_ranked.
    + intros r' Hin. apply (fuse_search_sound proteinRelevance _ _ 8), Hin.
  - intros e He. destruct (step_deep_tier e s He) as [-> | H]; [left | now right].
    rewrite Hrs, List.filter_app, filter_isProtein_viruses,
      filter_isProtein_proteins. reflexivity.
Qed.

(** X9: selecting a result navigates once and cancels the search.  A
    click on a shown result appends exactly its route ([/virus/id] or
    [/protein/id]) to the navigations, empties the query, closes the
    dropdown, leaves no debounce timer pending and sends nothing; the
    result list is emptied, unless the query was empty already. *)
Theorem selecting_navigates_and_cancels (s : State) (i : nat)
  (r : SearchResult.t) :
  reachable s -> isOpen s = true -> results s !! i = Some r ->
  let s' := step (Click i) s in
  navigated s' = (navigated s ++ [route r])%list
  /\ query s' = "" /\ isOpen s' = false
  /\ timers s' = [] /\ fetched s' = fetched s
  /\ results s' = (if String.eqb (query s) "" then results s else []).
Proof.
  intros Hreach Hopen Hr s'.
  destruct (reachable_invariant s Hreach) as ((Hnt & Hone & Hcap) & _).
  assert (Hstep : step (Click i) s = rerender s (selectResult (Some r) s))
    by (simpl; now rewrite Hopen, Hr).
  subst s'. rewrite Hstep. unfold_rerender.
  set (a := selectResult (Some r) s).
  assert (Ha : query a = "" /\ isOpen a = false
               /\ navigated a = (navigated s ++ [route r])%list
               /\ timers a = timers s /\ fetched a = fetched s
               /\ results a = results s /\ nextTimer a = nextTimer s
               /\ deepSearchRef a = deepSearchRef s
               /\ effectCleanup a = effectCleanup s)
    by (subst a; destruct s; simpl; repeat split).
  destruct Ha as (Hq & Ho & Hn & Ht & Hf & Hrs & Hnt' & Href & Hec).
  rewrite Hq. destruct (String.eqb (query s) "") eqn:E.
  - apply String.eqb_eq in E. repeat split; auto.
    rewrite Ht. destruct (timers s) as [|t ts] eqn:Hts; [reflexivity|].
    destruct (Hcap t) as [Hc Hlen]; [now left|].
    rewrite Hc, E in Hlen. unfold String.length in Hlen. lia.
  - assert (Hone' : one_timer a)
      by (unfold one_timer in *; now rewrite Ht, Href, Hec).
    assert (Hnt'' : nextTimer a <> 0) by congruence.
    destruct (queryEffect_timers a Hnt'' Hone') as [Htm _].
    destruct (queryEffect_frame a) as (_ & _ & Fq & Fo & _ & _ & _ & Ff & _).
    destruct (queryEffect_cases a) as (Fn & _).
    destruct (queryEffect_idle a) as [Fr _];
      [right; rewrite Hq; unfold String.length; lia|].
    rewrite Fq, Fo, Ff, Fn, Fr, Htm, Hq.
    repeat split; auto.
    destruct (virusIndex a); reflexivity.
Qed.

(** X10: a keystroke that sets a query of two or more characters, with
    the light index loaded, shows at once the (at most five) virus
    matches of that query with the first one selected and the dropdown
    open, and sends nothing; for a query of exactly two characters no
    timer is set, so waiting sends nothing and changes no result. *)
Theorem keystroke_shows_light_matches (s : State) (q : string) :
  reachable s -> loading s = false -> virusIndex s <> [] ->
  2 <= String.length q -> q <> query s ->
  let s1 := step (Change q) s in
  results s1
  = map virusResult (fuse_search virusRelevance (virusIndex s) q 5)
  /\ length (results s1) <= 5
  /\ selectedIndex s1 = 0%Z /\ isOpen s1 = true
  /\ fetched s1 = fetched s
  /\ (String.length q = 2 ->
      timers s1 = []
      /\ forall ms, fetched (step (Elapse ms) s1) = fetched s
                    /\ results (step (Elapse ms) s1) = results s1).
Proof.
  intros Hreach Hl Hvi Hlen Hq s1.
  pose proof (reachable_invariant s Hreach) as Hinv.
  destruct (change_effect s q Hinv Hl Hq) as (Ht & Hft & _).
  fold s1 in Ht, Hft.
  assert (Hs1 : s1 = queryEffect (set_isOpen true (set_query q s))).
  { subst s1. simpl. rewrite Hl. unfold_rerender.
    replace (String.eqb _ _) with false; [reflexivity|].
    symmetry. apply String.eqb_neq. destruct s; simpl in *. congruence. }
  destruct (queryEffect_light (set_isOpen true (set_query q s))) as [Hrs Hsi];
    [now destruct s | now destruct s |].
  destruct (queryEffect_frame (set_isOpen true (set_query q s)))
    as (_ & _ & _ & Fo & _).
  rewrite <- Hs1 in Hrs, Hsi, Fo.
  replace (virusIndex (set_isOpen true (set_query q s))) with (virusIndex s)
    in Hrs by (now destruct s).
  replace (query (set_isOpen true (set_query q s))) with q
    in Hrs by (now destruct s).
  split; [exact Hrs|]. split; [rewrite Hrs, length_map; apply fuse_search_length|].
  split; [exact Hsi|]. split; [rewrite Fo; now destruct s|].
  split; [exact Hft|].
  intros H2.
  assert (Ht1 : timers s1 = []).
  { rewrite Ht. destruct (virusIndex s); [reflexivity|].
    replace (3 <=? String.length q)%nat with false; [reflexivity|].
    symmetry. apply Nat.leb_gt. lia. }
  split; [exact Ht1|].
  intros ms. simpl. unfold elapse.
  rewrite runTimers_none by (destruct s1; exact Ht1).
  destruct s1; simpl in *. auto.
Qed.

(** *** Bounds that hold in every reachable state *)

Lemma queryEffect_sized (s : State) : sized s -> sized (queryEffect s).
Proof.
  intros [Hlen Hsel]. unfold sized.
  destruct (queryEffect_cases s) as (_ & _ & [[-> ->] | [-> ->]]).
  - simpl. split; [lia | exact Hsel].
  - rewrite length_map.
    pose proof (fuse_search_length virusRelevance (virusIndex s) (query s) 5).
    split; lia.
Qed.

Lemma rerender_sized (before after : State) :
  sized after -> sized (rerender before after).
Proof.
  intros H. unfold_rerender.
  destruct (String.eqb _ _); [exact H | apply queryEffect_sized, H].
Qed.

Lemma handleKeyDown_sized (key : Key) (s : State) :
  sized s -> sized (handleKeyDown key s).
Proof.
  unfold handleKeyDown, sized, selectResult. open_state s. intros [Hlen Hsel].
  destruct (negb op || (length rs =? 0)%nat) eqn:Hg; simpl;
    [split; assumption|].
  apply orb_false_iff in Hg as [_ Hne%Nat.eqb_neq].
  destruct key; simpl; try (split; [assumption | lia]).
  destruct (at_index rs si); simpl; split; assumption.
Qed.

Lemma mergeResults_length (P : list (FuseResult ProteinSearchItem.t))
  (prev : list SearchResult.t) :
  length (mergeResults P prev) <= 4 + length P.
Proof.
  unfold mergeResults. rewrite length_app, length_take, length_map. lia.
Qed.

Lemma step_sized (e : Event) (s : State) : sized s -> sized (step e s).
Proof.
  intros Hs. pose proof Hs as [Hlen Hsel].
  destruct e as [loaded|value| |key|position| |ms|rid outcome]; simpl.
  - destruct (loading s); [|exact Hs]. unfold_lightIndexSettled.
    destruct loaded as [[|v vs]|]; try (destruct s; exact Hs).
    apply queryEffect_sized. destruct s; exact Hs.
  - destruct (loading s); [exact Hs|]. apply rerender_sized.
    destruct s; exact Hs.
  - destruct (loading s); [exact Hs|]. destruct s; exact Hs.
  - destruct (loading s); [exact Hs|].
    apply rerender_sized, handleKeyDown_sized, Hs.
  - destruct (isOpen s); [|exact Hs].
    destruct (results s !! position); [|exact Hs].
    apply rerender_sized. destruct s; exact Hs.
  - destruct s; exact Hs.
  - unfold elapse.
    pose proof (runTimers_frame (set_clock (clock s + ms) s)) as F. simpl in F.
    destruct F as (_ & _ & _ & Frs & Fsi & _). unfold sized.
    rewrite Frs, Fsi. destruct s; exact Hs.
  - unfold_deepIndexSettled.
    destruct (List.find _ (inflight s)) as [r|]; [|exact Hs].
    destruct outcome as [| |proteins]; simpl; try (destruct s; exact Hs).
    unfold sized.
    replace (results _) with
      (mergeResults
         (fuse_search proteinRelevance proteins (searchQuery r) 8) (results s))
      by (now destruct s).
    replace (selectedIndex _) with (selectedIndex s) by (now destruct s).
    pose proof (mergeResults_length
                  (fuse_search proteinRelevance proteins (searchQuery r) 8)
                  (results s)).
    pose proof (fuse_search_length proteinRelevance proteins (searchQuery r) 8).
    split; [lia | exact Hsel].
Qed.

Lemma run_sized (events : list Event) (s : State) :
  sized s -> sized (run events s).
Proof.
  revert s. induction events as [|e events IH]; intros s Hs; simpl;
    [exact Hs|].
  apply IH, step_sized, Hs.
Qed.

(** X11: the dropdown stays small and the selection stays near it.  In
    every reachable state there are at most 12 results, of which at
    most 5 are viruses and at most 8 proteins, and [selectedIndex] is
    between 0 and 11. *)
Theorem results_and_selection_are_bounded (s : State) :
  reachable s ->
  length (results s) <= 12
  /\ length (List.filter isVirus (results s)) <= 5
  /\ length (List.filter isProtein (results s)) <= 8
  /\ (0 <= selectedIndex s <= 11)%Z.
Proof.
  intros Hreach.
  assert (Hs : sized s).
  { destruct Hreach as [events <-]. apply run_sized.
    split; simpl; lia. }
  destruct (reachable_invariant s Hreach)
    as (_ & (k & proteins & pattern & Hrs) & _).
  destruct Hs as [Hlen Hsel].
  split; [exact Hlen|]. split; [|split; [|exact Hsel]].
  - rewrite Hrs, filter_isVirus_tiers, length_map, length_take.
    pose proof (fuse_search_length virusRelevance (virusIndex s) (query s) 5).
    lia.
  - rewrite Hrs, List.filter_app, filter_isProtein_viruses,
      filter_isProtein_proteins. simpl. rewrite length_map.
    apply fuse_search_length.
Qed.

(** *** Keyboard navigation *)


(** *** While the light index loads *)

Lemma rerender_loading (before after : State) :
  loading (rerender before after) = loading after.
Proof.
  unfold_rerender. destruct (String.eqb _ _); [reflexivity|].
  apply (queryEffect_frame after).
Qed.

Lemma step_keeps_loaded (e : Event) (s : State) :
  loading s = false -> loading (step e s) = false.
Proof.
  intros Hl.
  destruct e as [loaded|value| |key|position| |ms|rid outcome]; simpl;
    rewrite ?Hl; try reflexivity.
  - rewrite rerender_loading. now destruct s.
  - now destruct s.
  - rewrite rerender_loading.
    pose proof (handleKeyDown_frame key s) as F. simpl in F.
    destruct F as (_ & _ & _ & _ & _ & _ & Fl & _). congruence.
  - destruct (isOpen s); [|exact Hl].
    destruct (results s !! position) as [r|]; [|exact Hl].
    rewrite rerender_loading. now destruct s.
  - unfold elapse.
    pose proof (runTimers_frame (set_clock (clock s + ms) s)) as F. simpl in F.
    destruct F as (_ & -> & _). now destruct s.
  - unfold_deepIndexSettled.
    destruct (List.find _ (inflight s)) as [r|]; [|exact Hl].
    destruct outcome; simpl; now destruct s.
Qed.

Lemma step_dormant (e : Event) (s : State) : dormant s -> dormant (step e s).
Proof.
  intros Hd Hl'.
  destruct (loading s) eqn:Hl;
    [|rewrite (step_keeps_loaded e s Hl) in Hl'; discriminate].
  specialize (Hd Hl). remember (clock s) as c eqn:Hc. clear Hc Hl.
  subst s.
  destruct e as [loaded|value| |key|position| |ms|rid outcome];
    try reflexivity.
  destruct loaded as [[|v vs]|]; cbv in Hl'; discriminate.
Qed.

Lemma run_dormant (events : list Event) (s : State) :
  dormant s -> dormant (run events s).
Proof.
  revert s. induction events as [|e events IH]; intros s Hs; simpl;
    [exact Hs|].
  apply IH, step_dormant, Hs.
Qed.

(** X12: nothing happens while the light index loads.  As long as
    [loading] is true the component is exactly as it mounted, but for
    the time that passed: the query and the result list are empty, the
    dropdown is closed, no timer is pending and only the light index was
    requested. *)
Theorem nothing_happens_while_loading (s : State) :
  reachable s -> loading s = true ->
  s = set_clock (clock s) mounted
  /\ query s = "" /\ results s = [] /\ isOpen s = false
  /\ timers s = [] /\ inflight s = [] /\ fetched s = [lightIndexPath].
Proof.
  intros [events <-] Hl.
  assert (Hd : dormant (run events mounted)).
  { apply run_dormant. intros _. reflexivity. }
  specialize (Hd Hl). split; [exact Hd|].
  rewrite Hd. repeat split.
Qed.

(** *** The pending timer *)

Lemma queryEffect_window (s : State) :
  nextTimer s <> 0 -> one_timer s -> timer_window (queryEffect s).
Proof.
  intros Hnt Hone t Hin.
  destruct (queryEffect_timers s Hnt Hone) as [Ht _].
  destruct (queryEffect_frame s) as (_ & _ & _ & _ & Fck & _).
  rewrite Ht in Hin. rewrite Fck.
  destruct (virusIndex s); [destruct Hin|].
  destruct (3 <=? String.length (query s))%nat; [|destruct Hin].
  destruct Hin as [<- | []]. simpl. lia.
Qed.

Lemma step_window (e : Event) (s : State) :
  invariant s -> timer_window s -> timer_window (step e s).
Proof.
  intros Hinv Hw. pose proof Hinv as ((Hnt & Hone & _) & _).
  assert (Hre : forall after,
             nextTimer after = nextTimer s -> timers after = timers s ->
             deepSearchRef after = deepSearchRef s ->
             effectCleanup after = effectCleanup s ->
             clock after = clock s ->
             timer_window (rerender s after)).
  { intros after Hn Ht Hr Hc Hck. unfold_rerender.
    destruct (String.eqb _ _).
    - intros t Hin. rewrite Ht in Hin. rewrite Hck. now apply Hw.
    - apply queryEffect_window; [congruence|].
      unfold one_timer in *. now rewrite Ht, Hr, Hc. }
  destruct e as [loaded|value| |key|position| |ms|rid outcome]; simpl.
  - destruct (loading s); [|exact Hw]. unfold_lightIndexSettled.
    destruct loaded as [[|v vs]|]; try (destruct s; exact Hw).
    apply queryEffect_window; now destruct s.
  - destruct (loading s); [exact Hw|]. apply Hre; now destruct s.
  - destruct (loading s); [exact Hw|]. destruct s; exact Hw.
  - destruct (loading s); [exact Hw|].
    pose proof (handleKeyDown_frame key s) as F. simpl in F.
    apply Hre; apply F.
  - destruct (isOpen s); [|exact Hw].
    destruct (results s !! position); [|exact Hw].
    apply Hre; now destruct s.
  - destruct s; exact Hw.
  - unfold elapse.
    pose proof (runTimers_frame (set_clock (clock s + ms) s)) as F. simpl in F.
    destruct F as (_ & _ & _ & _ & _ & _ & _ & Fck & _ & Ft).
    intros t Hin. rewrite Ft in Hin. rewrite Fck.
    apply filter_In in Hin as [Hin Hdue].
    replace (timers (set_clock (clock s + ms) s)) with (timers s) in Hin
      by (now destruct s).
    replace (clock (set_clock (clock s + ms) s)) with (clock s + ms) in *
      by (now destruct s).
    apply negb_true_iff, Nat.leb_gt in Hdue.
    specialize (Hw t Hin). lia.
  - unfold_deepIndexSettled.
    destruct (List.find _ (inflight s)) as [r|]; [|exact Hw].
    destruct outcome; simpl; destruct s; exact Hw.
Qed.

Lemma run_window (events : list Event) (s : State) :
  invariant s -> timer_window s -> timer_window (run events s).
Proof.
  revert s. induction events as [|e events IH]; intros s Hinv Hw; simpl;
    [exact Hw|].
  apply IH; [apply step_invariant, Hinv | apply step_window; assumption].
Qed.

(** X13: at most one debounce timer is ever pending; it was set for
    the query that is current, which has three or more characters, and
    it is due after now and no later than 300 ms from now. *)
Theorem pending_timer_is_current (s : State) :
  reachable s ->
  length (timers s) <= 1
  /\ forall t, In t (timers s) ->
       captured t = query s /\ 3 <= String.length (query s)
       /\ clock s < due t <= clock s + 300.
Proof.
  intros Hreach.
  destruct (reachable_invariant s Hreach) as ((_ & Hone & Hcap) & _).
  assert (Hw : timer_window s).
  { destruct Hreach as [events <-].
    apply run_window; [apply mounted_invariant | intros t []]. }
  split.
  - destruct Hone as [-> | (t & -> & _)]; simpl; lia.
  - intros t Hin. destruct (Hcap t Hin) as [Hc Hlen].
    rewrite <- Hc. repeat split; auto; apply (Hw t Hin).
Qed.

(** *** What is ever requested *)

Lemma rerender_fetched (before after : State) :
  fetched (rerender before after) = fetched after.
Proof.
  unfold_rerender. destruct (String.eqb _ _); [reflexivity|].
  apply (queryEffect_frame after).
Qed.

Lemma step_fetched (s : State) (e : Event) :
  invariant s -> fetched (step e s) <> fetched s ->
  exists ms t,
    e = Elapse ms /\ timers s = [t] /\ due t <= clock s + ms
    /\ captured t = query s /\ 3 <= String.length (query s)
    /\ fetched (step e s) = (fetched s ++ [deepIndexPath])%list.
Proof.
  intros ((_ & Hone & Hcap) & _) Hne.
  destruct e as [loaded|value| |key|position| |ms|rid outcome]; simpl in *.
  - exfalso. apply Hne. destruct (loading s); [|reflexivity].
    unfold_lightIndexSettled.
    destruct loaded as [[|v vs]|]; try (now destruct s).
    match goal with
    | |- fetched (?f ?x) = _ =>
        destruct (queryEffect_frame x) as (_ & _ & _ & _ & _ & _ & _ & -> & _)
    end.
    now destruct s.
  - exfalso. apply Hne. destruct (loading s); [reflexivity|].
    rewrite rerender_fetched. now destruct s.
  - exfalso. apply Hne. destruct (loading s); [reflexivity | now destruct s].
  - exfalso. apply Hne. destruct (loading s); [reflexivity|].
    rewrite rerender_fetched. apply (handleKeyDown_frame key s).
  - exfalso. apply Hne. destruct (isOpen s); [|reflexivity].
    destruct (results s !! position); [|reflexivity].
    rewrite rerender_fetched. now destruct s.
  - exfalso. apply Hne. now destruct s.
  - unfold elapse in *.
    destruct Hone as [Ht | (t & Ht & _)].
    + exfalso. apply Hne.
      rewrite runTimers_none by (destruct s; exact Ht). now destruct s.
    + destruct (Hcap t) as [Hc Hlen]; [rewrite Ht; now left|].
      rewrite (runTimers_single _ t) in * by (destruct s; exact Ht).
      destruct (isDue (clock (set_clock (clock s + ms) s)) t) eqn:Hdue.
      * exists ms, t. unfold isDue in Hdue. apply Nat.leb_le in Hdue.
        replace (clock (set_clock (clock s + ms) s)) with (clock s + ms)
          in Hdue by (now destruct s).
        rewrite <- Hc. repeat split; auto.
        destruct (deepFetches_start (captured t)
                    (set_timers [] (set_clock (clock s + ms) s)) Hlen)
          as (_ & -> & _).
        now destruct s.
      * exfalso. apply Hne. now destruct s.
  - exfalso. apply Hne. unfold_deepIndexSettled.
    destruct (List.find _ (inflight s)) as [r|]; [|reflexivity].
    destruct outcome; simpl; now destruct s.
Qed.

(** X14: the component sends a request only when the debounce timer
    fires.  An event after which the request log differs is the passing
    of time past the due time of the pending timer; the current query
    then has three or more characters, and what is added is one request
    for the deep index. *)
Theorem request_only_when_timer_fires (s : State) (e : Event) :
  reachable s -> fetched (step e s) <> fetched s ->
  exists ms t,
    e = Elapse ms /\ timers s = [t] /\ due t <= clock s + ms
    /\ captured t = query s /\ 3 <= String.length (query s)
    /\ fetched (step e s) = (fetched s ++ [deepIndexPath])%list.
Proof.
  intros Hreach Hne. apply step_fetched; [|exact Hne].
  now apply reachable_invariant.
Qed.

Lemma deepFetches_log (n : nat) :
  length (List.filter isDeepIndex (lightIndexPath :: repeat deepIndexPath n))
  = n.
Proof.
  simpl. induction n as [|n IH]; simpl; [reflexivity | now rewrite IH].
Qed.

(** X15: the light index is requested once, at mount, and never again:
    in every reachable state the request log is that one request
    followed by requests for the deep index only. *)
Theorem light_index_is_requested_once (s : State) :
  reachable s ->
  fetched s = lightIndexPath :: repeat deepIndexPath (deepFetches s).
Proof.
  intros Hreach.
  assert (H : exists n, fetched s = lightIndexPath :: repeat deepIndexPath n).
  { destruct Hreach as [events <-].
    assert (G : forall s0 n,
               reachable s0 ->
               fetched s0 = lightIndexPath :: repeat deepIndexPath n ->
               exists m, fetched (run events s0)
                         = lightIndexPath :: repeat deepIndexPath m).
    { induction events as [|e events IH]; intros s0 n Hr0 Hf; simpl; [eauto|].
      destruct (decide (fetched (step e s0) = fetched s0)) as [Heq | Hneq].
      - apply (IH _ n); [now apply reachable_step | congruence].
      - destruct (step_fetched s0 e (reachable_invariant s0 Hr0) Hneq)
          as (ms & t & _ & _ & _ & _ & _ & Hadd).
        apply (IH _ (S n)); [now apply reachable_step|].
        rewrite Hadd, Hf. simpl. f_equal. symmetry. apply repeat_cons. }
    apply (G mounted 0); [exists []; reflexivity | reflexivity]. }
  destruct H as [n Hn]. unfold deepFetches. rewrite Hn at 2.
  now rewrite deepFetches_log.
Qed.

End Properties.

(** ** The properties on the example deployment *)

Lemma play_reachable (events : list Event) :
  reachable Demo.virusRelevance Demo.proteinRelevance (Demo.play events).
Proof. exists events. reflexivity. Defined.

Lemma fetchJson_cache_hit_iff_truthy_witness :
  Api.fetchJson "statistics.json"
    (Some (Api.mkResponse true "OK" (Some JNull))) Api.initial
  = (Api.mkWorld (<["statistics.json" := JNull]> ∅) ["statistics.json"],
     Resolved JNull)
  /\ forall reply2,
       Api.requests
         (fst (Api.fetchJson "statistics.json" reply2
                 (Api.mkWorld (<["statistics.json" := JNull]> ∅)
                    ["statistics.json"])))
       = ["statistics.json"; "statistics.json"].
Proof.
  split; [reflexivity|].
  destruct (fetchJson_cache_hit_iff_truthy "statistics.json"
              (Some (Api.mkResponse true "OK" (Some JNull))) Api.initial
              (Api.mkWorld (<["statistics.json" := JNull]> ∅)
                 ["statistics.json"])
              JNull) as (_ & Hmiss & _); [reflexivity|].
  apply Hmiss. reflexivity.
Defined.


Lemma failed_deep_search_is_contained_witness :
  List.find (fun r' => (ticket r' =? 0)%nat)
    (inflight (Demo.play [LightIndexSettled (Some Demo.viruses);
                          Change "spik"; Elapse 300]))
  = Some (mkRequest 0 "spik")
  /\ results
       (step Demo.virusRelevance Demo.proteinRelevance
          (DeepIndexSettled 0 FetchRejected)
          (Demo.play [LightIndexSettled (Some Demo.viruses);
                      Change "spik"; Elapse 300]))
     = results (Demo.play [LightIndexSettled (Some Demo.viruses);
                           Change "spik"; Elapse 300]).
Proof.
  split; [reflexivity|].
  destruct (failed_deep_search_is_contained
              Demo.virusRelevance Demo.proteinRelevance
              (Demo.play [LightIndexSettled (Some Demo.viruses); Change "spik";
                          Elapse 300])
              0 (mkRequest 0 "spik") FetchRejected) as (_ & Hsame & _).
  - left. reflexivity.
  - reflexivity.
  - exact Hsame.
Defined.

Lemma merged_results_ordered_witness :
  map SearchResult.id
    (results (Demo.play [LightIndexSettled (Some Demo.viruses);
                         Change "spike"; Elapse 300;
                         DeepIndexSettled 0 (Index Demo.proteins)]))
  = ["v6"; "v2"; "v3"; "v1"; "p3"; "p1"]
  /\ exists k,
       results (step Demo.virusRelevance Demo.proteinRelevance
                  (DeepIndexSettled 0 (Index Demo.proteins))
                  (Demo.play [LightIndexSettled (Some Demo.viruses);
                              Change "spike"; Elapse 300]))
       = (map virusResult
            (take 4
               (take k (fuse_search Demo.virusRelevance Demo.viruses
                          "spike" 5)))
          ++ map proteinResult
               (fuse_search Demo.proteinRelevance Demo.proteins "spike" 8))%list.
Proof.
  split; [reflexivity|].
  destruct (merged_results_ordered Demo.virusRelevance Demo.proteinRelevance
              [LightIndexSettled (Some Demo.viruses);
               Change "spike"; Elapse 300])
    as (k & P & _ & _ & _ & _ & _ & _ & Hmerge & _).
  exists k.
  exact (proj1 (Hmerge 0 (mkRequest 0 "spike") Demo.proteins eq_refl)).
Defined.

Lemma debounce_last_keystroke_wins_witness :
  loading (Demo.play [LightIndexSettled (Some Demo.viruses); Change "hu"])
  = false
  /\ timers
       (step Demo.virusRelevance Demo.proteinRelevance (Change "hum")
          (Demo.play [LightIndexSettled (Some Demo.viruses); Change "hu"]))
     = [mkTimer 1 300 "hum"].
Proof.
  split; [reflexivity|].
  destruct (debounce_last_keystroke_wins
              Demo.virusRelevance Demo.proteinRelevance
              (Demo.play [LightIndexSettled (Some Demo.viruses); Change "hu"])
              "hum") as (Htimer & _).
  - apply play_reachable.
  - reflexivity.
  - vm_compute. discriminate.
  - vm_compute. lia.
  - vm_compute. discriminate.
  - exact Htimer.
Defined.

Lemma short_query_clears_without_fetch_witness :
  results (Demo.play [LightIndexSettled (Some Demo.viruses); Change "sp"])
  <> []
  /\ results
       (step Demo.virusRelevance Demo.proteinRelevance (Change "s")
          (Demo.play [LightIndexSettled (Some Demo.viruses); Change "sp"]))
     = [].
Proof.
  split; [vm_compute; discriminate|].
  destruct (short_query_clears_without_fetch
              Demo.virusRelevance Demo.proteinRelevance
              (Demo.play [LightIndexSettled (Some Demo.viruses); Change "sp"])
              "s") as (Hempty & _).
  - apply play_reachable.
  - reflexivity.
  - vm_compute. lia.
  - vm_compute. discriminate.
  - exact Hempty.
Defined.

Lemma late_deep_results_are_applied_witness :
  query (Demo.play [LightIndexSettled (Some Demo.viruses); Change "spike";
                    Elapse 300; Change ""]) = ""
  /\ results
       (step Demo.virusRelevance Demo.proteinRelevance
          (DeepIndexSettled 0 (Index Demo.proteins))
          (Demo.play [LightIndexSettled (Some Demo.viruses); Change "spike";
                      Elapse 300; Change ""]))
     = map proteinResult
         (fuse_search Demo.proteinRelevance Demo.proteins "spike" 8).
Proof.
  split; [reflexivity|].
  apply (late_deep_results_are_applied
           Demo.virusRelevance Demo.proteinRelevance
           (Demo.play [LightIndexSettled (Some Demo.viruses); Change "spike";
                       Elapse 300; Change ""])
           0 (mkRequest 0 "spike") Demo.proteins).
  - apply play_reachable.
  - reflexivity.
  - reflexivity.
Defined.

Lemma every_deep_search_fetches_witness :
  timers (Demo.play [LightIndexSettled (Some Demo.viruses); Change "spik";
                     Elapse 300; DeepIndexSettled 0 (Index Demo.proteins);
                     Change "spike"])
  = [mkTimer 2 600 "spike"]
  /\ deepFetches
       (step Demo.virusRelevance Demo.proteinRelevance (Elapse 300)
          (Demo.play [LightIndexSettled (Some Demo.viruses); Change "spik";
                      Elapse 300; DeepIndexSettled 0 (Index Demo.proteins);
                      Change "spike"]))
     = S (deepFetches
            (Demo.play [LightIndexSettled (Some Demo.viruses); Change "spik";
                        Elapse 300; DeepIndexSettled 0 (Index Demo.proteins);
                        Change "spike"])).
Proof.
  split; [reflexivity|].
  destruct (every_deep_search_fetches
              Demo.virusRelevance Demo.proteinRelevance
              (Demo.play [LightIndexSettled (Some Demo.viruses); Change "spik";
                          Elapse 300; DeepIndexSettled 0 (Index Demo.proteins);
                          Change "spike"])
              (mkTimer 2 600 "spike") 300) as (Hmore & _).
  - apply play_reachable.
  - reflexivity.
  - vm_compute. lia.
  - exact Hmore.
Defined.

(** ** Where the code departs from the specification *)

(** C1: the user types "spike", the debounce fires, the user clears
    the input, and then the deep fetch settles: the protein matches for
    "spike" are shown under the empty query. *)
Lemma cleared_query_shows_late_results :
  query (Demo.play [LightIndexSettled (Some Demo.viruses); Change "spike";
                    Elapse 300; Change ""]) = ""
  /\ results (Demo.play [LightIndexSettled (Some Demo.viruses);
                         Change "spike"; Elapse 300; Change ""]) = []
  /\ query (Demo.play [LightIndexSettled (Some Demo.viruses); Change "spike";
                       Elapse 300; Change "";
                       DeepIndexSettled 0 (Index Demo.proteins)]) = ""
  /\ map SearchResult.id
       (results (Demo.play [LightIndexSettled (Some Demo.viruses);
                            Change "spike"; Elapse 300; Change "";
                            DeepIndexSettled 0 (Index Demo.proteins)]))
     = ["p3"; "p1"].
Proof. repeat split. Qed.

(** C2: two queries reach the threshold one after the other, the first
    deep fetch having succeeded: two requests for the deep index go
    out. *)
Lemma second_query_fetches_again :
  fetched (Demo.play [LightIndexSettled (Some Demo.viruses); Change "spik";
                      Elapse 300; DeepIndexSettled 0 (Index Demo.proteins);
                      Change "spike"; Elapse 300])
  = [lightIndexPath; deepIndexPath; deepIndexPath]
  /\ deepFetches
       (Demo.play [LightIndexSettled (Some Demo.viruses); Change "spik";
                   Elapse 300; DeepIndexSettled 0 (Index Demo.proteins);
                   Change "spike"; Elapse 300])
     = 2.
Proof. split; reflexivity. Qed.

(** C3: "spik" has five virus matches; the user moves the selection to
    the last one (index 4) and the deep fetch settles without a protein
    match.  The merge keeps four virus entries and leaves
    [selectedIndex] at 4, outside the list; Enter then reads
    [results[4]], which is [undefined]. *)
Lemma deep_merge_leaves_selection_outside :
  length (results
            (Demo.play [LightIndexSettled (Some Demo.viruses); Change "spik";
                        KeyDown ArrowDown; KeyDown ArrowDown;
                        KeyDown ArrowDown; KeyDown ArrowDown; Elapse 300]))
  = 5
  /\ selectedIndex
       (Demo.play [LightIndexSettled (Some Demo.viruses); Change "spik";
                   KeyDown ArrowDown; KeyDown ArrowDown;
                   KeyDown ArrowDown; KeyDown ArrowDown; Elapse 300])
     = 4%Z
  /\ length (results
               (Demo.play [LightIndexSettled (Some Demo.viruses);
                           Change "spik";
                           KeyDown ArrowDown; KeyDown ArrowDown;
                           KeyDown ArrowDown; KeyDown ArrowDown; Elapse 300;
                           DeepIndexSettled 0
                             (Index [ProteinSearchItem.mk "p2" "nucleoprotein"
                                       "v7" "Mumps"])]))
     = 4
  /\ selectedIndex
       (Demo.play [LightIndexSettled (Some Demo.viruses); Change "spik";
                   KeyDown ArrowDown; KeyDown ArrowDown;
                   KeyDown ArrowDown; KeyDown ArrowDown; Elapse 300;
                   DeepIndexSettled 0
                     (Index [ProteinSearchItem.mk "p2" "nucleoprotein"
                               "v7" "Mumps"])])
     = 4%Z
  /\ uncaught
       (Demo.play [LightIndexSettled (Some Demo.viruses); Change "spik";
                   KeyDown ArrowDown; KeyDown ArrowDown;
                   KeyDown ArrowDown; KeyDown ArrowDown; Elapse 300;
                   DeepIndexSettled 0
                     (Index [ProteinSearchItem.mk "p2" "nucleoprotein"
                               "v7" "Mumps"]);
                   KeyDown Enter])
     = ["TypeError: Cannot read properties of undefined"].
Proof. repeat split. Qed.

(** C4: the light index fails to load; the user types "spike" and
    waits.  No timer was set, no deep fetch goes out, nothing is
    shown. *)
Lemma failed_light_index_blocks_deep_search :
  query (Demo.play [LightIndexSettled None; Change "spike"]) = "spike"
  /\ timers (Demo.play [LightIndexSettled None; Change "spike"]) = []
  /\ fetched (Demo.play [LightIndexSettled None; Change "spike";
                         Elapse 300; Elapse 3000])
     = [lightIndexPath]
  /\ deepFetches (Demo.play [LightIndexSettled None; Change "spike";
                             Elapse 300; Elapse 3000]) = 0
  /\ results (Demo.play [LightIndexSettled None; Change "spike";
                         Elapse 300; Elapse 3000]) = [].
Proof. repeat split. Qed.

(** C5: the light index loads, but it is empty; the user types "hum"
    and waits out the debounce window.  No timer was set and no deep
    search goes out. *)
Lemma empty_light_index_schedules_nothing :
  loading (Demo.play [LightIndexSettled (Some []); Change "hum"]) = false
  /\ query (Demo.play [LightIndexSettled (Some []); Change "hum"]) = "hum"
  /\ timers (Demo.play [LightIndexSettled (Some []); Change "hum"]) = []
  /\ deepFetches (Demo.play [LightIndexSettled (Some []); Change "hum";
                             Elapse 300]) = 0.
Proof. repeat split. Qed.

(** C7: the user types "spike", the debounce fires, the user replaces
    the input by "s", and then the deep fetch settles: under a query of
    one character the result list is not empty. *)
Lemma short_query_shows_late_results :
  query (Demo.play [LightIndexSettled (Some Demo.viruses); Change "spike";
                    Elapse 300; Change "s";
                    DeepIndexSettled 0 (Index Demo.proteins)]) = "s"
  /\ map SearchResult.id
       (results (Demo.play [LightIndexSettled (Some Demo.viruses);
                            Change "spike"; Elapse 300; Change "s";
                            DeepIndexSettled 0 (Index Demo.proteins)]))
     = ["p3"; "p1"].
Proof. split; reflexivity. Qed.

(** C8: the deep fetch for "spik" is still out when the user types on
    to "spike" and a second deep fetch goes out.  The first settles
    with the index and its protein matches are merged; the second, for
    "spike", fails.  The deep tier is not empty for "spike": the two
    protein entries of the first fetch are still shown. *)
Lemma failed_deep_search_keeps_deep_tier :
  List.find (fun r => (ticket r =? 1)%nat)
    (inflight (Demo.play [LightIndexSettled (Some Demo.viruses);
                          Change "spik"; Elapse 300;
                          Change "spike"; Elapse 300;
                          DeepIndexSettled 0 (Index Demo.proteins)]))
  = Some (mkRequest 1 "spike")
  /\ query (Demo.play [LightIndexSettled (Some Demo.viruses);
                       Change "spik"; Elapse 300;
                       Change "spike"; Elapse 300;
                       DeepIndexSettled 0 (Index Demo.proteins);
                       DeepIndexSettled 1 FetchRejected])
     = "spike"
  /\ map SearchResult.id
       (List.filter isProtein
          (results (Demo.play [LightIndexSettled (Some Demo.viruses);
                               Change "spik"; Elapse 300;
                               Change "spike"; Elapse 300;
                               DeepIndexSettled 0 (Index Demo.proteins);
                               DeepIndexSettled 1 FetchRejected])))
     = ["p3"; "p1"]
  /\ consoleErrors
       (Demo.play [LightIndexSettled (Some Demo.viruses);
                   Change "spik"; Elapse 300;
                   Change "spike"; Elapse 300;
                   DeepIndexSettled 0 (Index Demo.proteins);
                   DeepIndexSettled 1 FetchRejected])
     = ["Deep search failed: TypeError: Failed to fetch"].
Proof. repeat split. Qed.


(** ** More about [src/utils/api.ts] *)

Lemma fetchJson_hit path reply w v :
  Api.cache w !! path = Some v -> truthy v = true ->
  Api.fetchJson path reply w = (w, Resolved v).
Proof.
  intros Hc Ht. unfold_fetchJson; unfold Api.cached. now rewrite Hc, Ht.
Qed.

Lemma fetchJson_step path reply w :
  let w1 := fst (Api.fetchJson path reply w) in
  (w1 = w
   \/ (Api.requests w1 = (Api.requests w ++ [path])%list
       /\ Api.cached path w = None
       /\ (Api.cache w1 = Api.cache w
           \/ exists data, Api.cache w1 = <[path := data]> (Api.cache w)))).
Proof.
  unfold_fetchJson. destruct (Api.cached path w) as [v|] eqn:Hc; simpl.
  - now left.
  - right. destruct reply as [r|]; simpl; [|auto].
    destruct (negb (Api.ok r)); simpl; [auto|].
    destruct (Api.body r) as [data|]; simpl; [|auto].
    split; [reflexivity | split; [reflexivity | right; eauto]].
Qed.

Lemma fetchJson_keeps path reply w p v :
  Api.cache w !! p = Some v -> truthy v = true ->
  Api.cache (fst (Api.fetchJson path reply w)) !! p = Some v
  /\ Api.requestsFor p (fst (Api.fetchJson path reply w)) = Api.requestsFor p w.
Proof.
  intros Hc Ht.
  destruct (fetchJson_step path reply w) as [-> | (Hreq & Hmiss & Hcache)];
    [auto|].
  assert (Hne : path <> p).
  { intros ->. unfold Api.cached in Hmiss. rewrite Hc, Ht in Hmiss.
    discriminate. }
  split.
  - destruct Hcache as [-> | (data & ->)]; [exact Hc|].
    now rewrite lookup_insert_ne.
  - unfold Api.requestsFor. rewrite Hreq, List.filter_app, length_app. simpl.
    replace (String.eqb p path) with false; [simpl; lia|].
    symmetry. apply String.eqb_neq. congruence.
Qed.

Lemma cached_hit path w v :
  Api.cache w !! path = Some v -> truthy v = true ->
  Api.fetchJson_begin path w = (w, Some v).
Proof.
  intros Hc Ht. unfold Api.fetchJson_begin, Api.cached. now rewrite Hc, Ht.
Qed.

Lemma cached_Some path w v :
  Api.cached path w = Some v -> Api.cache w !! path = Some v /\ truthy v = true.
Proof.
  unfold Api.cached. destruct (Api.cache w !! path) as [c|]; [|discriminate].
  destruct (truthy c) eqn:Ht; [|discriminate]. now intros [= <-].
Qed.

Lemma fetchJson_resume_cache path reply w p :
  p <> path ->
  Api.cache (fst (Api.fetchJson_resume path reply w)) !! p = Api.cache w !! p.
Proof.
  intros Hne. unfold Api.fetchJson_resume.
  destruct reply as [r|]; [|reflexivity].
  destruct (negb (Api.ok r)); [reflexivity|].
  destruct (Api.body r); [|reflexivity].
  simpl. now rewrite lookup_insert_ne.
Qed.

Lemma fetchJson_resume_requests path reply w :
  Api.requests (fst (Api.fetchJson_resume path reply w)) = Api.requests w.
Proof.
  unfold Api.fetchJson_resume.
  destruct reply as [r|]; [|reflexivity].
  destruct (negb (Api.ok r)); [reflexivity|].
  destruct (Api.body r); reflexivity.
Qed.

Lemma act_keeps (a : Api.Act) (ss : Api.Session) path v :
  Api.cache (Api.world ss) !! path = Some v -> truthy v = true ->
  path ∉ Api.awaiting ss ->
  Api.cache (Api.world (Api.act a ss)) !! path = Some v
  /\ Api.requestsFor path (Api.world (Api.act a ss))
     = Api.requestsFor path (Api.world ss)
  /\ (path ∉ Api.awaiting (Api.act a ss)).
Proof.
  intros Hc Ht Hout. destruct a as [p | k reply]; simpl.
  - unfold Api.fetchJson_begin.
    destruct (Api.cached p (Api.world ss)) as [c|] eqn:Hp; simpl; [auto|].
    assert (Hne : p <> path).
    { intros ->. unfold Api.cached in Hp. rewrite Hc, Ht in Hp.
      discriminate. }
    split; [exact Hc | split].
    + unfold Api.requestsFor. simpl. rewrite List.filter_app, length_app. simpl.
      replace (String.eqb path p) with false; [simpl; lia|].
      symmetry. apply String.eqb_neq. congruence.
    + rewrite not_elem_of_app, list_elem_of_singleton. split; congruence.
  - destruct (Api.awaiting ss !! k) as [p|] eqn:Hk; simpl; [|auto].
    assert (Hne : path <> p).
    { intros ->. apply Hout. eapply list_elem_of_lookup_2, Hk. }
    split; [|split].
    + now rewrite fetchJson_resume_cache.
    + unfold Api.requestsFor. now rewrite fetchJson_resume_requests.
    + intros Hin. apply Hout. eapply list_elem_of_delete_inv, Hin.
Qed.

(** X1: a cached value survives every interleaving.  Once a truthy
    value is cached for a path and no call for that path is suspended
    at its fetch, whatever calls and answers follow, in whatever order,
    the value stays cached, no further request for the path goes out,
    no call for it is ever suspended, and a call for the path resolves
    to the value without touching the network. *)
Theorem cached_value_survives path v (l : list Api.Act) (ss : Api.Session) :
  Api.cache (Api.world ss) !! path = Some v -> truthy v = true ->
  path ∉ Api.awaiting ss ->
  let ss' := Api.acts l ss in
  Api.cache (Api.world ss') !! path = Some v
  /\ Api.requestsFor path (Api.world ss') = Api.requestsFor path (Api.world ss)
  /\ (path ∉ Api.awaiting ss')
  /\ Api.fetchJson_begin path (Api.world ss') = (Api.world ss', Some v)
  /\ forall reply,
       Api.fetchJson path reply (Api.world ss') = (Api.world ss', Resolved v).
Proof.
  intros Hc Ht Hout ss'.
  assert (H : Api.cache (Api.world ss') !! path = Some v
              /\ Api.requestsFor path (Api.world ss')
                 = Api.requestsFor path (Api.world ss)
              /\ (path ∉ Api.awaiting ss')).
  { subst ss'. revert ss Hc Hout. unfold Api.acts.
    induction l as [|a l IH]; intros ss Hc Hout; simpl; [auto|].
    destruct (act_keeps a ss path v Hc Ht Hout) as (Hc1 & Hr1 & Ho1).
    destruct (IH _ Hc1 Ho1) as (Hc2 & Hr2 & Ho2).
    split; [exact Hc2 | split; [congruence | exact Ho2]]. }
  destruct H as (Hc' & Hr' & Ho').
  split; [exact Hc' | split; [exact Hr' | split; [exact Ho' | split]]].
  - now apply cached_hit.
  - intros reply. now apply fetchJson_hit.
Qed.

(** Without that condition the value does not survive: of two calls
    for one path that overlap, both send a request, and the answer that
    comes last is the one the cache keeps. *)
Lemma overlapping_calls_both_fetch :
  let ss := Api.acts
              [Api.Call "viruses.json"; Api.Call "viruses.json";
               Api.Answer 0 (Some (Api.mkResponse true "OK" (Some (JArray []))));
               Api.Answer 0 (Some (Api.mkResponse true "OK" (Some JNull)))]
              (Api.mkSession Api.initial []) in
  Api.requests (Api.world ss) = ["viruses.json"; "viruses.json"]
  /\ Api.cache (Api.world ss) !! "viruses.json" = Some JNull
  /\ Api.awaiting ss = [].
Proof. split; [|split]; reflexivity. Qed.

(** X2: a failure is not remembered.  When [fetchJson] rejects, one
    request went out, the cache is what it was, and the next call for
    the path asks the network again. *)
Theorem rejected_fetch_is_not_cached path reply w w1 reason :
  Api.fetchJson path reply w = (w1, Rejected reason) ->
  Api.cache w1 = Api.cache w
  /\ Api.requests w1 = (Api.requests w ++ [path])%list
  /\ forall reply2,
       Api.requests (fst (Api.fetchJson path reply2 w1))
       = (Api.requests w ++ [path; path])%list.
Proof.
  unfold_fetchJson. destruct (Api.cached path w) as [v|] eqn:Hc;
    [discriminate|].
  assert (Hretry : forall reply2,
            Api.requests
              (fst (Api.fetchJson path reply2
                      (Api.mkWorld (Api.cache w) (Api.requests w ++ [path]))))
            = (Api.requests w ++ [path; path])%list).
  { intros reply2. unfold_fetchJson.
    replace (Api.cached path (Api.mkWorld _ _)) with (Api.cached path w)
      by reflexivity.
    rewrite Hc. simpl. rewrite <- app_assoc. simpl.
    destruct reply2 as [r|]; simpl; [|reflexivity].
    destruct (negb (Api.ok r)); simpl; [reflexivity|].
    destruct (Api.body r); reflexivity. }
  destruct reply as [r|].
  - destruct (negb (Api.ok r)).
    + intros [= <- _]. simpl. auto.
    + destruct (Api.body r); [discriminate|].
      intros [= <- _]. simpl. auto.
  - intros [= <- _]. simpl. auto.
Qed.

Lemma hasId_true proteinId p :
  Api.hasId proteinId p = Some true ->
  exists members, p = JObject members
                  /\ Api.own members "id" = Some (JString proteinId).
Proof.
  destruct p as [|b|q|s|l|members]; simpl; try discriminate.
  destruct (Api.own members "id") as [[|b|q|s|l|ms]|] eqn:Hid; try discriminate.
  intros [= Heq%String.eqb_eq]. subst. eauto.
Qed.

Lemma findById_found proteinId elems p :
  Api.findById proteinId elems = Api.Returns (Some p) ->
  exists i, elems !! i = Some p
            /\ Api.hasId proteinId p = Some true
            /\ forall j e, j < i -> elems !! j = Some e ->
                           Api.hasId proteinId e = Some false.
Proof.
  induction elems as [|e elems IH]; simpl; [discriminate|].
  destruct (Api.hasId proteinId e) as [[|]|] eqn:He; [| |discriminate].
  - intros [= <-]. exists 0. repeat split; [exact He|]. intros j e' Hj. lia.
  - intros (i & Hi & Hp & Hbefore)%IH. exists (S i).
    repeat split; [exact Hi | exact Hp |].
    intros [|j] e' Hj; simpl; [now intros [= <-]|].
    apply Hbefore. lia.
Qed.

Lemma fetchJson_result_keeps path reply w w1 r p v :
  Api.fetchJson path reply w = (w1, r) ->
  Api.cache w !! p = Some v -> truthy v = true ->
  Api.cache w1 !! p = Some v.
Proof.
  intros E Hc Ht.
  replace w1 with (fst (Api.fetchJson path reply w)) by (now rewrite E).
  now apply fetchJson_keeps.
Qed.

(** X3: what [findProteinById] returns is what it was asked for.  A
    result other than [null] carries the first element of the virus's
    protein file whose [id] is the requested one, and the [virusId] the
    index gives for that id; both files are in the cache afterwards. *)
Theorem found_protein_is_first_match proteinId reply1 reply2 w w' found :
  Api.findProteinById proteinId reply1 reply2 w
  = (w', Api.Returns (Some found)) ->
  exists members text elems i fields,
    Api.cache w' !! "proteins/index.json" = Some (JObject members)
    /\ Api.virusId found = Api.readVirusId (Api.readKey members proteinId)
    /\ Api.templateText (Api.virusId found) = Some text
    /\ Api.cache w' !! ("proteins/" ++ text ++ ".json") = Some (JArray elems)
    /\ elems !! i = Some (Api.protein found)
    /\ Api.protein found = JObject fields
    /\ Api.own fields "id" = Some (JString proteinId)
    /\ forall j e, j < i -> elems !! j = Some e ->
                   Api.hasId proteinId e = Some false.
Proof.
  unfold Api.findProteinById, Api.fetchProteinIndex, Api.fetchVirusProteins.
  destruct (Api.fetchJson "proteins/index.json" reply1 w)
    as [w1 [index|reason]] eqn:E1; [|discriminate].
  destruct index as [|b|q|s|l|members]; try discriminate.
  pose proof (fetchJson_resolved_cached _ _ _ _ _ E1) as Hindex.
  destruct (negb (Api.truthyValue (Api.readKey members proteinId)));
    [discriminate|].
  destruct (Api.templateText (Api.readVirusId (Api.readKey members proteinId)))
    as [text|] eqn:Htext; [|discriminate].
  destruct (Api.fetchJson ("proteins/" ++ text ++ ".json") reply2 w1)
    as [w2 [proteins|reason]] eqn:E2; [|discriminate].
  destruct proteins as [|b|q|s|elems|ms]; try discriminate.
  pose proof (fetchJson_resolved_cached _ _ _ _ _ E2) as Hfile.
  destruct (Api.findById proteinId elems) as [[p|]|reason|] eqn:Hfind;
    try discriminate.
  intros [= <- <-]. simpl.
  destruct (findById_found _ _ _ Hfind) as (i & Hi & Hp & Hbefore).
  destruct (hasId_true _ _ Hp) as (fields & -> & Hid).
  exists members, text, elems, i, fields.
  repeat split; auto.
  eapply fetchJson_result_keeps; eauto.
Qed.

(** *** Lookups that overlap with other calls *)


Lemma isProteinPath_virus text :
  isProteinPath ("proteins/" ++ text ++ ".json") = true.
Proof. unfold isProteinPath. simpl. destruct text; reflexivity. Qed.


(** What the other callers do leaves the files under [proteins/]
    alone. *)
Lemma theirs_keeps (a : Api.Act) (ss : Api.Session) :
  Forall (fun path => isProteinPath path = false) (Api.awaiting ss) ->
  offProteins (Api.Theirs a) ->
  Forall (fun path => isProteinPath path = false) (Api.awaiting (Api.act a ss))
  /\ (forall q, isProteinPath q = true ->
                Api.cache (Api.world (Api.act a ss)) !! q
                = Api.cache (Api.world ss) !! q)
  /\ proteinRequests (Api.world (Api.act a ss))
     = proteinRequests (Api.world ss).
Proof.
  intros Haw Ha. destruct a as [p | k reply]; simpl in *.
  - unfold Api.fetchJson_begin.
    destruct (Api.cached p (Api.world ss)); simpl; [auto|].
    split; [|split].
    + apply Forall_app. split; [exact Haw|].
      constructor; [exact Ha | constructor].
    + reflexivity.
    + unfold proteinRequests. simpl. rewrite List.filter_app. simpl.
      rewrite Ha. apply app_nil_r.
  - destruct (Api.awaiting ss !! k) as [p|] eqn:Hk; simpl; [|auto].
    pose proof (Forall_lookup_1 _ _ _ _ Haw Hk) as Hp. simpl in Hp.
    split; [now apply Forall_delete | split].
    + intros q Hq. apply fetchJson_resume_cache. intros ->. congruence.
    + unfold proteinRequests. now rewrite fetchJson_resume_requests.
Qed.













(** [findProteinById] taken alone is the lookup with no other caller
    in between. *)
Lemma lookup_alone proteinId reply1 reply2 (w : Api.World) (l : list string) :
  Api.lookup proteinId
    [Api.Mine reply1; Api.Mine reply2; Api.Mine reply2; Api.Mine reply2]
    (Api.mkSession w l)
  = (Api.mkSession (fst (Api.findProteinById proteinId reply1 reply2 w)) l,
     Api.Ended (snd (Api.findProteinById proteinId reply1 reply2 w))).
Proof.
  unfold Api.lookup, Api.lookup_begin, Api.findProteinById,
    Api.fetchProteinIndex, Api.fetchVirusProteins, Api.fetchJson.
  simpl.
  destruct (Api.fetchJson_begin "proteins/index.json" w) as [w0 [index|]];
    simpl.
  - destruct index as [|b|q|t|elems|members]; simpl; try reflexivity.
    destruct (negb (Api.truthyValue (Api.readKey members proteinId))); simpl;
      [reflexivity|].
    destruct (Api.templateText
                (Api.readVirusId (Api.readKey members proteinId)))
      as [text|]; simpl; [|reflexivity].
    destruct (Api.fetchJson_begin ("proteins/" ++ text ++ ".json") w0)
      as [w1 [proteins|]]; simpl.
    + destruct proteins as [|b|q|t|elems|ms]; simpl; try reflexivity.
      destruct (Api.findById proteinId elems) as [[p|]|reason|]; reflexivity.
    + destruct (Api.fetchJson_resume ("proteins/" ++ text ++ ".json") reply2 w1)
        as [w2 [proteins|reason]]; simpl; [|reflexivity].
      destruct proteins as [|b|q|t|elems|ms]; simpl; try reflexivity.
      destruct (Api.findById proteinId elems) as [[p|]|reason|]; reflexivity.
  - destruct (Api.fetchJson_resume "proteins/index.json" reply1 w0)
      as [w1 [index|reason]]; simpl; [|reflexivity].
    destruct index as [|b|q|t|elems|members]; simpl; try reflexivity.
    destruct (negb (Api.truthyValue (Api.readKey members proteinId))); simpl;
      [reflexivity|].
    destruct (Api.templateText
                (Api.readVirusId (Api.readKey members proteinId)))
      as [text|]; simpl; [|reflexivity].
    destruct (Api.fetchJson_begin ("proteins/" ++ text ++ ".json") w1)
      as [w2 [proteins|]]; simpl.
    + destruct proteins as [|b|q|t|elems|ms]; simpl; try reflexivity.
      destruct (Api.findById proteinId elems) as [[p|]|reason|]; reflexivity.
    + destruct (Api.fetchJson_resume ("proteins/" ++ text ++ ".json") reply2 w2)
        as [w3 [proteins|reason]]; simpl; [|reflexivity].
      destruct proteins as [|b|q|t|elems|ms]; simpl; try reflexivity.
      destruct (Api.findById proteinId elems) as [[p|]|reason|]; reflexivity.
Qed.


Lemma thrifty_cases (extra : list string) (text : string) :
  extra = [] \/ extra = ["proteins/index.json"]
  \/ extra = ["proteins/" ++ text ++ ".json"]
  \/ extra = ["proteins/index.json"; "proteins/" ++ text ++ ".json"] ->
  thrifty extra.
Proof.
  intros [-> | [-> | [-> | ->]]]; (split; [simpl; lia | split]);
    try discriminate; try reflexivity.
  - intros p [].
  - intros p [<- | []]. now exists "index".
  - intros p [<- | []]. now exists text.
  - intros p [<- | [<- | []]]; [now exists "index" | now exists text].
Qed.

Lemma frugal_ext w0 phase w w' :
  (forall q, isProteinPath q = true -> Api.cache w' !! q = Api.cache w !! q) ->
  proteinRequests w' = proteinRequests w ->
  frugal w0 phase w -> frugal w0 phase w'.
Proof.
  intros Hsame Hreq [Hkeep (extra & Hextra & H)]. split.
  - intros p v Hp Hc Ht. rewrite Hsame by exact Hp. now apply Hkeep.
  - exists extra. split; [congruence | exact H].
Qed.

Lemma begin_frugal (w : Api.World) :
  frugal w (snd (Api.lookup_begin w)) (fst (Api.lookup_begin w)).
Proof.
  unfold Api.lookup_begin, Api.fetchJson_begin.
  destruct (Api.cached "proteins/index.json" w) as [index|] eqn:Hc; simpl.
  - split; [auto|]. exists []. rewrite app_nil_r. auto.
  - split; [auto|]. exists ["proteins/index.json"].
    unfold proteinRequests. simpl. rewrite List.filter_app. auto.
Qed.

Lemma resume_frugal proteinId reply w0 phase w :
  frugal w0 phase w ->
  frugal w0 (snd (Api.lookup_resume proteinId reply phase w))
    (fst (Api.lookup_resume proteinId reply phase w)).
Proof.
  intros [Hkeep (extra & Hextra & H)].
  destruct phase as [|index|info text|info proteins|outcome]; simpl.
  - destruct H as [-> Hmiss].
    assert (Hk : forall p v, isProteinPath p = true ->
                   Api.cache w0 !! p = Some v -> truthy v = true ->
                   Api.cache
                     (fst (Api.fetchJson_resume "proteins/index.json" reply w))
                   !! p = Some v).
    { intros p v Hp Hc Ht. rewrite fetchJson_resume_cache; [eauto|].
      intros ->. unfold Api.cached in Hmiss. rewrite Hc, Ht in Hmiss.
      discriminate. }
    pose proof (fetchJson_resume_requests "proteins/index.json" reply w) as Hr.
    destruct (Api.fetchJson_resume "proteins/index.json" reply w)
      as [w1 [index|reason]]; simpl in *.
    + split; [exact Hk|]. exists ["proteins/index.json"].
      unfold proteinRequests in *. rewrite Hr. auto.
    + split; [exact Hk|]. exists ["proteins/index.json"].
      unfold proteinRequests in *. rewrite Hr. split; [exact Hextra|].
      apply (thrifty_cases _ ""). auto.
  - assert (Hend : forall outcome, frugal w0 (Api.Ended outcome) w).
    { intros outcome. split; [exact Hkeep|]. exists extra.
      split; [exact Hextra|]. apply (thrifty_cases _ ""). tauto. }
    destruct index as [|b|q|t|l|members]; simpl; auto.
    destruct (negb (Api.truthyValue (Api.readKey members proteinId))); simpl;
      auto.
    destruct (Api.templateText
                (Api.readVirusId (Api.readKey members proteinId)))
      as [text|]; simpl; auto.
    unfold Api.fetchJson_begin.
    destruct (Api.cached ("proteins/" ++ text ++ ".json") w)
      as [proteins|] eqn:Hfile; simpl.
    + split; [exact Hkeep|]. exists extra. split; [exact Hextra|].
      apply (thrifty_cases _ ""). tauto.
    + split; [exact Hkeep|]. exists (extra ++ [("proteins/" ++ text ++ ".json")%string])%list.
      split; [|split].
      * unfold proteinRequests in *. simpl. rewrite List.filter_app, Hextra.
        simpl. rewrite isProteinPath_virus. now rewrite <- app_assoc.
      * destruct H as [-> | ->]; auto.
      * destruct (Api.cached ("proteins/" ++ text ++ ".json") w0)
          as [v|] eqn:H0; [|reflexivity].
        apply cached_Some in H0. destruct H0 as [Hc Ht].
        apply Hkeep in Hc; [|apply isProteinPath_virus | exact Ht].
        unfold Api.cached in Hfile. rewrite Hc, Ht in Hfile. discriminate.
  - destruct H as [Hshape Hmiss].
    assert (Hk : forall p v, isProteinPath p = true ->
                   Api.cache w0 !! p = Some v -> truthy v = true ->
                   Api.cache
                     (fst (Api.fetchJson_resume
                             ("proteins/" ++ text ++ ".json") reply w))
                   !! p = Some v).
    { intros p v Hp Hc Ht. rewrite fetchJson_resume_cache; [eauto|].
      intros ->. unfold Api.cached in Hmiss. rewrite Hc, Ht in Hmiss.
      discriminate. }
    pose proof (fetchJson_resume_requests
                  ("proteins/" ++ text ++ ".json") reply w) as Hr.
    destruct (Api.fetchJson_resume ("proteins/" ++ text ++ ".json") reply w)
      as [w1 [data|reason]]; simpl in *;
      (split; [exact Hk|]); exists extra; unfold proteinRequests in *;
      rewrite Hr; (split; [exact Hextra|]); apply (thrifty_cases _ text); tauto.
  - split; [exact Hkeep|]. exists extra. auto.
  - split; [exact Hkeep|]. exists extra. auto.
Qed.

Lemma turns_frugal proteinId w0 (turns : list Api.Turn) :
  forall st : Api.Session * Api.Phase,
    Forall (fun path => isProteinPath path = false) (Api.awaiting (fst st)) ->
    Forall offProteins turns ->
    frugal w0 (snd st) (Api.world (fst st)) ->
    let st' := fold_left (fun st t => Api.turn proteinId t st) turns st in
    frugal w0 (snd st') (Api.world (fst st')).
Proof.
  induction turns as [|t turns IH]; intros st Haw Hoff Hf; simpl; [auto|].
  inversion Hoff as [|? ? Ht Hrest]; subst.
  apply IH; [| exact Hrest |]; destruct t as [reply | a]; simpl.
  - destruct (Api.lookup_resume proteinId reply (snd st) (Api.world (fst st)));
      exact Haw.
  - now destruct (theirs_keeps a (fst st) Haw Ht).
  - pose proof (resume_frugal proteinId reply _ _ _ Hf) as H.
    destruct (Api.lookup_resume proteinId reply (snd st) (Api.world (fst st)));
      exact H.
  - destruct (theirs_keeps a (fst st) Haw Ht) as (_ & Hsame & Hreq).
    eapply frugal_ext; eauto.
Qed.

(** X5: [findProteinById] sends at most two requests, each for a file
    [proteins/....json], and of two the first for the index; and while
    the other callers keep off the files under [proteins/], no truthy
    entry for such a file that was cached when the lookup began is lost
    or replaced, however the lookup is interleaved with their calls and
    answers.  (Lookups that leave the declared types, [Untyped], are
    left out.) *)
Theorem lookup_sends_at_most_two_requests proteinId turns ss :
  apart ss turns ->
  let st := Api.lookup proteinId turns ss in
  snd st <> Api.Ended Api.Untyped ->
  (exists extra,
      proteinRequests (Api.world (fst st))
      = (proteinRequests (Api.world ss) ++ extra)%list
      /\ length extra <= 2
      /\ (forall p, In p extra ->
                    exists text, p = "proteins/" ++ text ++ ".json")
      /\ (length extra = 2 -> extra !! 0 = Some "proteins/index.json"))
  /\ forall p v, isProteinPath p = true ->
                 Api.cache (Api.world ss) !! p = Some v -> truthy v = true ->
                 Api.cache (Api.world (fst st)) !! p = Some v.
Proof.
  intros [Haw Hoff] st _.
  assert (Hf : frugal (Api.world ss) (snd st) (Api.world (fst st))).
  { subst st. unfold Api.lookup.
    pose proof (begin_frugal (Api.world ss)) as Hb.
    destruct (Api.lookup_begin (Api.world ss)) as [w phase].
    now apply turns_frugal. }
  destruct Hf as [Hkeep (extra & Hextra & H)].
  split; [|exact Hkeep].
  exists extra. split; [exact Hextra|].
  destruct (snd st) as [|index|info text|info proteins|outcome]; try exact H.
  - destruct H as [-> _]. apply (thrifty_cases _ ""). tauto.
  - apply (thrifty_cases _ ""). tauto.
  - destruct H as [H _]. apply (thrifty_cases _ text). tauto.
Qed.


(** ** The [ProteinDetail] page *)

Section Coverage.

Import TilePosition ProteinDetail.

Ltac zcases :=
  repeat match goal with
         | |- context [(?a <=? ?b)%Z] => destruct (Z.leb_spec a b)
         | |- context [(?a <? ?b)%Z] => destruct (Z.ltb_spec a b)
         end;
  simpl; try lia.

#[local] Arguments Z.leb : simpl never.
#[local] Arguments Z.ltb : simpl never.
#[local] Arguments Z.add : simpl never.
#[local] Arguments Z.of_nat : simpl never.

Lemma bump_length rounds : forall i depth,
  length (bump rounds i depth) = length depth.
Proof.
  induction rounds as [|n IH]; intros i depth; simpl; [reflexivity|].
  rewrite IH. destruct (i <? 0)%Z; [reflexivity | apply length_alter].
Qed.

Lemma bump_lookup rounds : forall i depth j d,
  depth !! j = Some d ->
  bump rounds i depth !! j
  = Some (d + (if (i <=? Z.of_nat j)%Z && (Z.of_nat j <? i + Z.of_nat rounds)%Z
               then 1 else 0))%Z.
Proof.
  induction rounds as [|n IH]; intros i depth j d Hj.
  - cbn [bump]. rewrite Hj. f_equal. zcases.
  - cbn [bump].
    destruct (Z.ltb_spec i 0) as [Hneg | Hneg].
    + rewrite (IH _ _ _ _ Hj). f_equal. zcases.
    + destruct (decide (Z.to_nat i = j)) as [Heq | Hne].
      * rewrite (IH _ _ j (Z.succ d)).
        -- f_equal. zcases.
        -- subst j. rewrite list_lookup_alter_eq, Hj. reflexivity.
      * rewrite (IH _ _ j d) by (now rewrite list_lookup_alter_ne).
        f_equal. zcases.
Qed.

Lemma cover_lookup len depth tile j d :
  (Z.of_nat j < len)%Z -> depth !! j = Some d ->
  cover len depth tile !! j
  = Some (d + (if (start tile <=? Z.of_nat j)%Z && (Z.of_nat j <? end_ tile)%Z
               then 1 else 0))%Z.
Proof.
  intros Hlen Hj. unfold cover. rewrite (bump_lookup _ _ _ _ _ Hj).
  f_equal. zcases.
Qed.

Lemma cover_all_lookup len tiles : forall depth j d,
  (Z.of_nat j < len)%Z -> depth !! j = Some d ->
  fold_left (cover len) tiles depth !! j
  = Some (d + covering (Z.of_nat j) tiles)%Z.
Proof.
  induction tiles as [|tile tiles IH]; intros depth j d Hlen Hj; simpl.
  - rewrite Hj. unfold covering. simpl. f_equal. lia.
  - rewrite (IH _ j _ Hlen (cover_lookup len depth tile j d Hlen Hj)).
    f_equal. unfold covering. simpl.
    destruct ((start tile <=? Z.of_nat j)%Z && (Z.of_nat j <? end_ tile)%Z);
      simpl; lia.
Qed.

Lemma cover_all_length len tiles : forall depth,
  length (fold_left (cover len) tiles depth) = length depth.
Proof.
  induction tiles as [|tile tiles IH]; intros depth; simpl; [reflexivity|].
  rewrite IH. apply bump_length.
Qed.

Lemma maxDepth_bounds depth :
  (1 <= maxDepth depth)%Z /\ forall d, In d depth -> (d <= maxDepth depth)%Z.
Proof.
  unfold maxDepth. induction depth as [|x depth [IH1 IH2]]; simpl.
  - split; [lia | tauto].
  - split; [lia|]. intros d [<- | Hin]; [lia|]. specialize (IH2 d Hin). lia.
Qed.

Lemma maxDepth_le depth bound :
  (1 <= bound)%Z -> (forall d, In d depth -> (d <= bound)%Z) ->
  (maxDepth depth <= bound)%Z.
Proof.
  unfold maxDepth. intros Hb. induction depth as [|x depth IH]; simpl;
    intros H; [exact Hb|].
  apply Z.max_lub; [apply H; now left | apply IH; intros d Hd; apply H; now right].
Qed.

Lemma covering_le i tiles : (0 <= covering i tiles <= Z.of_nat (length tiles))%Z.
Proof.
  unfold covering. pose proof (List.filter_length_le
    (fun tile => (start tile <=? i)%Z && (i <? end_ tile)%Z) tiles). lia.
Qed.

(** X16: the coverage chart counts tiles.  For a protein of
    non-negative length, [coverageDepth] has one entry per residue, the
    entry at position [j] being the number of tiles with [start <= j <
    end]; tiles or parts of tiles outside the protein change nothing;
    [maxDepth] is at least 1, bounds every entry and is at most the
    number of tiles (or 1). *)
Theorem coverage_depth_counts_tiles (len : Z) (tiles : list t) :
  (0 <= len)%Z ->
  exists depth,
    coverageDepth len tiles = Some depth
    /\ length depth = Z.to_nat len
    /\ (forall j, j < Z.to_nat len ->
          depth !! j = Some (covering (Z.of_nat j) tiles))
    /\ (1 <= maxDepth depth)%Z
    /\ (forall d, In d depth -> (d <= maxDepth depth)%Z)
    /\ (maxDepth depth <= Z.max 1 (Z.of_nat (length tiles)))%Z.
Proof.
  intros Hlen. unfold coverageDepth.
  replace (len <? 0)%Z with false by (symmetry; apply Z.ltb_ge; lia).
  eexists. split; [reflexivity|].
  assert (Hcount : forall j, j < Z.to_nat len ->
            fold_left (cover len) tiles (replicate (Z.to_nat len) 0%Z) !! j
            = Some (covering (Z.of_nat j) tiles)).
  { intros j Hj.
    rewrite (cover_all_lookup len tiles _ j 0%Z); [f_equal; lia | lia |].
    now apply lookup_replicate_2. }
  split; [now rewrite cover_all_length, length_replicate|].
  split; [exact Hcount|].
  split; [apply (proj1 (maxDepth_bounds _))|].
  split; [apply (proj2 (maxDepth_bounds _))|].
  apply maxDepth_le; [lia|].
  intros d Hd%list_elem_of_In%list_elem_of_lookup. destruct Hd as [j Hj].
  assert (Hjlen : j < Z.to_nat len).
  { apply lookup_lt_Some in Hj.
    now rewrite cover_all_length, length_replicate in Hj. }
  rewrite (Hcount j Hjlen) in Hj. injection Hj as <-.
  pose proof (covering_le (Z.of_nat j) tiles). lia.
Qed.

(** X17: the tile filter splits the tiles.  [all] shows every tile;
    the [shared] and [unique] views are disjoint, keep the order of the
    tiles and together hold each tile once, so the two counts shown add
    up to the number of tiles. *)
Theorem tile_filters_split_the_tiles (tiles : list t) :
  filteredTiles all tiles = tiles
  /\ filteredTiles shared tiles ++ filteredTiles unique tiles ≡ₚ tiles
  /\ sharedCount tiles + uniqueCount tiles = length tiles
  /\ (forall tile, In tile (filteredTiles shared tiles) <->
                   In tile tiles /\ isShared tile = true)
  /\ (forall tile, In tile (filteredTiles unique tiles) <->
                   In tile tiles /\ isShared tile = false)
  /\ filteredTiles shared tiles `sublist_of` tiles
  /\ filteredTiles unique tiles `sublist_of` tiles.
Proof.
  split; [reflexivity|].
  assert (Hperm : List.filter isShared tiles
                  ++ List.filter (fun tile => negb (isShared tile)) tiles
                  ≡ₚ tiles).
  { induction tiles as [|tile tiles IH]; simpl; [reflexivity|].
    destruct (isShared tile); simpl.
    - now rewrite IH.
    - rewrite <- Permutation_middle. now rewrite IH. }
  split; [exact Hperm|].
  split.
  { unfold sharedCount, uniqueCount. rewrite <- length_app.
    now rewrite Hperm. }
  split; [intros tile; simpl; apply filter_In|].
  split.
  { intros tile. simpl. rewrite filter_In, negb_true_iff. reflexivity. }
  clear Hperm. split; simpl.
  - induction tiles as [|tile tiles IH]; simpl; [constructor|].
    destruct (isShared tile); simpl;
      [apply sublist_skip | apply sublist_cons]; exact IH.
  - induction tiles as [|tile tiles IH]; simpl; [constructor|].
    destruct (isShared tile); simpl;
      [apply sublist_cons | apply sublist_skip]; exact IH.
Qed.

End Coverage.


(** ** The [TileTrack] component *)

Section Rows.

Import TilePosition TileTrack.

Local Open Scope list_scope.

Lemma insertByStart_perm tile sorted : insertByStart tile sorted ≡ₚ tile :: sorted.
Proof.
  induction sorted as [|other rest IH]; simpl; [reflexivity|].
  destruct (start tile <=? start other)%Z; [reflexivity|].
  rewrite IH. apply Permutation_swap.
Qed.

Lemma sortByStart_perm tiles : sortByStart tiles ≡ₚ tiles.
Proof.
  induction tiles as [|tile tiles IH]; simpl; [reflexivity|].
  now rewrite insertByStart_perm, IH.
Qed.

Lemma insertByStart_sorted tile sorted :
  StronglySorted (fun a b => (start a <= start b)%Z) sorted ->
  StronglySorted (fun a b => (start a <= start b)%Z) (insertByStart tile sorted).
Proof.
  induction 1 as [|other rest Hrest IH Hall]; simpl; [repeat constructor|].
  destruct (Z.leb_spec (start tile) (start other)) as [Hle | Hgt].
  - constructor; [now constructor|].
    constructor; [exact Hle|].
    eapply Forall_impl; [exact Hall|]. simpl. intros b Hb. lia.
  - constructor; [exact IH|].
    rewrite insertByStart_perm. constructor; [lia | exact Hall].
Qed.

Lemma sortByStart_sorted tiles :
  StronglySorted (fun a b => (start a <= start b)%Z) (sortByStart tiles).
Proof.
  induction tiles as [|tile tiles IH]; simpl; [constructor|].
  now apply insertByStart_sorted.
Qed.

Lemma Sorted_snoc (R : t -> t -> Prop) init x y :
  Sorted R (init ++ [x]) -> R x y -> Sorted R (init ++ [x; y]).
Proof.
  intros Hs Hxy. induction init as [|a init IH]; simpl in *.
  - repeat constructor. exact Hxy.
  - inversion Hs as [|? ? Hrest Hhd]; subst. constructor; [now apply IH|].
    destruct init; simpl in *; inversion Hhd; subst; now constructor.
Qed.

Lemma StronglySorted_snoc (R : t -> t -> Prop) row y :
  StronglySorted R row -> Forall (fun a => R a y) row ->
  StronglySorted R (row ++ [y]).
Proof.
  induction 1 as [|a row Hrow IH Hall]; intros Hy; simpl.
  - repeat constructor.
  - inversion Hy; subst. constructor; [now apply IH|].
    apply Forall_app. split; [exact Hall | now constructor].
Qed.

Lemma place_cases tile rows :
  Forall (fun row => row <> []) rows ->
  (exists pre row post lastTile,
      rows = pre ++ row :: post
      /\ place tile rows = Pushed (pre ++ (row ++ [tile]) :: post)
      /\ last row = Some lastTile
      /\ separated lastTile tile)
  \/ (place tile rows = NotPlaced
      /\ forall row, row ∈ rows ->
           exists lastTile, last row = Some lastTile
                            /\ (start tile <= end_ lastTile)%Z).
Proof.
  induction 1 as [|row rest Hrow Hrest IH]; simpl.
  - right. split; [reflexivity|]. intros row Hin. inversion Hin.
  - destruct (last row) as [lastTile|] eqn:Hlast.
    + destruct (Z.ltb_spec (end_ lastTile) (start tile)) as [Hlt | Hge].
      * left. exists [], row, rest, lastTile. repeat split; auto.
      * destruct IH as [(pre & row' & post & l' & -> & -> & Hl' & Hsep)
                       | [-> Hall]].
        -- left. exists (row :: pre), row', post, l'. repeat split; auto.
        -- right. split; [reflexivity|].
           intros r [-> | Hin]%elem_of_cons; [eauto | now apply Hall].
    + apply last_None in Hlast. contradiction.
Qed.

Lemma lasts_submseteq (rows : list (list t)) :
  omap last rows ⊆+ concat rows.
Proof.
  induction rows as [|row rows IH]; simpl; [reflexivity|].
  destruct (last row) as [lastTile|] eqn:Hlast.
  - apply last_Some in Hlast as [init ->].
    rewrite <- app_assoc. simpl.
    rewrite <- Permutation_middle. apply submseteq_skip.
    now apply submseteq_inserts_l.
  - now apply submseteq_inserts_l.
Qed.

Lemma lasts_length (rows : list (list t)) :
  Forall (fun row => row <> []) rows -> length (omap last rows) = length rows.
Proof.
  induction 1 as [|row rows Hrow Hrows IH]; [reflexivity|].
  change (omap last (row :: rows))
    with (match last row with
          | Some l => l :: omap last rows
          | None => omap last rows
          end).
  destruct (last row) eqn:Hlast; [simpl; f_equal; exact IH|].
  apply last_None in Hlast. contradiction.
Qed.

Lemma row_in_concat (rows : list (list t)) row tile :
  row ∈ rows -> tile ∈ row -> tile ∈ concat rows.
Proof.
  intros Hrow Htile. apply list_elem_of_In, in_concat.
  exists row. split; now apply list_elem_of_In.
Qed.

Lemma addTile_packed rows done tile :
  packed rows done ->
  (forall d, d ∈ done -> (start d <= start tile)%Z) ->
  exists rows', addTile (Some rows) tile = Some rows'
                /\ packed rows' (done ++ [tile]).
Proof.
  intros (Hne & Hperm & Hsorted & Hwf) Hbound. simpl.
  destruct (place_cases tile rows Hne)
    as [(pre & row & post & lastTile & -> & -> & Hlast & Hsep) | [-> Hall]].
  - eexists. split; [reflexivity|].
    assert (Hlastin : lastTile ∈ done).
    { rewrite <- Hperm. apply (row_in_concat _ row).
      - apply elem_of_app. right. now left.
      - now apply last_Some_elem_of. }
    apply Forall_app in Hne as [Hne1 Hne2].
    apply Forall_cons in Hne2 as [_ Hne2].
    apply Forall_app in Hsorted as [Hs1 Hs2].
    apply Forall_cons in Hs2 as [Hsrow Hs2].
    assert (Hconcat : concat (pre ++ (row ++ [tile]) :: post)
                      ≡ₚ concat (pre ++ row :: post) ++ [tile]).
    { rewrite !concat_app, !concat_cons, <- !app_assoc.
      do 2 apply Permutation_app_head.
      apply (Permutation_app_comm [tile] (concat post)). }
    split; [|split; [|split]].
    + apply Forall_app. split; [exact Hne1|].
      constructor; [|exact Hne2]. now destruct row.
    + now rewrite Hconcat, Hperm.
    + apply Forall_app. split; [exact Hs1|].
      constructor; [|exact Hs2].
      apply last_Some in Hlast as [init ->].
      rewrite <- app_assoc. simpl. now apply Sorted_snoc.
    + intros Hwf'. apply Forall_app in Hwf' as [Hwfd Hwft].
      destruct (Hwf Hwfd) as (Hss & x & clique & Hlen & Hsub & Hcov).
      split.
      * apply Forall_app in Hss as [Hss1 Hss2].
        apply Forall_cons in Hss2 as [Hssrow Hss2].
        apply Forall_app. split; [exact Hss1|].
        constructor; [|exact Hss2].
        apply StronglySorted_snoc; [exact Hssrow|].
        assert (Hwfl : wellFormed lastTile).
        { rewrite Forall_forall in Hwfd. now apply Hwfd. }
        apply last_Some in Hlast as [init ->].
        apply Forall_app. split; [|constructor; [exact Hsep | constructor]].
        clear -Hssrow Hwfl Hsep. unfold separated, wellFormed in *.
        induction init as [|a init IH]; simpl in *; [constructor|].
        inversion Hssrow as [|? ? Hrest Hall]; subst.
        constructor; [|now apply IH].
        apply Forall_app in Hall as [_ Hl]. inversion Hl; subst. lia.
      * exists x, clique. rewrite !length_app in *. simpl in *.
        split; [lia|]. split; [now apply submseteq_inserts_r | exact Hcov].
  - eexists. split; [reflexivity|].
    split; [|split; [|split]].
    + apply Forall_app. split; [exact Hne | repeat constructor; discriminate].
    + rewrite concat_app, Hperm. reflexivity.
    + apply Forall_app. split; [exact Hsorted | repeat constructor].
    + intros Hwf'. apply Forall_app in Hwf' as [Hwfd Hwft].
      destruct (Hwf Hwfd) as (Hss & _).
      split; [apply Forall_app; split; [exact Hss | repeat constructor]|].
      exists (start tile), (tile :: omap last rows).
      split; [|split].
      * simpl. rewrite length_app, lasts_length by exact Hne. simpl. lia.
      * rewrite <- Permutation_cons_append. apply submseteq_skip.
        rewrite <- Hperm. apply lasts_submseteq.
      * constructor.
        -- inversion Hwft; subst. unfold covers, wellFormed in *. lia.
        -- apply Forall_forall. intros l Hl.
           apply list_elem_of_omap in Hl as (row & Hrow & Hlast).
           destruct (Hall row Hrow) as (l' & Hl' & Hend).
           rewrite Hlast in Hl'. injection Hl' as <-.
           unfold covers. split; [|exact Hend].
           apply Hbound. rewrite <- Hperm.
           apply (row_in_concat _ row); [exact Hrow|].
           now apply last_Some_elem_of.
Qed.

Lemma fold_packed sorted : forall rows done,
  packed rows done ->
  StronglySorted (fun a b => (start a <= start b)%Z) sorted ->
  (forall d tile, d ∈ done -> tile ∈ sorted -> (start d <= start tile)%Z) ->
  exists rows', fold_left addTile sorted (Some rows) = Some rows'
                /\ packed rows' (done ++ sorted).
Proof.
  induction sorted as [|tile sorted IH]; intros rows done Hp Hs Hb.
  - exists rows. rewrite app_nil_r. auto.
  - inversion Hs as [|? ? Hrest Hall]; subst.
    destruct (addTile_packed rows done tile Hp) as (rows1 & Hadd & Hp1).
    { intros d Hd. apply Hb; [exact Hd | now left]. }
    cbn [fold_left]. rewrite Hadd.
    destruct (IH rows1 (done ++ [tile]) Hp1 Hrest) as (rows' & Hfold & Hp').
    { intros d tile' [Hd | Hd]%elem_of_app Ht.
      - apply Hb; [exact Hd | now right].
      - apply list_elem_of_singleton in Hd. subst d.
        rewrite Forall_forall in Hall. now apply Hall. }
    exists rows'. split; [exact Hfold|].
    now rewrite <- app_assoc in Hp'.
Qed.

Lemma tileRows_packed tiles :
  exists rows, tileRows tiles = Some rows /\ packed rows tiles.
Proof.
  destruct (fold_packed (sortByStart tiles) [] [])
    as (rows & Hfold & Hne & Hperm & Hsorted & Hwf).
  - split; [constructor|]. split; [reflexivity|]. split; [constructor|].
    intros _. split; [constructor|]. exists 0%Z, [].
    split; [reflexivity|]. split; [reflexivity | constructor].
  - apply sortByStart_sorted.
  - intros d tile Hd. inversion Hd.
  - exists rows. split; [exact Hfold|].
    simpl in *. split; [exact Hne|].
    split; [now rewrite Hperm, sortByStart_perm|].
    split; [exact Hsorted|].
    intros Hwft.
    destruct Hwf as (Hss & x & clique & Hlen & Hsub & Hcov).
    { now rewrite sortByStart_perm. }
    split; [exact Hss|]. exists x, clique.
    repeat split; auto. now rewrite <- (sortByStart_perm tiles).
Qed.

(** X18: the rows hold every tile once and no row is in conflict.
    [tileRows] never throws (no row is ever empty); the rows together
    are a rearrangement of the tiles; there are no more rows than
    tiles; and in every row each tile ends before the next one
    starts. *)
Theorem tile_rows_partition_the_tiles (tiles : list t) :
  exists rows,
    tileRows tiles = Some rows
    /\ concat rows ≡ₚ tiles
    /\ Forall (fun row => row <> []) rows
    /\ length rows <= length tiles
    /\ Forall (Sorted separated) rows.
Proof.
  destruct (tileRows_packed tiles) as (rows & Hrows & Hne & Hperm & Hsorted & _).
  exists rows. repeat split; auto.
  rewrite <- Hperm. clear -Hne.
  induction Hne as [|row rows Hrow Hrows IH]; simpl; [lia|].
  rewrite length_app. destruct row; [contradiction | simpl; lia].
Qed.

(** X19: for tiles that do not end before they start, no two tiles of
    a row overlap (each ends before every later one starts), and the
    rows are as few as can be: some position lies under as many
    different tiles as there are rows. *)
Theorem tile_rows_are_disjoint_and_minimal (tiles : list t) :
  Forall wellFormed tiles ->
  exists rows,
    tileRows tiles = Some rows
    /\ Forall (StronglySorted separated) rows
    /\ exists x clique,
         length clique = length rows
         /\ clique ⊆+ tiles
         /\ Forall (covers x) clique.
Proof.
  intros Hwf.
  destruct (tileRows_packed tiles) as (rows & Hrows & _ & _ & _ & Hw).
  exists rows. split; [exact Hrows|]. apply Hw, Hwf.
Qed.

(** X20: the track fits the height it is given.  When [height] is at
    least 20, a row is between 0 and 16 high, and the rows with the 20
    of the axis take no more than [height]. *)
Theorem track_fits_its_height (height : Z) (rows : nat) :
  (20 <= height)%Z ->
  (0 <= rowHeight height rows <= 16)%Z
  /\ (20 <= trackHeight height rows <= height)%Z.
Proof.
  unfold trackHeight, rowHeight. intros Hh.
  assert (Hn : (1 <= Z.max (Z.of_nat rows) 1)%Z) by lia.
  assert (Hq : (0 <= (height - 20) / Z.max (Z.of_nat rows) 1)%Z)
    by (apply Z.div_pos; lia).
  assert (Hm : (Z.max (Z.of_nat rows) 1
                * ((height - 20) / Z.max (Z.of_nat rows) 1) <= height - 20)%Z)
    by (apply Z.mul_div_le; lia).
  split; [lia|]. split; [nia|].
  destruct rows as [|n]; [simpl; lia|].
  replace (Z.max (Z.of_nat (S n)) 1) with (Z.of_nat (S n)) in * by lia.
  nia.
Qed.

End Rows.


(** ** The further properties on the example deployment *)

Lemma cached_value_survives_witness :
  Api.cache (Api.mkWorld (<["viruses.json" := JArray []]> ∅) ["viruses.json"])
    !! "viruses.json" = Some (JArray [])
  /\ Api.requestsFor "viruses.json"
       (Api.world
          (Api.acts [Api.Call "viruses.json"; Api.Call "statistics.json";
                     Api.Answer 1 None; Api.Call "viruses.json";
                     Api.Answer 0 (Demo.answer JNull)]
             (Api.mkSession
                (Api.mkWorld (<["viruses.json" := JArray []]> ∅)
                   ["viruses.json"; "statistics.json"])
                ["statistics.json"])))
     = 1.
Proof.
  split; [reflexivity|].
  destruct (cached_value_survives "viruses.json" (JArray [])
              [Api.Call "viruses.json"; Api.Call "statistics.json";
               Api.Answer 1 None; Api.Call "viruses.json";
               Api.Answer 0 (Demo.answer JNull)]
              (Api.mkSession
                 (Api.mkWorld (<["viruses.json" := JArray []]> ∅)
                    ["viruses.json"; "statistics.json"])
                 ["statistics.json"]))
    as (_ & Hsame & _); [reflexivity | reflexivity | | exact Hsame].
  apply not_elem_of_cons. split; [discriminate | apply not_elem_of_nil].
Defined.

Lemma rejected_fetch_is_not_cached_witness :
  Api.fetchJson "viruses.json" None Api.initial
  = (Api.mkWorld ∅ ["viruses.json"], Rejected "TypeError: Failed to fetch")
  /\ Api.cache (Api.mkWorld ∅ ["viruses.json"]) = Api.cache Api.initial.
Proof.
  split; [reflexivity|].
  destruct (rejected_fetch_is_not_cached "viruses.json" None Api.initial
              (Api.mkWorld ∅ ["viruses.json"]) "TypeError: Failed to fetch")
    as (Hcache & _); [reflexivity|].
  exact Hcache.
Defined.

Lemma found_protein_is_first_match_witness :
  Api.findProteinById "YP_1" (Demo.answer Demo.index)
    (Demo.answer Demo.proteinFile) Api.initial
  = (Api.mkWorld
       (<["proteins/v1.json" := Demo.proteinFile]>
          (<["proteins/index.json" := Demo.index]> ∅))
       ["proteins/index.json"; "proteins/v1.json"],
     Api.Returns
       (Some (Api.mkFound
                (JObject [("id", JString "YP_1"); ("virusId", JString "v1")])
                (Some (JString "v1")))))
  /\ exists members text elems i fields,
       Api.cache
         (Api.mkWorld
            (<["proteins/v1.json" := Demo.proteinFile]>
               (<["proteins/index.json" := Demo.index]> ∅))
            ["proteins/index.json"; "proteins/v1.json"])
         !! "proteins/index.json" = Some (JObject members)
       /\ Some (JString "v1")
          = Api.readVirusId (Api.readKey members "YP_1")
       /\ Api.templateText (Some (JString "v1")) = Some text
       /\ Api.cache
            (Api.mkWorld
               (<["proteins/v1.json" := Demo.proteinFile]>
                  (<["proteins/index.json" := Demo.index]> ∅))
               ["proteins/index.json"; "proteins/v1.json"])
            !! ("proteins/" ++ text ++ ".json") = Some (JArray elems)
       /\ elems !! i
          = Some (JObject [("id", JString "YP_1"); ("virusId", JString "v1")])
       /\ JObject [("id", JString "YP_1"); ("virusId", JString "v1")]
          = JObject fields
       /\ Api.own fields "id" = Some (JString "YP_1")
       /\ forall j e, j < i -> elems !! j = Some e ->
                      Api.hasId "YP_1" e = Some false.
Proof.
  split; [reflexivity|].
  apply (found_protein_is_first_match "YP_1" (Demo.answer Demo.index)
           (Demo.answer Demo.proteinFile) Api.initial
           (Api.mkWorld
              (<["proteins/v1.json" := Demo.proteinFile]>
                 (<["proteins/index.json" := Demo.index]> ∅))
              ["proteins/index.json"; "proteins/v1.json"])
           (Api.mkFound
              (JObject [("id", JString "YP_1"); ("virusId", JString "v1")])
              (Some (JString "v1")))).
  reflexivity.
Defined.


Lemma lookup_sends_at_most_two_requests_witness :
  length (proteinRequests
            (Api.world (fst (Api.lookup "YP_1" Demo.firstLookup
                               (Api.mkSession Api.initial [])))))
  <= 2.
Proof.
  destruct (lookup_sends_at_most_two_requests "YP_1" Demo.firstLookup
              (Api.mkSession Api.initial []))
    as [(extra & Hextra & Hlength & _) _].
  - split; [constructor | repeat constructor].
  - discriminate.
  - rewrite Hextra. exact Hlength.
Defined.

Lemma enter_is_click_on_selected_witness :
  selectedIndex (Demo.play [LightIndexSettled (Some Demo.viruses);
                            Change "spik"; KeyDown ArrowDown]) = 1%Z
  /\ step Demo.virusRelevance Demo.proteinRelevance (KeyDown Enter)
       (Demo.play [LightIndexSettled (Some Demo.viruses); Change "spik";
                   KeyDown ArrowDown])
     = step Demo.virusRelevance Demo.proteinRelevance (Click 1)
         (Demo.play [LightIndexSettled (Some Demo.viruses); Change "spik";
                     KeyDown ArrowDown]).
Proof.
  split; [reflexivity|].
  apply (enter_is_click_on_selected Demo.virusRelevance Demo.proteinRelevance
           (Demo.play [LightIndexSettled (Some Demo.viruses); Change "spik";
                       KeyDown ArrowDown])).
  - reflexivity.
  - reflexivity.
  - vm_compute. split; [discriminate | reflexivity].
Defined.

Lemma closing_and_reopening_restores_witness :
  isOpen (Demo.play [LightIndexSettled (Some Demo.viruses); Change "spik"])
  = true
  /\ step Demo.virusRelevance Demo.proteinRelevance Focus
       (step Demo.virusRelevance Demo.proteinRelevance MouseDownOutside
          (Demo.play [LightIndexSettled (Some Demo.viruses); Change "spik"]))
     = Demo.play [LightIndexSettled (Some Demo.viruses); Change "spik"].
Proof.
  split; [reflexivity|].
  destruct (closing_and_reopening_restores
              Demo.virusRelevance Demo.proteinRelevance
              (Demo.play [LightIndexSettled (Some Demo.viruses);
                          Change "spik"]))
    as (Hsame & _); [reflexivity | reflexivity |].
  exact Hsame.
Defined.

Lemma selecting_navigates_and_cancels_witness :
  results (Demo.play [LightIndexSettled (Some Demo.viruses); Change "spik"])
    !! 0
  = Some (SearchResult.mk virus "v5" "spiky" None None)
  /\ navigated
       (step Demo.virusRelevance Demo.proteinRelevance (Click 0)
          (Demo.play [LightIndexSettled (Some Demo.viruses); Change "spik"]))
     = ["/virus/v5"].
Proof.
  split; [reflexivity|].
  destruct (selecting_navigates_and_cancels
              Demo.virusRelevance Demo.proteinRelevance
              (Demo.play [LightIndexSettled (Some Demo.viruses);
                          Change "spik"])
              0 (SearchResult.mk virus "v5" "spiky" None None))
    as (Hnav & _).
  - apply play_reachable.
  - reflexivity.
  - reflexivity.
  - exact Hnav.
Defined.

Lemma keystroke_shows_light_matches_witness :
  virusIndex (Demo.play [LightIndexSettled (Some Demo.viruses)])
  = Demo.viruses
  /\ selectedIndex
       (step Demo.virusRelevance Demo.proteinRelevance (Change "sp")
          (Demo.play [LightIndexSettled (Some Demo.viruses)]))
     = 0%Z.
Proof.
  split; [reflexivity|].
  destruct (keystroke_shows_light_matches
              Demo.virusRelevance Demo.proteinRelevance
              (Demo.play [LightIndexSettled (Some Demo.viruses)]) "sp")
    as (_ & _ & Hsel & _).
  - apply play_reachable.
  - reflexivity.
  - vm_compute. discriminate.
  - vm_compute. lia.
  - vm_compute. discriminate.
  - exact Hsel.
Defined.

Lemma results_and_selection_are_bounded_witness :
  length (results (Demo.play [LightIndexSettled (Some Demo.viruses);
                              Change "spike"; Elapse 300;
                              DeepIndexSettled 0 (Index Demo.proteins)]))
  = 6
  /\ length (results (Demo.play [LightIndexSettled (Some Demo.viruses);
                                 Change "spike"; Elapse 300;
                                 DeepIndexSettled 0 (Index Demo.proteins)]))
     <= 12.
Proof.
  split; [reflexivity|].
  destruct (results_and_selection_are_bounded
              Demo.virusRelevance Demo.proteinRelevance
              (Demo.play [LightIndexSettled (Some Demo.viruses);
                          Change "spike"; Elapse 300;
                          DeepIndexSettled 0 (Index Demo.proteins)]))
    as (Hlen & _).
  - apply play_reachable.
  - exact Hlen.
Defined.

Lemma nothing_happens_while_loading_witness :
  loading (Demo.play [Elapse 100; Change "spike"; Focus]) = true
  /\ query (Demo.play [Elapse 100; Change "spike"; Focus]) = "".
Proof.
  split; [reflexivity|].
  destruct (nothing_happens_while_loading
              Demo.virusRelevance Demo.proteinRelevance
              (Demo.play [Elapse 100; Change "spike"; Focus]))
    as (_ & Hq & _).
  - apply play_reachable.
  - reflexivity.
  - exact Hq.
Defined.

Lemma pending_timer_is_current_witness :
  timers (Demo.play [LightIndexSettled (Some Demo.viruses); Change "spik";
                     Elapse 100])
  = [mkTimer 1 300 "spik"]
  /\ length (timers (Demo.play [LightIndexSettled (Some Demo.viruses);
                                Change "spik"; Elapse 100])) <= 1.
Proof.
  split; [reflexivity|].
  destruct (pending_timer_is_current
              Demo.virusRelevance Demo.proteinRelevance
              (Demo.play [LightIndexSettled (Some Demo.viruses);
                          Change "spik"; Elapse 100]))
    as (Hone & _).
  - apply play_reachable.
  - exact Hone.
Defined.

Lemma request_only_when_timer_fires_witness :
  fetched (step Demo.virusRelevance Demo.proteinRelevance (Elapse 300)
             (Demo.play [LightIndexSettled (Some Demo.viruses);
                         Change "spik"]))
  = [lightIndexPath; deepIndexPath]
  /\ exists ms t,
       Elapse 300 = Elapse ms
       /\ timers (Demo.play [LightIndexSettled (Some Demo.viruses);
                             Change "spik"]) = [t]
       /\ due t
          <= clock (Demo.play [LightIndexSettled (Some Demo.viruses);
                               Change "spik"]) + ms
       /\ captured t
          = query (Demo.play [LightIndexSettled (Some Demo.viruses);
                              Change "spik"])
       /\ 3 <= String.length
                 (query (Demo.play [LightIndexSettled (Some Demo.viruses);
                                    Change "spik"]))
       /\ fetched (step Demo.virusRelevance Demo.proteinRelevance (Elapse 300)
                     (Demo.play [LightIndexSettled (Some Demo.viruses);
                                 Change "spik"]))
          = (fetched (Demo.play [LightIndexSettled (Some Demo.viruses);
                                 Change "spik"]) ++ [deepIndexPath])%list.
Proof.
  split; [reflexivity|].
  apply (request_only_when_timer_fires
           Demo.virusRelevance Demo.proteinRelevance
           (Demo.play [LightIndexSettled (Some Demo.viruses); Change "spik"])
           (Elapse 300)).
  - apply play_reachable.
  - vm_compute. discriminate.
Defined.

Lemma light_index_is_requested_once_witness :
  deepFetches (Demo.play [LightIndexSettled (Some Demo.viruses);
                          Change "spik"; Elapse 300; Change "spike";
                          Elapse 300]) = 2
  /\ fetched (Demo.play [LightIndexSettled (Some Demo.viruses);
                         Change "spik"; Elapse 300; Change "spike";
                         Elapse 300])
     = lightIndexPath
       :: repeat deepIndexPath
            (deepFetches (Demo.play [LightIndexSettled (Some Demo.viruses);
                                     Change "spik"; Elapse 300;
                                     Change "spike"; Elapse 300])).
Proof.
  split; [reflexivity|].
  apply (light_index_is_requested_once
           Demo.virusRelevance Demo.proteinRelevance).
  apply play_reachable.
Defined.

Lemma coverage_depth_counts_tiles_witness :
  ProteinDetail.coverageDepth 3 Demo.tiles = Some [1; 1; 1]%Z
  /\ exists depth,
       ProteinDetail.coverageDepth 100 Demo.tiles = Some depth
       /\ length depth = 100
       /\ (forall j, j < 100 ->
             depth !! j
             = Some (ProteinDetail.covering (Z.of_nat j) Demo.tiles)).
Proof.
  split; [reflexivity|].
  destruct (coverage_depth_counts_tiles 100 Demo.tiles)
    as (depth & Hd & Hlen & Hcount & _); [lia|].
  exists depth. split; [exact Hd|]. split; [exact Hlen | exact Hcount].
Defined.

Lemma tile_rows_are_disjoint_and_minimal_witness :
  Forall TileTrack.wellFormed Demo.tiles
  /\ option_map (map (map TilePosition.id)) (TileTrack.tileRows Demo.tiles)
     = Some [["t1"; "t3"]; ["t2"]]
  /\ exists rows,
       TileTrack.tileRows Demo.tiles = Some rows
       /\ Forall (StronglySorted TileTrack.separated) rows.
Proof.
  assert (Hwf : Forall TileTrack.wellFormed Demo.tiles).
  { repeat constructor; unfold TileTrack.wellFormed; simpl; lia. }
  split; [exact Hwf|]. split; [reflexivity|].
  destruct (tile_rows_are_disjoint_and_minimal Demo.tiles Hwf)
    as (rows & Hrows & Hsep & _).
  exists rows. split; [exact Hrows | exact Hsep].
Defined.

Lemma track_fits_its_height_witness :
  TileTrack.rowHeight 100 2 = 16%Z
  /\ (20 <= TileTrack.trackHeight 100 2 <= 100)%Z.
Proof.
  split; [reflexivity|].
  destruct (track_fits_its_height 100 2) as (_ & Hfit); [lia|].
  exact Hfit.
Defined.

(** ** The [useProtein] hook *)

Lemma useProtein_step_keeps (e : UseProtein.Event) (h : UseProtein.Hook) :
  (is_Some (UseProtein.protein h) ->
   is_Some (UseProtein.protein (UseProtein.step e h)))
  /\ (is_Some (UseProtein.error h) ->
      is_Some (UseProtein.error (UseProtein.step e h))).
Proof.
  destruct e as [proteinId | [[found|]|reason]]; simpl;
    try destruct (UseProtein.missing proteinId); simpl; eauto.
Qed.

(** X21: the hook never clears what it once showed.  A lookup that
    finds nothing, and likewise one that fails, leaves both the protein
    and the virus id of the previous lookup in place; and over any
    sequence of renders and settlements a protein once set stays set
    and an error once set stays set. *)
Theorem useProtein_never_clears (events : list UseProtein.Event)
  (h : UseProtein.Hook) :
  (forall reason,
      UseProtein.protein (UseProtein.step (UseProtein.Settle (Resolved None)) h)
      = UseProtein.protein h
      /\ UseProtein.protein
           (UseProtein.step (UseProtein.Settle (Rejected reason)) h)
         = UseProtein.protein h
      /\ UseProtein.virusId
           (UseProtein.step (UseProtein.Settle (Resolved None)) h)
         = UseProtein.virusId h
      /\ UseProtein.virusId
           (UseProtein.step (UseProtein.Settle (Rejected reason)) h)
         = UseProtein.virusId h)
  /\ (is_Some (UseProtein.protein h) ->
      is_Some (UseProtein.protein (UseProtein.run events h)))
  /\ (is_Some (UseProtein.error h) ->
      is_Some (UseProtein.error (UseProtein.run events h))).
Proof.
  split; [intros reason; repeat split|].
  revert h. unfold UseProtein.run.
  induction events as [|e events IH]; intros h; simpl; [auto|].
  destruct (useProtein_step_keeps e h) as [Hp He].
  destruct (IH (UseProtein.step e h)) as [IHp IHe]. auto.
Qed.
